(** * Session lifecycle engine of the Pong server

    A shallow embedding of [backend/src/gameManager.ts] (class [GameManager])
    and of the part of the server that owns the tick timer
    ([startGameLoop]), followed by the properties of matchmaking, of the
    disconnect and forfeit logic and of the fixed-step physics.  The
    embedding also covers the rate limiter of the server
    ([checkConnectionRate]), the branches of its [joinGame] handler and of
    the start timer, and the decisions that the client takes on a game state
    it receives ([confirmedSide], the game status, [handleKeyPress] and the
    handler of [playerDisconnected]).

    Conventions of the embedding.
    - A JavaScript [number] is an exact rational ([Q]).  Every value the
      engine computes is an integer or a half-integer of small magnitude,
      for which IEEE double arithmetic is exact.  Numeric facts are stated
      up to [Qeq] ([==]).
    - A [Map] that is only read, written and deleted by key is a [gmap];
      [room.players], whose iteration order decides the forfeit winner, is an
      insertion-ordered association list ([omap]).
    - [Player] objects are mutable and shared between [room.players] and
      [room.gameState.players.left/right].  They are stored once, in
      [room.players]; a reference to a [Player] object is the key under which
      that object is stored there ([PlayerRef]).  The only objects the code
      ever assigns to a slot are values of [room.players], and that Map is
      never written after the room is built, so a key denotes one object for
      the whole life of the room.
    - [Date.now()] and [Math.random()] are inputs of the functions that call
      them.  [clearInterval]/[setInterval] act on [timers], the runtime's
      set of live interval handles. *)

From Stdlib Require Import QArith Qabs Qminmax Lqa.
From stdpp Require Import gmap strings list.

(** ** Constants *)

(** Modelled from the spec: [backend/src/types/gameTypes.ts] is not part of
    the sources at hand; the constants are those of section 6 of the
    specification (field 800x400, paddle 20x80, ball 20x20, base ball speed 3,
    paddle speed 8), which are also the ones of the front end's copy of the
    file. *)
Definition GAME_WIDTH : Q := 800.
Definition GAME_HEIGHT : Q := 400.
Definition PADDLE_WIDTH : Q := 20.
Definition PADDLE_HEIGHT : Q := 80.
Definition BALL_SIZE : Q := 20.
Definition BALL_SPEED : Q := 3.
Definition PADDLE_SPEED : Q := 8.

(** The win threshold, written as the literal [5] in [updateBall]. *)
Definition WIN_SCORE : Z := 5.

(** ** Numbers *)

(** [a < b] on numbers, as a boolean. *)
Definition Qltb (a b : Q) : bool := negb (Qle_bool b a).

(** [Math.random() > 0.5 ? 1 : -1], for the value [r] that [Math.random()]
    returned. *)
Definition random_sign (r : Q) : Q := if Qltb 0.5 r then 1%Q else (-1)%Q.

(** ** Insertion-ordered maps with string keys ([Map<string, V>]) *)

Section omap.
Context {V : Type}.

Definition omap := list (string * V).

Fixpoint omap_get (k : string) (m : omap) : option V :=
  match m with
  | [] => None
  | (k', v) :: m' => if decide (k = k') then Some v else omap_get k m'
  end.

(** [m.set(k, v)]: an existing key keeps its position. *)
Fixpoint omap_set (k : string) (v : V) (m : omap) : omap :=
  match m with
  | [] => [(k, v)]
  | (k', v') :: m' =>
      if decide (k = k') then (k, v) :: m' else (k', v') :: omap_set k v m'
  end.

(** [new Map(entries)]. *)
Definition omap_of_list (entries : list (string * V)) : omap :=
  foldl (λ m kv, omap_set kv.1 kv.2 m) [] entries.

(** [Array.from(m.values())]. *)
Definition omap_values (m : omap) : list V := m.*2.

(** A write through a reference to the object stored under [k]. *)
Fixpoint omap_alter (f : V → V) (k : string) (m : omap) : omap :=
  match m with
  | [] => []
  | (k', v) :: m' =>
      if decide (k = k') then (k', f v) :: m' else (k', v) :: omap_alter f k m'
  end.

End omap.

Arguments omap : clear implicits.

(** ** Data model ([types/gameTypes.ts])

    Field names are those of the source, prefixed by the name of the record
    where two records share a name ([x], [y], [id]) or where the name is
    taken in Rocq ([id]). *)

(** ['left' | 'right']. *)
Inductive PlayerSide := Left | Right.

(** ['up' | 'down']. *)
Inductive Direction := Up | Down.

Record Ball := mkBall { ball_x : Q; ball_y : Q; ball_vx : Q; ball_vy : Q }.

Record Paddle := mkPaddle { paddle_x : Q; paddle_y : Q }.

Record Player := mkPlayer {
  player_id : string;
  side : PlayerSide;
  paddle : Paddle;
  score : Z;
  connected : bool
}.

(** A reference to a [Player] object of a room: its key in [room.players]. *)
Definition PlayerRef := string.

(** [gameState.players.left/right] are flattened into two fields. *)
Record GameState := mkGameState {
  ball : Ball;
  players_left : option PlayerRef;
  players_right : option PlayerRef;
  gameActive : bool;
  winner : option string
}.

Record GameRoom := mkGameRoom {
  room_id : string;
  gameState : GameState;
  players : omap Player;
  gameLoopIntervalId : option nat
}.

#[global] Instance PlayerSide_eq_dec : EqDecision PlayerSide.
Proof. solve_decision. Defined.

(** Field writes. *)
Definition set_paddle_y (v : Q) (p : Player) : Player :=
  mkPlayer (player_id p) (side p) (mkPaddle (paddle_x (paddle p)) v) (score p)
    (connected p).
Definition set_score (v : Z) (p : Player) : Player :=
  mkPlayer (player_id p) (side p) (paddle p) v (connected p).
Definition set_connected (v : bool) (p : Player) : Player :=
  mkPlayer (player_id p) (side p) (paddle p) (score p) v.

Definition set_ball (v : Ball) (g : GameState) : GameState :=
  mkGameState v (players_left g) (players_right g) (gameActive g) (winner g).
Definition set_players_left (v : option PlayerRef) (g : GameState) : GameState :=
  mkGameState (ball g) v (players_right g) (gameActive g) (winner g).
Definition set_players_right (v : option PlayerRef) (g : GameState) : GameState :=
  mkGameState (ball g) (players_left g) v (gameActive g) (winner g).
Definition set_gameActive (v : bool) (g : GameState) : GameState :=
  mkGameState (ball g) (players_left g) (players_right g) v (winner g).
Definition set_winner (v : option string) (g : GameState) : GameState :=
  mkGameState (ball g) (players_left g) (players_right g) (gameActive g) v.

Definition set_gameState (v : GameState) (r : GameRoom) : GameRoom :=
  mkGameRoom (room_id r) v (players r) (gameLoopIntervalId r).
Definition set_players (v : omap Player) (r : GameRoom) : GameRoom :=
  mkGameRoom (room_id r) (gameState r) v (gameLoopIntervalId r).
Definition set_gameLoopIntervalId (v : option nat) (r : GameRoom) : GameRoom :=
  mkGameRoom (room_id r) (gameState r) (players r) v.

(** [room.gameState.players.<side> = ref]. *)
Definition set_slot (s : PlayerSide) (v : option PlayerRef) (r : GameRoom) : GameRoom :=
  match s with
  | Left => set_gameState (set_players_left v (gameState r)) r
  | Right => set_gameState (set_players_right v (gameState r)) r
  end.

Definition slot (s : PlayerSide) (r : GameRoom) : option PlayerRef :=
  match s with
  | Left => players_left (gameState r)
  | Right => players_right (gameState r)
  end.

(** Reading through a slot: the object the slot refers to, if any. *)
Definition deref (r : GameRoom) (ref : option PlayerRef) : option Player :=
  ref ≫= λ k, omap_get k (players r).

(** A write to a field of the object stored under [k]. *)
Definition update_player (f : Player → Player) (k : PlayerRef) (r : GameRoom) : GameRoom :=
  set_players (omap_alter f k (players r)) r.

(** ** The manager and the runtime's timers *)

Record State := mkState {
  rooms : gmap string GameRoom;
  waitingPlayers : list string;
  playerToRoom : gmap string string;
  timers : gset nat
}.

Definition set_rooms (v : gmap string GameRoom) (st : State) : State :=
  mkState v (waitingPlayers st) (playerToRoom st) (timers st).
Definition set_waitingPlayers (v : list string) (st : State) : State :=
  mkState (rooms st) v (playerToRoom st) (timers st).
Definition set_playerToRoom (v : gmap string string) (st : State) : State :=
  mkState (rooms st) (waitingPlayers st) v (timers st).
Definition set_timers (v : gset nat) (st : State) : State :=
  mkState (rooms st) (waitingPlayers st) (playerToRoom st) v.

(** A freshly constructed [GameManager], no interval running. *)
Definition initial : State := mkState ∅ [] ∅ ∅.

(** [if (room.gameLoopIntervalId) clearInterval(room.gameLoopIntervalId)]. *)
Definition clearRoomInterval (room : GameRoom) (st : State) : State :=
  match gameLoopIntervalId room with
  | Some h => set_timers (timers st ∖ {[h]}) st
  | None => st
  end.

(** JavaScript truthiness of [string | undefined]: the empty string is falsy. *)
Definition truthy (o : option string) : option string :=
  match o with
  | Some s => if decide (s = "") then None else Some s
  | None => None
  end.

(** [this.playerToRoom.delete(playerId)]. *)
Definition purge (playerId : string) (st : State) : State :=
  set_playerToRoom (delete playerId (playerToRoom st)) st.

(** [room] is stored back under [roomId]: the registry holds the room object
    by reference, so a write to the object is a write to the registry's
    entry. *)
Definition store_room (roomId : string) (room : GameRoom) (st : State) : State :=
  set_rooms (<[roomId := room]> (rooms st)) st.

(** ** [GameManager] *)

(** [createInitialGameState], for the two values [r1], [r2] returned by its
    calls to [Math.random()]. *)
Definition createInitialGameState (r1 r2 : Q) : GameState :=
  {| ball := {| ball_x := GAME_WIDTH / 2;
                ball_y := GAME_HEIGHT / 2;
                ball_vx := BALL_SPEED * random_sign r1;
                ball_vy := BALL_SPEED * random_sign r2 |};
     players_left := None;
     players_right := None;
     gameActive := false;
     winner := None |}.

Definition createPlayer (playerId : string) (s : PlayerSide) : Player :=
  let paddleX :=
    match s with Left => 20%Q | Right => (GAME_WIDTH - 20 - PADDLE_WIDTH)%Q end in
  {| player_id := playerId;
     side := s;
     paddle := {| paddle_x := paddleX;
                  paddle_y := GAME_HEIGHT / 2 - PADDLE_HEIGHT / 2 |};
     score := 0;
     connected := true |}.

(** The result of [addPlayer], [None] standing for [null]. *)
Record JoinResult := mkJoinResult {
  roomId : string;
  join_side : PlayerSide;
  isNewGame : bool;
  waitingPlayerId : option string
}.

(** Lines 83-137 of [addPlayer]: pair with the head of the queue, or wait.
    [stamp] is the text of
    [`${Date.now()}_${Math.random().toString(36).substr(2, 9)}`]. *)
Definition matchWaiting (stamp : string) (r1 r2 : Q) (playerId : string) (st : State)
    : option JoinResult * State :=
  match waitingPlayers st with
  | waitingPlayerId :: rest =>
      (* [shift()] has taken the head off the queue *)
      if decide (waitingPlayerId = playerId) then
        (None, set_waitingPlayers (rest ++ [playerId]) st)
      else
        let roomId := "room_" +:+ stamp in
        let leftPlayer := createPlayer waitingPlayerId Left in
        let rightPlayer := createPlayer playerId Right in
        let gameState := createInitialGameState r1 r2 in
        let gameState := set_players_left (Some waitingPlayerId) gameState in
        let gameState := set_players_right (Some playerId) gameState in
        let room :=
          {| room_id := roomId;
             gameState := gameState;
             players := omap_of_list [(waitingPlayerId, leftPlayer);
                                      (playerId, rightPlayer)];
             gameLoopIntervalId := None |} in
        let st := set_waitingPlayers rest st in
        let st := store_room roomId room st in
        let st := set_playerToRoom (<[waitingPlayerId := roomId]> (playerToRoom st)) st in
        let st := set_playerToRoom (<[playerId := roomId]> (playerToRoom st)) st in
        (Some {| roomId := roomId; join_side := Right; isNewGame := true;
                 waitingPlayerId := Some waitingPlayerId |}, st)
  | [] =>
      (None, set_waitingPlayers (waitingPlayers st ++ [playerId]) st)
  end.

Definition addPlayer (stamp : string) (r1 r2 : Q) (playerId : string) (st : State)
    : option JoinResult * State :=
  match truthy (playerToRoom st !! playerId) with
  | Some existingRoomId =>
      match rooms st !! existingRoomId with
      | Some room =>
          match omap_get playerId (players room) with
          | Some player =>
              (* reconnection *)
              let room := update_player (set_connected true) playerId room in
              let room := set_slot (side player) (Some playerId) room in
              (Some {| roomId := existingRoomId; join_side := side player;
                       isNewGame := false; waitingPlayerId := None |},
               store_room existingRoomId room st)
          | None => matchWaiting stamp r1 r2 playerId (purge playerId st)
          end
      | None => matchWaiting stamp r1 r2 playerId (purge playerId st)
      end
  | None => matchWaiting stamp r1 r2 playerId st
  end.

(** The result of [removePlayer], [None] standing for [null]. *)
Record RemoveResult := mkRemoveResult {
  removed_roomId : string;
  disconnectedSide : PlayerSide
}.

(** [Array.from(room.players.values()).filter(p => p.id !== playerId && p.connected)]. *)
Definition remainingPlayers (playerId : string) (room : GameRoom) : list Player :=
  filter (λ p, player_id p ≠ playerId ∧ connected p = true) (omap_values (players room)).

Definition removePlayer (playerId : string) (st : State)
    : option RemoveResult * State :=
  match list_find (λ w, w = playerId) (waitingPlayers st) with
  | Some (waitingIndex, _) =>
      (None, set_waitingPlayers (delete waitingIndex (waitingPlayers st)) st)
  | None =>
      match truthy (playerToRoom st !! playerId) with
      | None => (None, st)
      | Some roomId =>
          match rooms st !! roomId with
          | None => (None, purge playerId st)
          | Some room =>
              match omap_get playerId (players room) with
              | None => (None, purge playerId st)
              | Some player =>
                  let disconnectedSide := side player in
                  let room := update_player (set_connected false) playerId room in
                  let room := set_slot (side player) None room in
                  match remainingPlayers playerId room with
                  | [] =>
                      let st := clearRoomInterval room st in
                      let st := set_rooms (delete roomId (rooms st)) st in
                      let st := purge playerId st in
                      (Some (mkRemoveResult roomId disconnectedSide), st)
                  | otherPlayer :: _ =>
                      let gs := set_gameActive false (gameState room) in
                      let gs := set_winner (Some (player_id otherPlayer)) gs in
                      let room := set_gameState gs room in
                      let st := store_room roomId room st in
                      let st := clearRoomInterval room st in
                      let st := purge playerId st in
                      (Some (mkRemoveResult roomId disconnectedSide), st)
                  end
              end
          end
      end
  end.

Definition movePaddle (playerId : string) (direction : Direction) (st : State)
    : option string * State :=
  match truthy (playerToRoom st !! playerId) with
  | None => (None, st)
  | Some roomId =>
      match rooms st !! roomId with
      | None => (None, st)
      | Some room =>
          match omap_get playerId (players room) with
          | None => (None, st)
          | Some player =>
              if negb (connected player) then (None, st)
              else
                let newY :=
                  match direction with
                  | Up => Qmax 0 (paddle_y (paddle player) - PADDLE_SPEED)
                  | Down => Qmin (GAME_HEIGHT - PADDLE_HEIGHT)
                                 (paddle_y (paddle player) + PADDLE_SPEED)
                  end in
                let room := update_player (set_paddle_y newY) playerId room in
                let room := set_slot (side player) (Some playerId) room in
                (Some roomId, store_room roomId room st)
          end
      end
  end.

(** [resetBall], for the values [r1], [r2], [r3] that successive calls to
    [Math.random()] return ([r3] is drawn only inside the conditional). *)
Definition resetBall (r1 r2 r3 : Q) (gameState : GameState) : GameState :=
  let newVx := (BALL_SPEED * random_sign r1)%Q in
  let newVy := (BALL_SPEED * random_sign r2)%Q in
  let newVy :=
    if Qltb (Qabs newVy) 0.1
    then (BALL_SPEED * (if Qltb 0.5 r3 then 0.5 else -0.5))%Q
    else newVy in
  set_ball {| ball_x := GAME_WIDTH / 2; ball_y := GAME_HEIGHT / 2;
              ball_vx := newVx; ball_vy := newVy |} gameState.

(** The slot [s] as the code sees it: [None] for [null].  A key that is not a
    key of [room.players] denotes no object and reads as [null] too; rooms
    built by [addPlayer] never hold one (see [room_ok]). *)
Definition slot_player (s : PlayerSide) (room : GameRoom) : option (PlayerRef * Player) :=
  slot s room ≫= λ k, pair k <$> omap_get k (players room).

Definition startGame (r1 r2 r3 : Q) (roomId : string) (st : State) : bool * State :=
  match rooms st !! roomId with
  | None => (false, st)
  | Some room =>
      match slot_player Left room, slot_player Right room with
      | Some (l, leftPlayer), Some (r, rightPlayer) =>
          if negb (connected leftPlayer) || negb (connected rightPlayer)
          then (false, st)
          else
            let gs := set_gameActive true (gameState room) in
            let gs := set_winner None gs in
            let room := set_gameState gs room in
            let room := update_player (set_score 0) l room in
            let room := update_player (set_score 0) r room in
            let room := set_gameState (resetBall r1 r2 r3 (gameState room)) room in
            (true, store_room roomId room st)
      | _, _ => (false, st)
      end
  end.

(** *** The tick: [updateBall] *)

(** [ball.x += ball.vx; ball.y += ball.vy]. *)
Definition moveBall (b : Ball) : Ball :=
  {| ball_x := ball_x b + ball_vx b; ball_y := ball_y b + ball_vy b;
     ball_vx := ball_vx b; ball_vy := ball_vy b |}.

(** Bounce off the top and bottom walls. *)
Definition bounceWalls (b : Ball) : Ball :=
  if Qle_bool (ball_y b) 0 || Qle_bool (GAME_HEIGHT - BALL_SIZE) (ball_y b) then
    {| ball_x := ball_x b;
       ball_y := Qmax 0 (Qmin (GAME_HEIGHT - BALL_SIZE) (ball_y b));
       ball_vx := ball_vx b; ball_vy := - ball_vy b |}
  else b.

Definition hitsLeftPaddle (leftPaddle : Paddle) (b : Ball) : bool :=
  Qltb (ball_vx b) 0 &&
  Qle_bool (ball_x b) (paddle_x leftPaddle + PADDLE_WIDTH) &&
  Qle_bool (paddle_x leftPaddle) (ball_x b + BALL_SIZE) &&
  Qle_bool (paddle_y leftPaddle) (ball_y b + BALL_SIZE) &&
  Qle_bool (ball_y b) (paddle_y leftPaddle + PADDLE_HEIGHT).

Definition hitsRightPaddle (rightPaddle : Paddle) (b : Ball) : bool :=
  Qltb 0 (ball_vx b) &&
  Qle_bool (paddle_x rightPaddle) (ball_x b + BALL_SIZE) &&
  Qle_bool (ball_x b) (paddle_x rightPaddle + PADDLE_WIDTH) &&
  Qle_bool (paddle_y rightPaddle) (ball_y b + BALL_SIZE) &&
  Qle_bool (ball_y b) (paddle_y rightPaddle + PADDLE_HEIGHT).

(** [leftPaddle] is [players.left?.paddle]: [None] when the slot is empty. *)
Definition collideLeft (leftPaddle : option Paddle) (b : Ball) : Ball :=
  match leftPaddle with
  | Some lp =>
      if hitsLeftPaddle lp b then
        {| ball_x := paddle_x lp + PADDLE_WIDTH; ball_y := ball_y b;
           ball_vx := - ball_vx b; ball_vy := ball_vy b |}
      else b
  | None => b
  end.

Definition collideRight (rightPaddle : option Paddle) (b : Ball) : Ball :=
  match rightPaddle with
  | Some rp =>
      if hitsRightPaddle rp b then
        {| ball_x := paddle_x rp - BALL_SIZE; ball_y := ball_y b;
           ball_vx := - ball_vx b; ball_vy := ball_vy b |}
      else b
  | None => b
  end.

(** The body of [if (players.<s>) { ... }] in the scoring part: the player in
    slot [s] scores. *)
Definition scorePoint (r1 r2 r3 : Q) (s : PlayerSide) (room : GameRoom) : GameRoom :=
  match slot_player s room with
  | Some (k, _) =>
      let room := update_player (λ p, set_score (score p + 1) p) k room in
      let room := set_gameState (resetBall r1 r2 r3 (gameState room)) room in
      match omap_get k (players room) with
      | Some scorer =>
          if (WIN_SCORE <=? score scorer)%Z then
            let gs := set_winner (Some (player_id scorer)) (gameState room) in
            let gs := set_gameActive false gs in
            set_gameState gs room
          else room
      | None => room
      end
  | None => room
  end.

(** The body of [updateBall] on a room that exists and is active. *)
Definition stepBall (r1 r2 r3 : Q) (room : GameRoom) : bool * GameRoom :=
  let b := moveBall (ball (gameState room)) in
  let b := bounceWalls b in
  let leftPaddle := (paddle ∘ snd) <$> slot_player Left room in
  let rightPaddle := (paddle ∘ snd) <$> slot_player Right room in
  let b := collideLeft leftPaddle b in
  let b := collideRight rightPaddle b in
  let room := set_gameState (set_ball b (gameState room)) room in
  if Qltb (ball_x b) 0 then (true, scorePoint r1 r2 r3 Right room)
  else if Qltb GAME_WIDTH (ball_x b) then (true, scorePoint r1 r2 r3 Left room)
  else (false, room).

Definition updateBall (r1 r2 r3 : Q) (roomId : string) (st : State) : bool * State :=
  match rooms st !! roomId with
  | None => (false, st)
  | Some room =>
      if negb (gameActive (gameState room)) then (false, st)
      else
        let '(scored, room) := stepBall r1 r2 r3 room in
        (scored, store_room roomId room st)
  end.

(** *** Queries and teardown *)

Definition getRoom (roomId : string) (st : State) : option GameRoom :=
  rooms st !! roomId.

Definition getWaitingPlayers (st : State) : list string := waitingPlayers st.

Definition bothPlayersConnected (roomId : string) (st : State) : bool :=
  match rooms st !! roomId with
  | None => false
  | Some room =>
      match slot_player Left room, slot_player Right room with
      | Some (_, leftPlayer), Some (_, rightPlayer) =>
          connected leftPlayer && connected rightPlayer
      | _, _ => false
      end
  end.

Definition clearAllGames (st : State) : State :=
  let st := map_fold (λ _ room st, clearRoomInterval room st) st (rooms st) in
  {| rooms := ∅; waitingPlayers := []; playerToRoom := ∅; timers := timers st |}.

(** ** The server's tick timer

    [startGameLoop] of the server: [h] is the handle that [setInterval]
    returns. *)
Definition startGameLoop (h : nat) (roomId : string) (st : State) : State :=
  match getRoom roomId st with
  | None => st
  | Some room =>
      let st := clearRoomInterval room st in
      let st := set_timers ({[h]} ∪ timers st) st in
      store_room roomId (set_gameLoopIntervalId (Some h) room) st
  end.

(** One tick of room [roomId]; [r] holds the three values that
    [Math.random()] would return during that tick. *)
Definition tick (r : Q * Q * Q) (roomId : string) (st : State) : bool * State :=
  updateBall r.1.1 r.1.2 r.2 roomId st.

(** The state after [n] consecutive ticks of one room, tick number [i]
    (counted from 0) drawing [rnd i]. *)
Fixpoint ticks (rnd : nat → Q * Q * Q) (n : nat) (roomId : string) (st : State) : State :=
  match n with
  | O => st
  | S n => (tick (rnd n) roomId (ticks rnd n roomId st)).2
  end.

(** The room that [addPlayer] builds when it pairs the waiting player [w]
    with the joining player [p]. *)
Definition newRoom (stamp : string) (r1 r2 : Q) (w p : string) : GameRoom :=
  {| room_id := "room_" +:+ stamp;
     gameState := set_players_right (Some p)
                    (set_players_left (Some w) (createInitialGameState r1 r2));
     players := [(w, createPlayer w Left); (p, createPlayer p Right)];
     gameLoopIntervalId := None |}.

(** [playerId] is a player of [room]. *)
Definition in_room (playerId : string) (room : GameRoom) : Prop :=
  is_Some (omap_get playerId (players room)).

(** [playerId] is assigned to a session: its mapping leads to a room of the
    registry that holds it. *)
Definition assigned (playerId : string) (st : State) : Prop :=
  ∃ roomId room, playerToRoom st !! playerId = Some roomId ∧ roomId ≠ "" ∧
    rooms st !! roomId = Some room ∧ in_room playerId room.

(** The sessions of the registry that hold [playerId]. *)
Definition sessions_of (playerId : string) (st : State) : gset string :=
  dom (filter (λ kv, in_room playerId kv.2) (rooms st)).

(** ** Notions used in the statements *)

(** The room after [playerId] has been marked disconnected and its slot
    cleared (lines 177-182). *)
Definition disconnect (playerId : string) (player : Player) (room : GameRoom) : GameRoom :=
  set_slot (side player) None (update_player (set_connected false) playerId room).

(** The room after a forfeit in favour of [otherPlayer] (lines 198-199). *)
Definition forfeit (otherPlayer : Player) (room : GameRoom) : GameRoom :=
  set_gameState
    (set_winner (Some (player_id otherPlayer))
       (set_gameActive false (gameState room))) room.

(** [newY] of [movePaddle]. *)
Definition movedY (direction : Direction) (y : Q) : Q :=
  match direction with
  | Up => Qmax 0 (y - PADDLE_SPEED)
  | Down => Qmin (GAME_HEIGHT - PADDLE_HEIGHT) (y + PADDLE_SPEED)
  end.

(** The player object stored under [k] in room [rid]. *)
Definition get_player (rid k : string) (st : State) : option Player :=
  rooms st !! rid ≫= λ room, omap_get k (players room).

(** A sequence of move intents, each from some player id. *)
Definition movePaddles (intents : list (string * Direction)) (st : State) : State :=
  foldl (λ st i, (movePaddle i.1 i.2 st).2) st intents.

(** [X], with player object [pX], and [O], with player object [pO], hold the
    two slots of [room]. *)
Definition seated (room : GameRoom) (X : string) (pX : Player) (O : string) (pO : Player)
    : Prop :=
  (slot_player Left room = Some (X, pX) ∧ slot_player Right room = Some (O, pO)) ∨
  (slot_player Left room = Some (O, pO) ∧ slot_player Right room = Some (X, pX)).

(** [player.score++]. *)
Definition addPoint (p : Player) : Player := set_score (score p + 1) p.

(** The room after the scorer's win has been recorded (lines 330-331 and
    345-346 of [updateBall]). *)
Definition declareWinner (scorer : Player) (room : GameRoom) : GameRoom :=
  set_gameState
    (set_gameActive false (set_winner (Some (player_id scorer)) (gameState room)))
    room.

(** On the coming tick the ball does not touch the left paddle: the left
    slot is empty, or the paddle is elsewhere. *)
Definition leftPaddleMisses (room : GameRoom) : bool :=
  match slot_player Left room with
  | Some (_, leftPlayer) =>
      negb (hitsLeftPaddle (paddle leftPlayer)
              (bounceWalls (moveBall (ball (gameState room)))))
  | None => true
  end.

(** The room after a tick in which the ball only moves (and perhaps bounces
    off a wall). *)
Definition glide (room : GameRoom) : GameRoom :=
  set_gameState
    (set_ball (bounceWalls (moveBall (ball (gameState room)))) (gameState room))
    room.

(** The number [n] as a JavaScript number. *)
Definition Qnat (n : nat) : Q := inject_Z (Z.of_nat n).

(** ** Invariants of the manager *)

(** A room as [addPlayer] builds it and as every operation keeps it: two
    player objects under two distinct keys, the first on the left and the
    second on the right, each slot referring to its player exactly while that
    player is connected. *)
Definition room_ok (room : GameRoom) : Prop :=
  ∃ A B pA pB,
    A ≠ B ∧ players room = [(A, pA); (B, pB)] ∧
    player_id pA = A ∧ side pA = Left ∧
    player_id pB = B ∧ side pB = Right ∧
    players_left (gameState room) = (if connected pA then Some A else None) ∧
    players_right (gameState room) = (if connected pB then Some B else None).

Record inv (st : State) : Prop := mkInv {
  inv_queue : length (waitingPlayers st) ≤ 1;
  inv_queued : ∀ P, P ∈ waitingPlayers st → playerToRoom st !! P = None;
  inv_rooms : ∀ rid room, rooms st !! rid = Some room → room_ok room;
  inv_connected : ∀ rid room P p,
    rooms st !! rid = Some room → omap_get P (players room) = Some p →
    connected p = true → playerToRoom st !! P = Some rid;
  inv_ids : ∀ P rid, playerToRoom st !! P = Some rid → rid ≠ ""
}.

(** One call of the public interface, or the server starting a tick timer
    with a handle that is not in use. *)
Inductive step : State → State → Prop :=
  | step_addPlayer stamp r1 r2 P st :
      step st (addPlayer stamp r1 r2 P st).2
  | step_removePlayer P st :
      step st (removePlayer P st).2
  | step_movePaddle P d st :
      step st (movePaddle P d st).2
  | step_startGame r1 r2 r3 rid st :
      step st (startGame r1 r2 r3 rid st).2
  | step_updateBall r1 r2 r3 rid st :
      step st (updateBall r1 r2 r3 rid st).2
  | step_clearAllGames st :
      step st (clearAllGames st)
  | step_startGameLoop h rid st :
      h ∉ timers st → step st (startGameLoop h rid st).

(** The states of a manager that started empty. *)
Definition reachable (st : State) : Prop := rtc step initial st.

(** [f] writes neither the identity, nor the side, nor the connection flag. *)
Definition keeps_identity (f : Player → Player) : Prop :=
  ∀ p, player_id (f p) = player_id p ∧ side (f p) = side p ∧
       connected (f p) = connected p.

(** Every connected player of [room'] is a connected player of [room]. *)
Definition conn_le (room' room : GameRoom) : Prop :=
  ∀ P p', omap_get P (players room') = Some p' → connected p' = true →
    ∃ p, omap_get P (players room) = Some p ∧ connected p = true.

(** [room'] is [room] after writes that touch neither the seating nor the
    connection flags. *)
Definition evolves (room room' : GameRoom) : Prop :=
  (room_ok room → room_ok room') ∧ conn_le room' room.

(** ** A worked scenario

    Player "A" joins an empty manager and waits; "B" joins and is paired
    with "A"; the game is started and the server starts the tick timer with
    handle 7. *)

Definition demo_queued : State := (addPlayer "1_a" 0.3 0.7 "A" initial).2.
Definition demo_paired : State := (addPlayer "2_b" 0.3 0.7 "B" demo_queued).2.
Definition demo_started : State := (startGame 0.3 0.7 0.1 "room_2_b" demo_paired).2.
Definition demo_running : State := startGameLoop 7 "room_2_b" demo_started.

Definition demo_playerA : Player := createPlayer "A" Left.
Definition demo_playerB : Player := createPlayer "B" Right.

(** The room of [demo_running]. *)
Definition demo_room : GameRoom :=
  {| room_id := "room_2_b";
     gameState :=
       {| ball := {| ball_x := GAME_WIDTH / 2; ball_y := GAME_HEIGHT / 2;
                     ball_vx := -3; ball_vy := 3 |};
          players_left := Some "A"; players_right := Some "B";
          gameActive := true; winner := None |};
     players := [("A", demo_playerA); ("B", demo_playerB)];
     gameLoopIntervalId := Some 7 |}.

(** A manager in which "P" is mapped to a session that the registry does
    not hold. *)
Definition demo_stale : State :=
  set_playerToRoom {["P" := "room_gone"]} initial.

(** [demo_running] at match point: "B" has four points, the paddle of "A" is
    at the top of the field and the ball is about to cross the left edge. *)
Definition demo_match_point : State :=
  store_room "room_2_b"
    (update_player (set_score 4) "B"
       (set_gameState
          (set_ball {| ball_x := 1; ball_y := 200; ball_vx := -3; ball_vy := 3 |}
             (gameState demo_room))
          (update_player (set_paddle_y 0) "A" demo_room)))
    demo_running.

(** The random values of the worked runs. *)
Definition demo_rnd (i : nat) : Q * Q * Q := (0.3, 0.7, 0.1)%Q.

(** [demo_running] after "A" has moved its paddle to the top of the field,
    out of the way of the ball. *)
Definition demo_clear : State :=
  movePaddles (replicate 20 ("A", Up)) demo_running.

(** The room of [demo_clear]. *)
Definition demo_clear_room : GameRoom :=
  Eval vm_compute in default demo_room (rooms demo_clear !! "room_2_b").

(** ** Further queries of [GameManager] *)

(** [getRoomByPlayer]: [this.rooms.get(roomId) || null]. *)
Definition getRoomByPlayer (playerId : string) (st : State) : option GameRoom :=
  match truthy (playerToRoom st !! playerId) with
  | None => None
  | Some roomId => rooms st !! roomId
  end.

Definition getPlayerSide (playerId : string) (st : State) : option PlayerSide :=
  match truthy (playerToRoom st !! playerId) with
  | None => None
  | Some roomId =>
      match rooms st !! roomId with
      | None => None
      | Some room =>
          match omap_get playerId (players room) with
          | Some player => Some (side player)
          | None => None
          end
      end
  end.

(** ** The invariants of a game

    What every operation keeps true of a room, beyond its seating
    ([room_ok]). *)

(** The ball moves at the base speed along both axes and lies in the field. *)
Definition ball_ok (b : Ball) : Prop :=
  (Qabs (ball_vx b) == BALL_SPEED)%Q ∧ (Qabs (ball_vy b) == BALL_SPEED)%Q ∧
  (0 <= ball_x b <= GAME_WIDTH)%Q ∧ (0 <= ball_y b <= GAME_HEIGHT - BALL_SIZE)%Q.

(** A player of a room whose active flag is [active]: connected while the
    game runs, a score between 0 and the win threshold that is below the
    threshold while the game runs, and a paddle in its column and inside the
    field. *)
Definition player_ok (active : bool) (p : Player) : Prop :=
  (active = true → connected p = true) ∧
  (0 ≤ score p ≤ WIN_SCORE)%Z ∧
  (active = true → (score p < WIN_SCORE)%Z) ∧
  (paddle_x (paddle p) ==
     match side p with Left => 20 | Right => GAME_WIDTH - 20 - PADDLE_WIDTH end)%Q ∧
  (0 <= paddle_y (paddle p) <= GAME_HEIGHT - PADDLE_HEIGHT)%Q.

Record game_ok (room : GameRoom) : Prop := mkGameOk {
  game_no_winner : gameActive (gameState room) = true →
                   winner (gameState room) = None;
  game_ball : ball_ok (ball (gameState room));
  game_players : ∀ k p, omap_get k (players room) = Some p →
                 player_ok (gameActive (gameState room)) p
}.

(** A mapped player that its room holds is connected; with [inv_connected],
    a player of a room is connected exactly when it is mapped to that room. *)
Definition mapped_connected (st : State) : Prop :=
  ∀ P rid room p,
    playerToRoom st !! P = Some rid → rooms st !! rid = Some room →
    omap_get P (players room) = Some p → connected p = true.

(** Some player of [room] is connected. *)
Definition occupied (room : GameRoom) : Prop :=
  ∃ k p, omap_get k (players room) = Some p ∧ connected p = true.

Record inv_game (st : State) : Prop := mkInvGame {
  inv_mapped : mapped_connected st;
  inv_games : ∀ rid room, rooms st !! rid = Some room → game_ok room;
  inv_occupied : ∀ rid room, rooms st !! rid = Some room → occupied room
}.

(** The connection flags of [room'] are those of [room]. *)
Definition conn_eq (room room' : GameRoom) : Prop :=
  ∀ P, connected <$> omap_get P (players room') =
       connected <$> omap_get P (players room).

(** ** The server ([server.ts]) *)

(** *** Rate limiting of connections *)

Record AttemptRecord := mkAttemptRecord { count : Z; firstAttempt : Z }.

Definition CONNECTION_ATTEMPT_LIMIT : Z := 15.
Definition CONNECTION_ATTEMPT_WINDOW : Z := 60000.
Definition RESET_WINDOW : Z := 10000.

(** [checkConnectionRate], for the value [now] of [Date.now()]; the table
    [connectionAttempts] is threaded through. *)
Definition checkConnectionRate (now : Z) (ip : string)
    (connectionAttempts : gmap string AttemptRecord)
    : bool * gmap string AttemptRecord :=
  match connectionAttempts !! ip with
  | None => (true, <[ip := mkAttemptRecord 1 now]> connectionAttempts)
  | Some record =>
      if (CONNECTION_ATTEMPT_WINDOW <? now - firstAttempt record)%Z then
        (true, <[ip := mkAttemptRecord 1 now]> connectionAttempts)
      else if (CONNECTION_ATTEMPT_LIMIT <=? count record)%Z then
        (false, connectionAttempts)
      else
        (true, <[ip := mkAttemptRecord (count record + 1) (firstAttempt record)]>
                 connectionAttempts)
  end.

(** The periodic clean-up of the table. *)
Definition cleanupAttempts (now : Z) (connectionAttempts : gmap string AttemptRecord)
    : gmap string AttemptRecord :=
  filter (λ kv, ¬ (CONNECTION_ATTEMPT_WINDOW + RESET_WINDOW < now - firstAttempt kv.2)%Z)
    connectionAttempts.

(** Successive connections from [ip] at the given times: the answers, and
    the table afterwards. *)
Fixpoint connections (ip : string) (times : list Z)
    (connectionAttempts : gmap string AttemptRecord)
    : list bool * gmap string AttemptRecord :=
  match times with
  | [] => ([], connectionAttempts)
  | now :: times =>
      let '(ok, connectionAttempts) := checkConnectionRate now ip connectionAttempts in
      let '(oks, connectionAttempts) := connections ip times connectionAttempts in
      (ok :: oks, connectionAttempts)
  end.

(** *** The branches of the handlers *)

(** The branch that the callback of the two-second timer of [joinGame]
    takes. *)
Inductive StartOutcome :=
  | GameStarted | RoomDisappeared | FailedToStart | PlayersDisconnected.

(** The callback of the two-second timer: [h] is the handle that
    [setInterval] returns to [startGameLoop]. *)
Definition delayedStart (h : nat) (r1 r2 r3 : Q) (roomId : string) (st : State)
    : StartOutcome * State :=
  match getRoom roomId st with
  | Some _ =>
      if bothPlayersConnected roomId st then
        let '(started, st) := startGame r1 r2 r3 roomId st in
        if started then
          match getRoom roomId st with
          | Some _ => (GameStarted, startGameLoop h roomId st)
          | None => (RoomDisappeared, st)
          end
        else (FailedToStart, st)
      else (PlayersDisconnected, st)
  | None => (PlayersDisconnected, st)
  end.

(** The branch that the handler of [joinGame] takes. *)
Inductive JoinOutcome :=
  | AddedToWaitingList | RoomNotFound | BothConnected | OnlyOnePlayer.

(** [leftPlayer?.connected && rightPlayer?.connected] of the handler. *)
Definition slotsConnected (room : GameRoom) : bool :=
  match slot_player Left room, slot_player Right room with
  | Some (_, leftPlayer), Some (_, rightPlayer) =>
      connected leftPlayer && connected rightPlayer
  | _, _ => false
  end.

Definition joinGame (stamp : string) (r1 r2 : Q) (socketId : string) (st : State)
    : JoinOutcome * State :=
  let '(result, st) := addPlayer stamp r1 r2 socketId st in
  match result with
  | Some result =>
      match getRoom (roomId result) st with
      | None => (RoomNotFound, st)
      | Some room =>
          if slotsConnected room then (BothConnected, st) else (OnlyOnePlayer, st)
      end
  | None => (AddedToWaitingList, st)
  end.

(** ** The client ([App]) *)

(** A game state as the client receives it: the payload of
    [emit('gameState', room.gameState)], in which each slot holds the player
    object it refers to. *)
Record Snapshot := mkSnapshot {
  snap_ball : Ball;
  snap_left : option Player;
  snap_right : option Player;
  snap_gameActive : bool;
  snap_winner : option string
}.

Definition emitGameState (room : GameRoom) : Snapshot :=
  {| snap_ball := ball (gameState room);
     snap_left := snd <$> slot_player Left room;
     snap_right := snd <$> slot_player Right room;
     snap_gameActive := gameActive (gameState room);
     snap_winner := winner (gameState room) |}.

(** [player?.id === currentPlayerId]. *)
Definition isMe (player : option Player) (currentPlayerId : string) : bool :=
  match player with
  | Some p => bool_decide (player_id p = currentPlayerId)
  | None => false
  end.

(** [confirmedSide] of the handler of [gameState]. *)
Definition confirmedSide (state : Snapshot) (currentPlayerId : string)
    : option PlayerSide :=
  if isMe (snap_left state) currentPlayerId then Some Left
  else if isMe (snap_right state) currentPlayerId then Some Right
  else None.

Inductive GameStatus := StatusWaiting | StatusJoining | StatusPlaying | StatusEnded.

(** The status that the handler of [gameState] sets. *)
Definition gameStatusOf (state : Snapshot) : GameStatus :=
  match truthy (snap_winner state) with
  | Some _ => StatusEnded
  | None =>
      if snap_gameActive state then StatusPlaying
      else
        match snap_left state, snap_right state with
        | Some _, Some _ => StatusPlaying
        | None, None => StatusWaiting
        | _, _ => StatusPlaying
        end
  end.

(** What the handler of [gameState] tells the user when the state has a
    winner. *)
Inductive Verdict := YouWin | YouLose.

Definition verdictOf (state : Snapshot) (currentPlayerId : string) : option Verdict :=
  match truthy (snap_winner state) with
  | Some w => Some (if decide (w = currentPlayerId) then YouWin else YouLose)
  | None => None
  end.

Inductive Key := ArrowUp | ArrowDown | OtherKey.

(** [handleKeyPress] of a client whose socket exists: the direction of the
    [paddleMove] that it emits, if it emits one. *)
Definition handleKeyPress (gameState : option Snapshot) (currentPlayerId : string)
    (key : Key) : option Direction :=
  match gameState with
  | None => None
  | Some gameState =>
      if isMe (snap_left gameState) currentPlayerId
         || isMe (snap_right gameState) currentPlayerId
      then match key with
           | ArrowUp => Some Up
           | ArrowDown => Some Down
           | OtherKey => None
           end
      else None
  end.

(** The update of the game state by the handler of [playerDisconnected]. *)
Definition onPlayerDisconnected (s : PlayerSide) (prev : option Snapshot)
    : option Snapshot :=
  match prev with
  | None => None
  | Some prev =>
      Some {| snap_ball := snap_ball prev;
              snap_left := match s with Left => None | Right => snap_left prev end;
              snap_right := match s with Left => snap_right prev | Right => None end;
              snap_gameActive := false;
              snap_winner := snap_winner prev |}
  end.

(** ** Further states of the worked scenario *)

(** "A" leaves the running game. *)
Definition demo_left : State := (removePlayer "A" demo_running).2.

(** "C" joins the manager in which the game of "A" and "B" runs, and waits. *)
Definition demo_third : State := (addPlayer "3_c" 0.3 0.7 "C" demo_running).2.

(** The running game just before the ball reaches the paddle of "A". *)
Definition demo_before_hit : State := ticks demo_rnd 119 "room_2_b" demo_running.

(** The room of [demo_before_hit]. *)
Definition demo_before_hit_room : GameRoom :=
  Eval vm_compute in default demo_room (rooms demo_before_hit !! "room_2_b").

(** The room of [demo_left]. *)
Definition demo_left_room : GameRoom :=
  Eval vm_compute in default demo_room (rooms demo_left !! "room_2_b").

(** The game of "A" and "B" started anew with the ball served to the right,
    just before the ball reaches the paddle of "B". *)
Definition demo_served_right : State :=
  (startGame 0.7 0.7 0.1 "room_2_b" demo_running).2.

Definition demo_before_right_hit : State :=
  ticks demo_rnd 113 "room_2_b" demo_served_right.

(** The room of [demo_before_right_hit]. *)
Definition demo_before_right_hit_room : GameRoom :=
  Eval vm_compute in default demo_room (rooms demo_before_right_hit !! "room_2_b").

(** [demo_clear] just before the ball crosses the left edge. *)
Definition demo_before_score : State := ticks demo_rnd 133 "room_2_b" demo_clear.

(** The room of [demo_before_score]. *)
Definition demo_before_score_room : GameRoom :=
  Eval vm_compute in default demo_room (rooms demo_before_score !! "room_2_b").

(** * Properties *)

(** ** Comparison of numbers *)

Lemma Qltb_true (a b : Q) : Qltb a b = true ↔ (a < b)%Q.
Proof.
  unfold Qltb. rewrite negb_true_iff, <- not_true_iff_false, Qle_bool_iff.
  split; [apply Qnot_le_lt | apply Qlt_not_le].
Qed.

Lemma Qltb_false (a b : Q) : Qltb a b = false ↔ (b <= a)%Q.
Proof. unfold Qltb. rewrite negb_false_iff. apply Qle_bool_iff. Qed.

(** ** Insertion-ordered maps *)

Lemma omap_get_alter {V} (f : V → V) (k k' : string) (m : omap V) :
  omap_get k' (omap_alter f k m) =
  if decide (k = k') then f <$> omap_get k' m else omap_get k' m.
Proof.
  induction m as [|[k0 v0] m IH]; simpl.
  - by case_decide.
  - repeat (case_decide; simplify_eq/=); try done;
      rewrite IH; by rewrite ?decide_True, ?decide_False.
Qed.

Lemma omap_get_alter_eq {V} (f : V → V) (k : string) (m : omap V) :
  omap_get k (omap_alter f k m) = f <$> omap_get k m.
Proof. rewrite omap_get_alter. by rewrite decide_True. Qed.

Lemma omap_get_alter_ne {V} (f : V → V) (k k' : string) (m : omap V) :
  k ≠ k' → omap_get k' (omap_alter f k m) = omap_get k' m.
Proof. intros ?. rewrite omap_get_alter. by rewrite decide_False. Qed.

Lemma omap_alter_keys {V} (f : V → V) (k : string) (m : omap V) :
  (omap_alter f k m).*1 = m.*1.
Proof.
  induction m as [|[k0 v0] m IH]; simpl; [done|].
  case_decide; csimpl; [done | by f_equal].
Qed.

Lemma omap_of_list_pair {V} (k1 k2 : string) (v1 v2 : V) :
  k1 ≠ k2 → omap_of_list [(k1, v1); (k2, v2)] = [(k1, v1); (k2, v2)].
Proof. intros ?. unfold omap_of_list. simpl. by rewrite decide_False. Qed.

(** ** Basic facts *)

Lemma truthy_Some (o : option string) (s : string) :
  truthy o = Some s ↔ o = Some s ∧ s ≠ "".
Proof.
  unfold truthy. destruct o as [s'|]; [case_decide as He|].
  - subst. split; [done | by intros [[= <-] ?]].
  - split; [by intros [= <-] | by intros [[= <-] ?]].
  - split; [done | by intros [? ?]].
Qed.

Lemma truthy_intro (o : option string) (s : string) :
  o = Some s → s ≠ "" → truthy o = Some s.
Proof. intros. by apply truthy_Some. Qed.

Lemma omap_get_here {V} (k : string) (v : V) (m : omap V) :
  omap_get k ((k, v) :: m) = Some v.
Proof. simpl. by rewrite decide_True. Qed.

Lemma omap_get_next {V} (k k' : string) (v : V) (m : omap V) :
  k ≠ k' → omap_get k ((k', v) :: m) = omap_get k m.
Proof. intros. simpl. by rewrite decide_False. Qed.

Lemma omap_alter_here {V} (f : V → V) (k : string) (v : V) (m : omap V) :
  omap_alter f k ((k, v) :: m) = (k, f v) :: m.
Proof. simpl. by rewrite decide_True. Qed.

Lemma omap_alter_next {V} (f : V → V) (k k' : string) (v : V) (m : omap V) :
  k ≠ k' → omap_alter f k ((k', v) :: m) = (k', v) :: omap_alter f k m.
Proof. intros. simpl. by rewrite decide_False. Qed.

Lemma room_prefix_nonempty (stamp : string) : "room_" +:+ stamp ≠ "".
Proof. done. Qed.

(** The queue test of [removePlayer]: [indexOf] finds nothing exactly when
    the id is not queued. *)
Lemma not_queued_find (playerId : string) (q : list string) :
  playerId ∉ q → list_find (λ w, w = playerId) q = None.
Proof.
  intros Hq. apply list_find_None, Forall_forall. intros w Hw ->. done.
Qed.

(** ** The branches of [addPlayer] *)

Lemma matchWaiting_empty stamp r1 r2 P st :
  waitingPlayers st = [] →
  matchWaiting stamp r1 r2 P st = (None, set_waitingPlayers [P] st).
Proof. intros Hq. unfold matchWaiting. by rewrite Hq. Qed.

Lemma matchWaiting_self stamp r1 r2 P rest st :
  waitingPlayers st = P :: rest →
  matchWaiting stamp r1 r2 P st = (None, set_waitingPlayers (rest ++ [P]) st).
Proof. intros Hq. unfold matchWaiting. rewrite Hq. by rewrite decide_True. Qed.

Lemma matchWaiting_pair stamp r1 r2 P W rest st :
  waitingPlayers st = W :: rest → W ≠ P →
  matchWaiting stamp r1 r2 P st =
    (Some (mkJoinResult ("room_" +:+ stamp) Right true (Some W)),
     {| rooms := <["room_" +:+ stamp := newRoom stamp r1 r2 W P]> (rooms st);
        waitingPlayers := rest;
        playerToRoom := <[P := "room_" +:+ stamp]>
                          (<[W := "room_" +:+ stamp]> (playerToRoom st));
        timers := timers st |}).
Proof.
  intros Hq HW. unfold matchWaiting. rewrite Hq. rewrite decide_False by done.
  by rewrite omap_of_list_pair.
Qed.

Lemma addPlayer_unmapped stamp r1 r2 P st :
  truthy (playerToRoom st !! P) = None →
  addPlayer stamp r1 r2 P st = matchWaiting stamp r1 r2 P st.
Proof. intros H. unfold addPlayer. by rewrite H. Qed.

Lemma addPlayer_stale stamp r1 r2 P rid st :
  truthy (playerToRoom st !! P) = Some rid →
  (∀ room, rooms st !! rid = Some room → omap_get P (players room) = None) →
  addPlayer stamp r1 r2 P st = matchWaiting stamp r1 r2 P (purge P st).
Proof.
  intros H Hno. unfold addPlayer. rewrite H.
  destruct (rooms st !! rid) as [room|] eqn:Hr; [|done].
  by rewrite (Hno room).
Qed.

Lemma addPlayer_reconnect stamp r1 r2 P rid room player st :
  truthy (playerToRoom st !! P) = Some rid →
  rooms st !! rid = Some room →
  omap_get P (players room) = Some player →
  addPlayer stamp r1 r2 P st =
    (Some (mkJoinResult rid (side player) false None),
     store_room rid
       (set_slot (side player) (Some P) (update_player (set_connected true) P room))
       st).
Proof. intros H Hr Hp. unfold addPlayer. by rewrite H, Hr, Hp. Qed.

(** ** The branches of [removePlayer] and [movePaddle] *)

Lemma clearRoomInterval_rooms room st :
  rooms (clearRoomInterval room st) = rooms st.
Proof. unfold clearRoomInterval. by destruct (gameLoopIntervalId room). Qed.

Lemma clearRoomInterval_waitingPlayers room st :
  waitingPlayers (clearRoomInterval room st) = waitingPlayers st.
Proof. unfold clearRoomInterval. by destruct (gameLoopIntervalId room). Qed.

Lemma clearRoomInterval_playerToRoom room st :
  playerToRoom (clearRoomInterval room st) = playerToRoom st.
Proof. unfold clearRoomInterval. by destruct (gameLoopIntervalId room). Qed.

Lemma clearRoomInterval_stops room h st :
  gameLoopIntervalId room = Some h → h ∉ timers (clearRoomInterval room st).
Proof.
  unfold clearRoomInterval. intros ->. simpl.
  rewrite elem_of_difference, elem_of_singleton. by intros [_ ?].
Qed.

Lemma removePlayer_queued P i w st :
  list_find (λ w, w = P) (waitingPlayers st) = Some (i, w) →
  removePlayer P st = (None, set_waitingPlayers (delete i (waitingPlayers st)) st).
Proof. intros H. unfold removePlayer. by rewrite H. Qed.

Lemma removePlayer_unmapped P st :
  P ∉ waitingPlayers st → truthy (playerToRoom st !! P) = None →
  removePlayer P st = (None, st).
Proof.
  intros Hq H. unfold removePlayer. by rewrite (not_queued_find _ _ Hq), H.
Qed.

Lemma removePlayer_stale P rid st :
  P ∉ waitingPlayers st → truthy (playerToRoom st !! P) = Some rid →
  (∀ room, rooms st !! rid = Some room → omap_get P (players room) = None) →
  removePlayer P st = (None, purge P st).
Proof.
  intros Hq H Hno. unfold removePlayer. rewrite (not_queued_find _ _ Hq), H.
  destruct (rooms st !! rid) as [room|] eqn:Hr; [|done].
  by rewrite (Hno room).
Qed.

Lemma removePlayer_last P rid room player st :
  P ∉ waitingPlayers st → truthy (playerToRoom st !! P) = Some rid →
  rooms st !! rid = Some room → omap_get P (players room) = Some player →
  remainingPlayers P (disconnect P player room) = [] →
  removePlayer P st =
    (Some (mkRemoveResult rid (side player)),
     purge P (set_rooms (delete rid (rooms st))
                (clearRoomInterval (disconnect P player room) st))).
Proof.
  intros Hq H Hr Hp Hrem. unfold removePlayer.
  rewrite (not_queued_find _ _ Hq), H, Hr, Hp. cbv zeta.
  change (set_slot (side player) None (update_player (set_connected false) P room))
    with (disconnect P player room).
  rewrite Hrem. by rewrite clearRoomInterval_rooms.
Qed.

Lemma removePlayer_forfeit P rid room player other others st :
  P ∉ waitingPlayers st → truthy (playerToRoom st !! P) = Some rid →
  rooms st !! rid = Some room → omap_get P (players room) = Some player →
  remainingPlayers P (disconnect P player room) = other :: others →
  removePlayer P st =
    (Some (mkRemoveResult rid (side player)),
     purge P (clearRoomInterval (forfeit other (disconnect P player room))
                (store_room rid (forfeit other (disconnect P player room)) st))).
Proof.
  intros Hq H Hr Hp Hrem. unfold removePlayer.
  rewrite (not_queued_find _ _ Hq), H, Hr, Hp. cbv zeta.
  change (set_slot (side player) None (update_player (set_connected false) P room))
    with (disconnect P player room).
  by rewrite Hrem.
Qed.

Lemma movePaddle_moves P d rid room player st :
  truthy (playerToRoom st !! P) = Some rid →
  rooms st !! rid = Some room → omap_get P (players room) = Some player →
  connected player = true →
  movePaddle P d st =
    (Some rid,
     store_room rid
       (set_slot (side player) (Some P)
          (update_player (set_paddle_y (movedY d (paddle_y (paddle player)))) P room))
       st).
Proof.
  intros H Hr Hp Hc. unfold movePaddle. rewrite H, Hr, Hp, Hc. simpl.
  by destruct d.
Qed.

(** A call of [movePaddle] either leaves the state as it is or moves one
    paddle. *)
Lemma movePaddle_cases P d st :
  movePaddle P d st = (None, st) ∨
  ∃ rid room player,
    truthy (playerToRoom st !! P) = Some rid ∧ rooms st !! rid = Some room ∧
    omap_get P (players room) = Some player ∧ connected player = true.
Proof.
  unfold movePaddle.
  destruct (truthy (playerToRoom st !! P)) as [rid|] eqn:H; [|by left].
  destruct (rooms st !! rid) as [room|] eqn:Hr; [|by left].
  destruct (omap_get P (players room)) as [player|] eqn:Hp; [|by left].
  destruct (connected player) eqn:Hc; [|by left].
  right. by exists rid, room, player.
Qed.

Lemma movedY_in_range (d : Direction) (y : Q) :
  (0 <= y <= GAME_HEIGHT - PADDLE_HEIGHT)%Q →
  (0 <= movedY d y <= GAME_HEIGHT - PADDLE_HEIGHT)%Q.
Proof.
  unfold GAME_HEIGHT, PADDLE_HEIGHT. intros [Hlo Hhi].
  destruct d; unfold movedY, GAME_HEIGHT, PADDLE_HEIGHT, PADDLE_SPEED.
  - split; [apply Q.le_max_l | apply Q.max_lub; lra].
  - split; [apply Q.min_glb; lra | apply Q.le_min_l].
Qed.

Lemma set_slot_players s v room : players (set_slot s v room) = players room.
Proof. by destruct s. Qed.

Lemma movePaddle_get_player P d rid k p st :
  get_player rid k st = Some p →
  get_player rid k (movePaddle P d st).2 = Some p ∨
  get_player rid k (movePaddle P d st).2 =
    Some (set_paddle_y (movedY d (paddle_y (paddle p))) p).
Proof.
  intros Hg. destruct (movePaddle_cases P d st) as [->|(rid'&room&pl&H&Hr&Hp&Hc)];
    [by left|].
  rewrite (movePaddle_moves _ _ _ _ _ _ H Hr Hp Hc). simpl.
  unfold get_player in *. simpl.
  destruct (decide (rid' = rid)) as [->|Hne].
  - rewrite lookup_insert_eq. simpl. rewrite set_slot_players. simpl.
    rewrite Hr in Hg. simpl in Hg. rewrite omap_get_alter.
    case_decide as Hk.
    + subst k. right. rewrite Hg. simpl. congruence.
    + by left.
  - rewrite lookup_insert_ne by done. by left.
Qed.

(** ** Well-formed rooms *)

Lemma conn_le_refl room : conn_le room room.
Proof. intros P p' ??. by exists p'. Qed.

Lemma conn_le_trans r1 r2 r3 : conn_le r1 r2 → conn_le r2 r3 → conn_le r1 r3.
Proof.
  intros H12 H23 P p' Hp Hc. destruct (H12 P p' Hp Hc) as (p&?&?). by eapply H23.
Qed.

Lemma conn_le_update f k room :
  (∀ p, connected (f p) = true → connected p = true) →
  conn_le (update_player f k room) room.
Proof.
  intros Hf P p'. unfold update_player. simpl. rewrite omap_get_alter.
  case_decide as Hk; [|by eauto].
  destruct (omap_get P (players room)) as [p|]; [|done].
  simpl. intros [= <-] Hc. exists p. eauto.
Qed.

Lemma conn_le_players room' room :
  players room' = players room → conn_le room' room.
Proof. intros Hp P p'. rewrite Hp. eauto. Qed.

Lemma room_ok_update f k room :
  keeps_identity f → room_ok room → room_ok (update_player f k room).
Proof.
  intros Hf (A&B&pA&pB&HAB&Hpl&HiA&HsA&HiB&HsB&Hl&Hr).
  destruct (Hf pA) as (EiA&EsA&EcA), (Hf pB) as (EiB&EsB&EcB).
  unfold update_player. rewrite Hpl.
  destruct (decide (k = A)) as [->|HkA];
    [|destruct (decide (k = B)) as [->|HkB]].
  - rewrite omap_alter_here. exists A, B, (f pA), pB. simpl.
    rewrite EiA, EsA, EcA. by repeat split.
  - rewrite omap_alter_next, omap_alter_here by done.
    exists A, B, pA, (f pB). simpl. rewrite EiB, EsB, EcB. by repeat split.
  - rewrite !omap_alter_next by done. exists A, B, pA, pB. by repeat split.
Qed.

Lemma room_ok_gameState gs room :
  players_left gs = players_left (gameState room) →
  players_right gs = players_right (gameState room) →
  room_ok room → room_ok (set_gameState gs room).
Proof.
  intros Hl Hr (A&B&pA&pB&?&?&?&?&?&?&?&?).
  exists A, B, pA, pB. simpl. rewrite Hl, Hr. by repeat split.
Qed.

Lemma room_ok_interval v room :
  room_ok room → room_ok (set_gameLoopIntervalId v room).
Proof. intros (A&B&pA&pB&?). by exists A, B, pA, pB. Qed.

Lemma room_ok_newRoom stamp r1 r2 W P : W ≠ P → room_ok (newRoom stamp r1 r2 W P).
Proof.
  intros. exists W, P, (createPlayer W Left), (createPlayer P Right).
  by repeat split.
Qed.

(** In a well-formed room the object under a key carries that key as its id,
    and a connected player sits in the slot of its side. *)
Lemma room_ok_player room P p :
  room_ok room → omap_get P (players room) = Some p →
  player_id p = P ∧ (connected p = true → slot (side p) room = Some P) ∧
  (connected p = false → slot (side p) room = None).
Proof.
  intros (A&B&pA&pB&HAB&Hpl&HiA&HsA&HiB&HsB&Hl&Hr). rewrite Hpl. simpl.
  repeat case_decide; intros [= <-]; subst; rewrite ?HsA, ?HsB; simpl;
    rewrite ?Hl, ?Hr; by repeat split; intros ->.
Qed.

(** Setting the slot of a connected player to that player changes nothing. *)
Lemma set_slot_connected room P p :
  room_ok room → omap_get P (players room) = Some p → connected p = true →
  set_slot (side p) (Some P) room = room.
Proof.
  intros Hok Hp Hc. destruct (room_ok_player _ _ _ Hok Hp) as (_&Hs&_).
  specialize (Hs Hc). destruct room as [i [b l r a w] pl t].
  destruct (side p); simpl in *; by subst.
Qed.

(** ** The invariant is kept by every write to the state *)

Lemma inv_initial : inv initial.
Proof.
  split; simpl.
  - lia.
  - intros P HP. by apply elem_of_nil in HP.
  - intros rid room Hr. by rewrite lookup_empty in Hr.
  - intros rid room P p Hr. by rewrite lookup_empty in Hr.
  - intros P rid HP. by rewrite lookup_empty in HP.
Qed.

Lemma inv_set_timers t st : inv st → inv (set_timers t st).
Proof. intros [H1 H2 H3 H4 H5]. by split. Qed.

Lemma inv_clearRoomInterval room st : inv st → inv (clearRoomInterval room st).
Proof.
  intros H. unfold clearRoomInterval.
  destruct (gameLoopIntervalId room); [by apply inv_set_timers | done].
Qed.

Lemma inv_purge P st :
  inv st →
  (∀ rid room p, rooms st !! rid = Some room →
     omap_get P (players room) = Some p → connected p = false) →
  inv (purge P st).
Proof.
  intros [H1 H2 H3 H4 H5] Hnc. split; simpl; try done.
  - intros Q HQ. destruct (decide (P = Q)) as [->|Hne].
    + apply lookup_delete_eq.
    + rewrite lookup_delete_ne by done. by apply H2.
  - intros rid room Q q Hr Hq Hc. destruct (decide (P = Q)) as [->|Hne].
    + rewrite (Hnc _ _ _ Hr Hq) in Hc. done.
    + rewrite lookup_delete_ne by done. by eapply H4.
  - intros Q rid HQ. destruct (decide (P = Q)) as [->|Hne].
    + by rewrite lookup_delete_eq in HQ.
    + rewrite lookup_delete_ne in HQ by done. by eapply H5.
Qed.

Lemma inv_store_room rid room' st :
  inv st → room_ok room' →
  (∀ P p', omap_get P (players room') = Some p' → connected p' = true →
     playerToRoom st !! P = Some rid) →
  inv (store_room rid room' st).
Proof.
  intros [H1 H2 H3 H4 H5] Hok Hmap. split; simpl; try done.
  - intros rid0 room0. destruct (decide (rid = rid0)) as [->|Hne].
    + rewrite lookup_insert_eq. by intros [= <-].
    + rewrite lookup_insert_ne by done. apply H3.
  - intros rid0 room0 P p. destruct (decide (rid = rid0)) as [->|Hne].
    + rewrite lookup_insert_eq. intros [= <-]. apply Hmap.
    + rewrite lookup_insert_ne by done. apply H4.
Qed.

Lemma inv_store_room_le rid room room' st :
  inv st → rooms st !! rid = Some room → room_ok room' → conn_le room' room →
  inv (store_room rid room' st).
Proof.
  intros Hinv Hr Hok Hle. apply inv_store_room; [done..|].
  intros P p' Hp Hc. destruct (Hle P p' Hp Hc) as (p&Hp0&Hc0).
  by eapply (inv_connected st Hinv).
Qed.

Lemma inv_delete_room rid st : inv st → inv (set_rooms (delete rid (rooms st)) st).
Proof.
  intros [H1 H2 H3 H4 H5]. split; simpl; try done.
  - intros rid0 room0 Hr. apply lookup_delete_Some in Hr as [_ Hr]. by eapply H3.
  - intros rid0 room0 P p Hr. apply lookup_delete_Some in Hr as [_ Hr]. by eapply H4.
Qed.

(** A player whose mapping leads nowhere is connected in no room. *)
Lemma stale_not_connected P rid st :
  inv st → playerToRoom st !! P = Some rid →
  (∀ room, rooms st !! rid = Some room → omap_get P (players room) = None) →
  ∀ rid' room p, rooms st !! rid' = Some room →
    omap_get P (players room) = Some p → connected p = false.
Proof.
  intros Hinv Hmap Hno rid' room p Hr Hp.
  destruct (connected p) eqn:Hc; [|done].
  pose proof (inv_connected st Hinv _ _ _ _ Hr Hp Hc) as Hmap'.
  rewrite Hmap in Hmap'. injection Hmap' as ->.
  rewrite (Hno _ Hr) in Hp. done.
Qed.

Lemma unmapped_not_connected P st :
  inv st → playerToRoom st !! P = None →
  ∀ rid' room p, rooms st !! rid' = Some room →
    omap_get P (players room) = Some p → connected p = false.
Proof.
  intros Hinv Hmap rid' room p Hr Hp.
  destruct (connected p) eqn:Hc; [|done].
  pose proof (inv_connected st Hinv _ _ _ _ Hr Hp Hc) as Hmap'. congruence.
Qed.

(** Under the invariant a mapping is never the empty string, so the
    truthiness test of the code is a test for presence. *)
Lemma inv_truthy P st : inv st → truthy (playerToRoom st !! P) = playerToRoom st !! P.
Proof.
  intros Hinv. destruct (playerToRoom st !! P) as [rid|] eqn:Hmap; [|done].
  apply truthy_intro; [done|]. by eapply (inv_ids st Hinv).
Qed.

Lemma inv_matchWaiting stamp r1 r2 P st :
  inv st → playerToRoom st !! P = None → inv (matchWaiting stamp r1 r2 P st).2.
Proof.
  intros Hinv HP. pose proof Hinv as [H1 H2 H3 H4 H5].
  destruct (waitingPlayers st) as [|W rest] eqn:Hq.
  - rewrite matchWaiting_empty by done. split; simpl; try done.
    intros Q HQ. apply list_elem_of_singleton in HQ as ->. done.
  - assert (rest = []) as ->.
    { destruct rest; [done | simpl in H1; lia]. }
    destruct (decide (W = P)) as [->|HWP].
    + erewrite matchWaiting_self by done. by split.
    + erewrite matchWaiting_pair by done.
      assert (HW : playerToRoom st !! W = None).
      { apply H2, list_elem_of_here. }
      split; simpl.
      * lia.
      * intros Q HQ. by apply elem_of_nil in HQ.
      * intros rid room. rewrite lookup_insert. case_decide as Hrid.
        -- intros [= <-]. by apply room_ok_newRoom.
        -- apply H3.
      * intros rid room Q q. rewrite lookup_insert. case_decide as Hrid.
        -- intros [= <-]. simpl. subst rid.
           destruct (decide (Q = P)) as [->|HQP]; [by rewrite lookup_insert_eq|].
           destruct (decide (Q = W)) as [->|HQW].
           ++ by rewrite lookup_insert_ne, lookup_insert_eq by done.
           ++ done.
        -- intros Hr Hq' Hc.
           pose proof (H4 _ _ _ _ Hr Hq' Hc) as Hmap.
           rewrite !lookup_insert_ne; [done|congruence..].
      * intros Q rid. rewrite !lookup_insert.
        repeat case_decide; try (intros [= <-]; apply room_prefix_nonempty).
        apply H5.
Qed.

Lemma inv_addPlayer stamp r1 r2 P st : inv st → inv (addPlayer stamp r1 r2 P st).2.
Proof.
  intros Hinv. unfold addPlayer. rewrite inv_truthy by done.
  destruct (playerToRoom st !! P) as [rid|] eqn:Hmap;
    [|by apply inv_matchWaiting].
  assert (Hstale : (∀ room, rooms st !! rid = Some room →
             omap_get P (players room) = None) →
           inv (matchWaiting stamp r1 r2 P (purge P st)).2).
  { intros Hno. apply inv_matchWaiting; [|apply lookup_delete_eq].
    apply inv_purge; [done|]. by eapply stale_not_connected. }
  destruct (rooms st !! rid) as [room|] eqn:Hr; [|by apply Hstale].
  destruct (omap_get P (players room)) as [p|] eqn:Hp;
    [|apply Hstale; by intros ? [= <-]].
  simpl. pose proof (inv_rooms st Hinv _ _ Hr) as Hok.
  apply inv_store_room; [done|..].
  - destruct Hok as (A&B&pA&pB&HAB&Hpl&HiA&HsA&HiB&HsB&Hl&Hrr).
    rewrite Hpl in Hp. simpl in Hp.
    destruct (decide (P = A)) as [->|HPA];
      [|destruct (decide (P = B)) as [->|HPB]; [|done]]; injection Hp as <-.
    + rewrite HsA. exists A, B, (set_connected true pA), pB. simpl.
      unfold update_player. rewrite Hpl, omap_alter_here. by repeat split.
    + rewrite HsB. exists A, B, pA, (set_connected true pB). simpl.
      unfold update_player. rewrite Hpl, omap_alter_next, omap_alter_here by done.
      by repeat split.
  - intros Q q. rewrite set_slot_players. unfold update_player. simpl.
    rewrite omap_get_alter. case_decide as HPQ; [by subst|].
    intros Hq Hc. by eapply (inv_connected st Hinv).
Qed.

Lemma room_ok_disconnect P p room :
  room_ok room → omap_get P (players room) = Some p →
  room_ok (disconnect P p room).
Proof.
  intros (A&B&pA&pB&HAB&Hpl&HiA&HsA&HiB&HsB&Hl&Hr) Hp.
  rewrite Hpl in Hp. simpl in Hp. unfold disconnect, update_player.
  destruct (decide (P = A)) as [->|HPA];
    [|destruct (decide (P = B)) as [->|HPB]; [|done]]; injection Hp as <-.
  - rewrite HsA, Hpl, omap_alter_here.
    exists A, B, (set_connected false pA), pB. by repeat split.
  - rewrite HsB, Hpl, omap_alter_next, omap_alter_here by done.
    exists A, B, pA, (set_connected false pB). by repeat split.
Qed.

Lemma disconnect_get P p room Q :
  omap_get Q (players (disconnect P p room)) =
  if decide (P = Q) then set_connected false <$> omap_get Q (players room)
  else omap_get Q (players room).
Proof.
  unfold disconnect. rewrite set_slot_players. unfold update_player. simpl.
  apply omap_get_alter.
Qed.

Lemma conn_le_disconnect P p room : conn_le (disconnect P p room) room.
Proof.
  intros Q q. rewrite disconnect_get. case_decide; [|by eauto].
  destruct (omap_get Q (players room)); [|done]. by intros [= <-].
Qed.

Lemma room_ok_forfeit other room : room_ok room → room_ok (forfeit other room).
Proof. intros. by apply room_ok_gameState. Qed.

Lemma inv_removePlayer P st : inv st → inv (removePlayer P st).2.
Proof.
  intros Hinv. unfold removePlayer.
  destruct (list_find _ _) as [[i w]|] eqn:Hfind.
  { pose proof Hinv as [H1 H2 H3 H4 H5]. split; simpl; try done.
    - pose proof (sublist_length _ _ (sublist_delete (waitingPlayers st) i)). lia.
    - intros Q HQ. apply H2. eapply elem_of_sublist; [done|apply sublist_delete]. }
  rewrite inv_truthy by done.
  destruct (playerToRoom st !! P) as [rid|] eqn:Hmap; [|done].
  assert (Hstale : (∀ room, rooms st !! rid = Some room →
             omap_get P (players room) = None) → inv (purge P st)).
  { intros Hno. apply inv_purge; [done|]. by eapply stale_not_connected. }
  destruct (rooms st !! rid) as [room|] eqn:Hr; [|by apply Hstale].
  destruct (omap_get P (players room)) as [p|] eqn:Hp;
    [|apply Hstale; by intros ? [= <-]].
  cbv zeta.
  change (set_slot (side p) None (update_player (set_connected false) P room))
    with (disconnect P p room).
  pose proof (inv_rooms st Hinv _ _ Hr) as Hok.
  assert (Helse : ∀ rid' room' q, rid' ≠ rid → rooms st !! rid' = Some room' →
            omap_get P (players room') = Some q → connected q = false).
  { intros rid' room' q Hne Hr' Hq. destruct (connected q) eqn:Hc; [|done].
    pose proof (inv_connected st Hinv _ _ _ _ Hr' Hq Hc). congruence. }
  destruct (remainingPlayers P (disconnect P p room)) as [|other others]; simpl.
  - apply inv_purge.
    + rewrite clearRoomInterval_rooms.
      replace (set_rooms (delete rid (rooms st)) (clearRoomInterval (disconnect P p room) st))
        with (clearRoomInterval (disconnect P p room) (set_rooms (delete rid (rooms st)) st)).
      * by apply inv_clearRoomInterval, inv_delete_room.
      * unfold clearRoomInterval. by destruct (gameLoopIntervalId _).
    + simpl. rewrite clearRoomInterval_rooms. intros rid' room' q Hr' Hq.
      apply lookup_delete_Some in Hr' as [Hne Hr']. by eapply Helse.
  - apply inv_purge.
    + apply inv_clearRoomInterval. eapply inv_store_room_le; [done..| |].
      * by apply room_ok_forfeit, room_ok_disconnect.
      * apply conn_le_disconnect.
    + rewrite clearRoomInterval_rooms. simpl. intros rid' room' q.
      rewrite lookup_insert. case_decide as Hrid.
      * intros [= <-]. simpl. rewrite disconnect_get, decide_True by done.
        rewrite Hp. by intros [= <-].
      * intros Hr' Hq. eapply Helse; [|done..]. congruence.
Qed.

Lemma inv_movePaddle P d st : inv st → inv (movePaddle P d st).2.
Proof.
  intros Hinv.
  destruct (movePaddle_cases P d st) as [->|(rid&room&p&H&Hr&Hp&Hc)]; [done|].
  rewrite (movePaddle_moves _ _ _ _ _ _ H Hr Hp Hc). simpl.
  pose proof (inv_rooms st Hinv _ _ Hr) as Hok.
  set (f := set_paddle_y (movedY d (paddle_y (paddle p)))).
  assert (Hf : keeps_identity f) by done.
  assert (Hp' : omap_get P (players (update_player f P room)) = Some (f p)).
  { unfold update_player. simpl. by rewrite omap_get_alter_eq, Hp. }
  replace (side p) with (side (f p)) by done.
  rewrite set_slot_connected; [|by apply room_ok_update|done..].
  eapply inv_store_room_le; [done..|by apply room_ok_update|].
  by apply conn_le_update.
Qed.

Lemma evolves_refl room : evolves room room.
Proof. split; [done | apply conn_le_refl]. Qed.

Lemma evolves_trans r1 r2 r3 : evolves r1 r2 → evolves r2 r3 → evolves r1 r3.
Proof.
  intros [Hok12 Hle12] [Hok23 Hle23]. split; [by auto|].
  by eapply conn_le_trans.
Qed.

Lemma evolves_update f k room : keeps_identity f → evolves room (update_player f k room).
Proof.
  intros Hf. split; [by apply room_ok_update|].
  apply conn_le_update. intros p. destruct (Hf p) as (_&_&->). done.
Qed.

Lemma evolves_gameState gs room :
  players_left gs = players_left (gameState room) →
  players_right gs = players_right (gameState room) →
  evolves room (set_gameState gs room).
Proof.
  intros Hl Hr. split; [by apply room_ok_gameState | by apply conn_le_players].
Qed.

Lemma evolves_resetBall r1 r2 r3 room :
  evolves room (set_gameState (resetBall r1 r2 r3 (gameState room)) room).
Proof. by apply evolves_gameState. Qed.

Lemma evolves_scorePoint r1 r2 r3 s room :
  evolves room (scorePoint r1 r2 r3 s room).
Proof.
  unfold scorePoint. destruct (slot_player s room) as [[k p]|]; [|apply evolves_refl].
  cbv zeta.
  set (room1 := update_player (λ p, set_score (score p + 1) p) k room).
  set (room2 := set_gameState (resetBall r1 r2 r3 (gameState room1)) room1).
  assert (H2 : evolves room room2).
  { apply (evolves_trans _ room1); [by apply evolves_update | apply evolves_resetBall]. }
  destruct (omap_get k (players room2)) as [scorer|]; [|done].
  destruct (WIN_SCORE <=? score scorer)%Z; [|done].
  eapply evolves_trans; [done | by apply evolves_gameState].
Qed.

Lemma evolves_stepBall r1 r2 r3 room : evolves room (stepBall r1 r2 r3 room).2.
Proof.
  unfold stepBall. cbv zeta.
  match goal with
  | |- context [set_gameState (set_ball ?b _) room] =>
      set (room1 := set_gameState (set_ball b (gameState room)) room);
      generalize b; intros b0
  end.
  assert (H1 : evolves room room1) by by apply evolves_gameState.
  destruct (Qltb (ball_x b0) 0); simpl.
  { eapply evolves_trans; [done | apply evolves_scorePoint]. }
  destruct (Qltb GAME_WIDTH (ball_x b0)); simpl; [|done].
  eapply evolves_trans; [done | apply evolves_scorePoint].
Qed.

Lemma inv_updateBall r1 r2 r3 rid st : inv st → inv (updateBall r1 r2 r3 rid st).2.
Proof.
  intros Hinv. unfold updateBall.
  destruct (rooms st !! rid) as [room|] eqn:Hr; [|done].
  destruct (gameActive (gameState room)); simpl; [|done].
  pose proof (evolves_stepBall r1 r2 r3 room) as [Hok Hle].
  destruct (stepBall r1 r2 r3 room) as [scored room']. simpl in *.
  eapply inv_store_room_le; [done..| |done].
  apply Hok. by eapply (inv_rooms st Hinv).
Qed.

Lemma inv_startGame r1 r2 r3 rid st : inv st → inv (startGame r1 r2 r3 rid st).2.
Proof.
  intros Hinv. unfold startGame.
  destruct (rooms st !! rid) as [room|] eqn:Hr; [|done].
  destruct (slot_player Left room) as [[l pl]|]; [|done].
  destruct (slot_player Right room) as [[r pr]|]; [|done].
  destruct (negb (connected pl) || negb (connected pr)); [done|]. simpl.
  set (room1 := set_gameState (set_winner None (set_gameActive true (gameState room))) room).
  set (room2 := update_player (set_score 0) l room1).
  set (room3 := update_player (set_score 0) r room2).
  match goal with
  | |- inv (store_room rid ?room' st) => assert (Hev : evolves room room')
  end.
  { apply (evolves_trans _ room3); [|apply evolves_resetBall].
    apply (evolves_trans _ room2); [|by apply evolves_update].
    apply (evolves_trans _ room1); [|by apply evolves_update].
    by apply evolves_gameState. }
  destruct Hev as [Hok Hle].
  eapply inv_store_room_le; [done..| |done].
  apply Hok. by eapply (inv_rooms st Hinv).
Qed.

Lemma inv_clearAllGames st : inv (clearAllGames st).
Proof.
  unfold clearAllGames. split; simpl.
  - lia.
  - intros P HP. by apply elem_of_nil in HP.
  - intros rid room Hr. by rewrite lookup_empty in Hr.
  - intros rid room P p Hr. by rewrite lookup_empty in Hr.
  - intros P rid HP. by rewrite lookup_empty in HP.
Qed.

Lemma inv_startGameLoop h rid st : inv st → inv (startGameLoop h rid st).
Proof.
  intros Hinv. unfold startGameLoop, getRoom.
  destruct (rooms st !! rid) as [room|] eqn:Hr; [|done].
  apply inv_store_room.
  - by apply inv_set_timers, inv_clearRoomInterval.
  - apply room_ok_interval. by eapply (inv_rooms st Hinv).
  - simpl. rewrite clearRoomInterval_playerToRoom. intros P p Hp Hc.
    by eapply (inv_connected st Hinv).
Qed.

Lemma inv_step st st' : step st st' → inv st → inv st'.
Proof.
  destruct 1; intros Hinv;
    eauto using inv_addPlayer, inv_removePlayer, inv_movePaddle, inv_startGame,
      inv_updateBall, inv_clearAllGames, inv_startGameLoop.
Qed.

(** Every state of a manager that started empty satisfies the invariant. *)
Lemma reachable_inv st : reachable st → inv st.
Proof.
  unfold reachable. intros Hr.
  apply (rtc_ind_r (R:=step) inv initial inv_initial); [|done].
  intros y z _ Hs Hy. by eapply inv_step.
Qed.

Lemma newRoom_slots stamp r1 r2 W P :
  W ≠ P →
  slot_player Left (newRoom stamp r1 r2 W P) = Some (W, createPlayer W Left) ∧
  slot_player Right (newRoom stamp r1 r2 W P) = Some (P, createPlayer P Right).
Proof.
  intros. unfold slot_player, newRoom, slot. cbn -[omap_get createPlayer].
  by rewrite omap_get_here, omap_get_next, omap_get_here.
Qed.

(** ** The worked scenario *)

Lemma demo_running_reachable : reachable demo_running.
Proof.
  unfold reachable, demo_running, demo_started, demo_paired, demo_queued.
  eapply rtc_r; [|by apply step_startGameLoop].
  eapply rtc_r; [|apply step_startGame].
  eapply rtc_r; [|apply step_addPlayer].
  eapply rtc_r; [|apply step_addPlayer].
  apply rtc_refl.
Qed.

Lemma demo_running_inv : inv demo_running.
Proof. apply reachable_inv, demo_running_reachable. Qed.

Lemma demo_running_room : rooms demo_running !! "room_2_b" = Some demo_room.
Proof. by vm_compute. Qed.

(** ** Matchmaking *)

(** C1. Two distinct ids A then B join a manager whose queue is empty and
    that maps neither id: the first call creates no room and queues A; the
    second stores exactly one room, in which A holds the left slot and B the
    right slot, and maps both ids to that room.  The player stored for A has
    id A, side left, is connected and has no point, and likewise for B on the
    right; [getPlayerSide] and [getRoomByPlayer] answer accordingly. *)
Theorem C1_two_joins_one_session stamp1 r1 r2 stamp2 r3 r4 A B st :
  A ≠ B → waitingPlayers st = [] →
  playerToRoom st !! A = None → playerToRoom st !! B = None →
  let j1 := addPlayer stamp1 r1 r2 A st in
  let j2 := addPlayer stamp2 r3 r4 B j1.2 in
  let rid := "room_" +:+ stamp2 in
  ∃ room pA pB,
    j1.1 = None ∧ rooms j1.2 = rooms st ∧ waitingPlayers j1.2 = [A] ∧
    j2.1 = Some (mkJoinResult rid Right true (Some A)) ∧
    rooms j2.2 = <[rid := room]> (rooms st) ∧
    (rooms st !! rid = None → size (rooms j2.2) = S (size (rooms st))) ∧
    players room = [(A, pA); (B, pB)] ∧
    pA = createPlayer A Left ∧ pB = createPlayer B Right ∧
    slot_player Left room = Some (A, pA) ∧
    slot_player Right room = Some (B, pB) ∧
    player_id pA = A ∧ side pA = Left ∧ connected pA = true ∧ score pA = 0%Z ∧
    player_id pB = B ∧ side pB = Right ∧ connected pB = true ∧ score pB = 0%Z ∧
    (paddle_x (paddle pA) == 20)%Q ∧ (paddle_x (paddle pB) == 760)%Q ∧
    (paddle_y (paddle pA) == 160)%Q ∧ (paddle_y (paddle pB) == 160)%Q ∧
    gameActive (gameState room) = false ∧ winner (gameState room) = None ∧
    getPlayerSide A j2.2 = Some Left ∧ getPlayerSide B j2.2 = Some Right ∧
    getRoomByPlayer A j2.2 = Some room ∧ getRoomByPlayer B j2.2 = Some room ∧
    playerToRoom j2.2 !! A = Some rid ∧ playerToRoom j2.2 !! B = Some rid ∧
    waitingPlayers j2.2 = [].
Proof.
  intros HAB Hq HA HB j1 j2 rid.
  assert (Hj1 : j1 = (None, set_waitingPlayers [A] st)).
  { unfold j1. rewrite addPlayer_unmapped by (by rewrite HA).
    by apply matchWaiting_empty. }
  assert (Hj2 : j2 = (Some (mkJoinResult rid Right true (Some A)),
     {| rooms := <[rid := newRoom stamp2 r3 r4 A B]> (rooms st);
        waitingPlayers := [];
        playerToRoom := <[B := rid]> (<[A := rid]> (playerToRoom st));
        timers := timers st |})).
  { unfold j2. rewrite Hj1. simpl.
    rewrite addPlayer_unmapped by (simpl; by rewrite HB).
    by erewrite matchWaiting_pair. }
  exists (newRoom stamp2 r3 r4 A B), (createPlayer A Left), (createPlayer B Right).
  rewrite Hj1, Hj2.
  destruct (newRoom_slots stamp2 r3 r4 A B HAB) as [Hl Hr].
  assert (Hrid : rid ≠ "") by apply room_prefix_nonempty.
  unfold getPlayerSide, getRoomByPlayer.
  cbn [fst snd rooms waitingPlayers playerToRoom set_waitingPlayers].
  rewrite lookup_insert_ne, !lookup_insert_eq by done.
  cbn [truthy]. rewrite decide_False by done. rewrite lookup_insert_eq.
  assert (HgA : omap_get A (players (newRoom stamp2 r3 r4 A B))
                = Some (createPlayer A Left)) by apply omap_get_here.
  assert (HgB : omap_get B (players (newRoom stamp2 r3 r4 A B))
                = Some (createPlayer B Right)).
  { simpl. by rewrite decide_False, decide_True. }
  rewrite HgA, HgB.
  split_and!; try done; try (by vm_compute).
  intros Hfresh. by apply map_size_insert_None.
Qed.

Lemma C1_two_joins_one_session_witness :
  "A" ≠ "B" ∧ waitingPlayers initial = [] ∧
  playerToRoom initial !! "A" = None ∧ playerToRoom initial !! "B" = None ∧
  ∃ room pA pB,
    (addPlayer "1_a" 0.3 0.7 "A" initial).1 = None ∧
    rooms demo_queued = rooms initial ∧ waitingPlayers demo_queued = ["A"] ∧
    (addPlayer "2_b" 0.3 0.7 "B" demo_queued).1 =
      Some (mkJoinResult "room_2_b" Right true (Some "A")) ∧
    rooms demo_paired = <["room_2_b" := room]> (rooms initial) ∧
    (rooms initial !! "room_2_b" = None →
       size (rooms demo_paired) = S (size (rooms initial))) ∧
    players room = [("A", pA); ("B", pB)] ∧
    pA = createPlayer "A" Left ∧ pB = createPlayer "B" Right ∧
    slot_player Left room = Some ("A", pA) ∧
    slot_player Right room = Some ("B", pB) ∧
    player_id pA = "A" ∧ side pA = Left ∧ connected pA = true ∧ score pA = 0%Z ∧
    player_id pB = "B" ∧ side pB = Right ∧ connected pB = true ∧ score pB = 0%Z ∧
    (paddle_x (paddle pA) == 20)%Q ∧ (paddle_x (paddle pB) == 760)%Q ∧
    (paddle_y (paddle pA) == 160)%Q ∧ (paddle_y (paddle pB) == 160)%Q ∧
    gameActive (gameState room) = false ∧ winner (gameState room) = None ∧
    getPlayerSide "A" demo_paired = Some Left ∧
    getPlayerSide "B" demo_paired = Some Right ∧
    getRoomByPlayer "A" demo_paired = Some room ∧
    getRoomByPlayer "B" demo_paired = Some room ∧
    playerToRoom demo_paired !! "A" = Some "room_2_b" ∧
    playerToRoom demo_paired !! "B" = Some "room_2_b" ∧
    waitingPlayers demo_paired = [].
Proof.
  repeat (split; [done|]).
  exact (C1_two_joins_one_session "1_a" 0.3 0.7 "2_b" 0.3 0.7 "A" "B" initial
           ltac:(done) eq_refl eq_refl eq_refl).
Defined.

(** C8. When the head of the queue is the requesting id itself (and the id is
    not reconnecting to a session), [addPlayer] creates no session, puts the
    id back at the end of the queue and answers "queued" ([null]).  Whenever
    [addPlayer] does create a session, its two slots hold different ids. *)
Theorem C8_no_self_pairing stamp r1 r2 P rest st :
  waitingPlayers st = P :: rest →
  ¬ assigned P st →
  let res := addPlayer stamp r1 r2 P st in
  res.1 = None ∧
  rooms res.2 = rooms st ∧
  waitingPlayers res.2 = rest ++ [P] ∧
  (∀ stamp' r1' r2' P' st' jr,
     (addPlayer stamp' r1' r2' P' st').1 = Some jr → isNewGame jr = true →
     ∃ room W pl pr,
       rooms (addPlayer stamp' r1' r2' P' st').2 !! roomId jr = Some room ∧
       slot_player Left room = Some (W, pl) ∧
       slot_player Right room = Some (P', pr) ∧
       player_id pl = W ∧ player_id pr = P' ∧ W ≠ P').
Proof.
  intros Hq Hna res.
  assert (Hres : res = (None, set_waitingPlayers (rest ++ [P]) st) ∨
                 res = (None, set_waitingPlayers (rest ++ [P]) (purge P st))).
  { unfold res, addPlayer.
    destruct (truthy (playerToRoom st !! P)) as [rid|] eqn:Hmap;
      [|left; by apply matchWaiting_self].
    apply truthy_Some in Hmap as [Hmap Hne].
    destruct (rooms st !! rid) as [room|] eqn:Hr;
      [|right; by apply matchWaiting_self].
    destruct (omap_get P (players room)) as [p|] eqn:Hp;
      [|right; by apply matchWaiting_self].
    destruct Hna. exists rid, room. unfold in_room. rewrite Hp. eauto. }
  split; [by destruct Hres as [-> | ->]|].
  split; [by destruct Hres as [-> | ->]|].
  split; [by destruct Hres as [-> | ->]|].
  clear. intros stamp r1 r2 P st jr. unfold addPlayer.
  assert (Hmw : ∀ st, (matchWaiting stamp r1 r2 P st).1 = Some jr →
    ∃ room W pl pr,
      rooms (matchWaiting stamp r1 r2 P st).2 !! roomId jr = Some room ∧
      slot_player Left room = Some (W, pl) ∧ slot_player Right room = Some (P, pr) ∧
      player_id pl = W ∧ player_id pr = P ∧ W ≠ P).
  { clear st. intros st. destruct (waitingPlayers st) as [|W rest] eqn:Hq.
    - by rewrite matchWaiting_empty.
    - destruct (decide (W = P)) as [->|HWP].
      + by erewrite matchWaiting_self.
      + erewrite matchWaiting_pair by done. simpl. intros [= <-]. simpl.
        rewrite lookup_insert_eq.
        destruct (newRoom_slots stamp r1 r2 W P HWP) as [Hl Hr].
        by exists (newRoom stamp r1 r2 W P), W, (createPlayer W Left),
          (createPlayer P Right). }
  destruct (truthy (playerToRoom st !! P)) as [rid|]; [|by auto].
  destruct (rooms st !! rid) as [room|]; [|by auto].
  destruct (omap_get P (players room)) as [p|]; [|by auto].
  simpl. by intros [= <-].
Qed.

Lemma C8_no_self_pairing_witness :
  waitingPlayers demo_queued = "A" :: [] ∧ ¬ assigned "A" demo_queued ∧
  (addPlayer "9_z" 0.3 0.7 "A" demo_queued).1 = None ∧
  rooms (addPlayer "9_z" 0.3 0.7 "A" demo_queued).2 = rooms demo_queued ∧
  waitingPlayers (addPlayer "9_z" 0.3 0.7 "A" demo_queued).2 = [] ++ ["A"].
Proof.
  assert (Hna : ¬ assigned "A" demo_queued).
  { intros (rid&room&Hmap&_). by vm_compute in Hmap. }
  split; [done|]. split; [done|].
  destruct (C8_no_self_pairing "9_z" 0.3 0.7 "A" [] demo_queued eq_refl Hna)
    as (H1&H2&H3&_).
  by repeat split.
Defined.

(** ** Paddle moves *)

(** C7. A paddle whose y is in [0, 320] stays in [0, 400-80] = [0, 320]
    through any finite sequence of move intents, whoever sends them and in
    whatever directions, repeated calls at a boundary included. *)
Theorem C7_paddle_stays_in_field intents rid k p st :
  get_player rid k st = Some p →
  (0 <= paddle_y (paddle p) <= 320)%Q →
  ∃ p', get_player rid k (movePaddles intents st) = Some p' ∧
        (0 <= paddle_y (paddle p') <= 320)%Q ∧
        (GAME_HEIGHT - PADDLE_HEIGHT == 320)%Q.
Proof.
  intros Hg Hy. revert st p Hg Hy.
  induction intents as [|[P d] intents IH]; intros st p Hg Hy.
  - exists p. split; [done|]. split; [done|]. reflexivity.
  - unfold movePaddles. simpl. apply IH with
      (p := default p (get_player rid k (movePaddle P d st).2)).
    + destruct (movePaddle_get_player P d rid k p st Hg) as [-> | ->]; done.
    + destruct (movePaddle_get_player P d rid k p st Hg) as [-> | ->]; [done|].
      simpl. pose proof (movedY_in_range d (paddle_y (paddle p))) as H.
      unfold GAME_HEIGHT, PADDLE_HEIGHT in H. apply H. lra.
Qed.

Lemma C7_paddle_stays_in_field_witness :
  get_player "room_2_b" "A" demo_running = Some demo_playerA ∧
  (0 <= paddle_y (paddle demo_playerA) <= 320)%Q ∧
  ∃ p', get_player "room_2_b" "A"
          (movePaddles (replicate 25 ("A", Up) ++ [("B", Down); ("A", Up)])
             demo_running) = Some p' ∧
        (0 <= paddle_y (paddle p') <= 320)%Q ∧
        (GAME_HEIGHT - PADDLE_HEIGHT == 320)%Q.
Proof.
  assert (Hy : (0 <= paddle_y (paddle demo_playerA) <= 320)%Q).
  { split; by vm_compute. }
  split; [by vm_compute|]. split; [exact Hy|].
  apply (C7_paddle_stays_in_field _ "room_2_b" "A" demo_playerA demo_running);
    [by vm_compute | done].
Defined.

Lemma movedY_step (d : Direction) (y : Q) :
  match d with
  | Up => (8 <= y → movedY d y == y - 8)%Q ∧ (y <= 8 → movedY d y == 0)%Q
  | Down => (y <= 312 → movedY d y == y + 8)%Q ∧ (312 <= y → movedY d y == 320)%Q
  end.
Proof.
  destruct d; unfold movedY, GAME_HEIGHT, PADDLE_HEIGHT, PADDLE_SPEED.
  - split; intros Hy.
    + rewrite Q.max_r; lra.
    + rewrite Q.max_l; lra.
  - split; intros Hy.
    + rewrite Q.min_r; lra.
    + rewrite Q.min_l; lra.
Qed.

(** C10. [movePaddle] for a connected player of a session returns the room
    id and writes nothing but that player's paddle y, which moves by exactly
    the paddle speed 8 unless the field boundary clamps it: the y of the
    stored player is 8 less after [Up] (0 if it was at most 8) and 8 more
    after [Down] (320 if it was at least 312), while its id, side, score,
    connection flag and paddle x are as before; the ball, both scores, the
    active flag, the winner, the slots, the opponent's paddle, the queue, the
    mappings and the timers are unchanged.  The manager is any one that
    satisfies [inv], as every reachable one does ([reachable_inv]). *)
Theorem C10_movePaddle_frame P d rid room p st :
  inv st →
  rooms st !! rid = Some room →
  omap_get P (players room) = Some p →
  connected p = true →
  let y := paddle_y (paddle p) in
  let res := movePaddle P d st in
  ∃ room' p',
    res.1 = Some rid ∧
    rooms res.2 = <[rid := room']> (rooms st) ∧
    waitingPlayers res.2 = waitingPlayers st ∧
    playerToRoom res.2 = playerToRoom st ∧
    timers res.2 = timers st ∧
    gameState room' = gameState room ∧
    room_id room' = room_id room ∧
    gameLoopIntervalId room' = gameLoopIntervalId room ∧
    omap_get P (players room') = Some p' ∧
    p' = set_paddle_y (movedY d y) p ∧
    player_id p' = player_id p ∧ side p' = side p ∧ score p' = score p ∧
    connected p' = connected p ∧
    paddle_x (paddle p') = paddle_x (paddle p) ∧
    match d with
    | Up => (8 <= y → paddle_y (paddle p') == y - 8)%Q ∧
            (y <= 8 → paddle_y (paddle p') == 0)%Q
    | Down => (y <= 312 → paddle_y (paddle p') == y + 8)%Q ∧
              (312 <= y → paddle_y (paddle p') == 320)%Q
    end ∧
    (∀ Q, Q ≠ P → omap_get Q (players room') = omap_get Q (players room)) ∧
    (players room').*1 = (players room).*1 ∧
    match d with
    | Up => (8 <= y → movedY d y == y - 8)%Q ∧ (y <= 8 → movedY d y == 0)%Q
    | Down => (y <= 312 → movedY d y == y + 8)%Q ∧ (312 <= y → movedY d y == 320)%Q
    end.
Proof.
  intros Hinv Hr Hp Hc y res.
  pose proof (inv_connected st Hinv _ _ _ _ Hr Hp Hc) as Hmap.
  assert (Ht : truthy (playerToRoom st !! P) = Some rid).
  { by rewrite inv_truthy. }
  assert (Hres : res = (Some rid,
             store_room rid (update_player (set_paddle_y (movedY d y)) P room) st)).
  { unfold res. rewrite (movePaddle_moves _ _ _ _ _ _ Ht Hr Hp Hc).
    do 2 f_equal.
    set (f := set_paddle_y (movedY d (paddle_y (paddle p)))).
    replace (side p) with (side (f p)) by done.
    apply set_slot_connected; [|by unfold update_player; simpl;
                                    rewrite omap_get_alter_eq, Hp|done].
    apply room_ok_update; [done|]. by eapply (inv_rooms st Hinv). }
  exists (update_player (set_paddle_y (movedY d y)) P room),
         (set_paddle_y (movedY d y) p).
  rewrite Hres.
  cbn [fst snd store_room set_rooms rooms waitingPlayers playerToRoom timers
       update_player set_players gameState room_id gameLoopIntervalId players].
  rewrite omap_get_alter_eq, Hp, omap_alter_keys.
  pose proof (movedY_step d y) as Hstep.
  split_and!; try done.
  intros Q HQ. by apply omap_get_alter_ne.
Qed.

Lemma C10_movePaddle_frame_witness :
  inv demo_running ∧
  rooms demo_running !! "room_2_b" = Some demo_room ∧
  omap_get "A" (players demo_room) = Some demo_playerA ∧
  connected demo_playerA = true ∧
  ∃ room' p',
    (movePaddle "A" Up demo_running).1 = Some "room_2_b" ∧
    rooms (movePaddle "A" Up demo_running).2 =
      <["room_2_b" := room']> (rooms demo_running) ∧
    waitingPlayers (movePaddle "A" Up demo_running).2 = waitingPlayers demo_running ∧
    playerToRoom (movePaddle "A" Up demo_running).2 = playerToRoom demo_running ∧
    timers (movePaddle "A" Up demo_running).2 = timers demo_running ∧
    gameState room' = gameState demo_room ∧
    omap_get "A" (players room') = Some p' ∧
    p' = set_paddle_y (movedY Up (paddle_y (paddle demo_playerA))) demo_playerA ∧
    player_id p' = "A" ∧ side p' = Left ∧ score p' = 0%Z ∧ connected p' = true ∧
    (paddle_y (paddle demo_playerA) == 160)%Q ∧
    (paddle_y (paddle p') == 152)%Q ∧
    omap_get "B" (players room') = Some demo_playerB ∧
    (movedY Up (paddle_y (paddle demo_playerA)) == 160 - 8)%Q.
Proof.
  split; [apply demo_running_inv|]. split; [apply demo_running_room|].
  split; [done|]. split; [done|].
  destruct (C10_movePaddle_frame "A" Up "room_2_b" demo_room demo_playerA demo_running
              demo_running_inv demo_running_room eq_refl eq_refl)
    as (room'&p'&H1&H2&H3&H4&H5&H6&H7&H8&H9&H10&H11&H12&H13&H14&H15&H16&H17&H18&H19).
  exists room', p'.
  split; [exact H1|]. split; [exact H2|]. split; [exact H3|]. split; [exact H4|].
  split; [exact H5|]. split; [exact H6|]. split; [exact H9|]. split; [exact H10|].
  split; [by rewrite H11|]. split; [by rewrite H12|]. split; [by rewrite H13|].
  split; [by rewrite H14|]. split; [by vm_compute|].
  split; [rewrite (proj1 H16); [by vm_compute | by vm_compute]|].
  split; [by rewrite H17|]. by vm_compute.
Defined.

(** ** Stale mappings *)

(** C9, as stated, fails for [movePaddle]: it answers [null] but leaves the
    stale mapping where it is. *)
Lemma C9_movePaddle_keeps_stale_mapping :
  playerToRoom demo_stale !! "P" = Some "room_gone" ∧
  rooms demo_stale !! "room_gone" = None ∧
  (movePaddle "P" Up demo_stale).1 = None ∧
  playerToRoom (movePaddle "P" Up demo_stale).2 !! "P" = Some "room_gone".
Proof. by vm_compute. Qed.

(** C9, amended.  When the mapping of a player leads to a session id that
    the registry does not hold: [addPlayer] purges the mapping and goes on
    exactly as for a player that is in no session (it queues or pairs the
    player); [removePlayer], for a player that is not in the queue, purges
    the mapping, answers [null] and writes nothing else; [movePaddle]
    answers [null] and writes neither the registry, nor the queue, nor the
    timers, nor the mapping of any other player. *)
Theorem C9_stale_mapping stamp r1 r2 d P rid st :
  playerToRoom st !! P = Some rid → rid ≠ "" → rooms st !! rid = None →
  playerToRoom (purge P st) !! P = None ∧
  addPlayer stamp r1 r2 P st = addPlayer stamp r1 r2 P (purge P st) ∧
  addPlayer stamp r1 r2 P st = matchWaiting stamp r1 r2 P (purge P st) ∧
  (P ∉ waitingPlayers st → removePlayer P st = (None, purge P st)) ∧
  (movePaddle P d st).1 = None ∧
  rooms (movePaddle P d st).2 = rooms st ∧
  waitingPlayers (movePaddle P d st).2 = waitingPlayers st ∧
  timers (movePaddle P d st).2 = timers st ∧
  (∀ Q, Q ≠ P → playerToRoom (movePaddle P d st).2 !! Q = playerToRoom st !! Q).
Proof.
  intros Hmap Hne Hr.
  assert (Ht : truthy (playerToRoom st !! P) = Some rid) by by apply truthy_intro.
  assert (Hno : ∀ room, rooms st !! rid = Some room →
                        omap_get P (players room) = None) by (intros; congruence).
  assert (Hp : playerToRoom (purge P st) !! P = None) by apply lookup_delete_eq.
  rewrite (addPlayer_stale _ _ _ _ _ _ Ht Hno).
  rewrite addPlayer_unmapped by (by rewrite Hp).
  assert (Hmove : movePaddle P d st = (None, st)).
  { unfold movePaddle. by rewrite Ht, Hr. }
  rewrite Hmove. split_and!; try done.
  intros Hq. by eapply removePlayer_stale.
Qed.

Lemma C9_stale_mapping_witness :
  playerToRoom demo_stale !! "P" = Some "room_gone" ∧ "room_gone" ≠ "" ∧
  rooms demo_stale !! "room_gone" = None ∧
  playerToRoom (purge "P" demo_stale) !! "P" = None ∧
  addPlayer "3_c" 0.3 0.7 "P" demo_stale =
    matchWaiting "3_c" 0.3 0.7 "P" (purge "P" demo_stale) ∧
  removePlayer "P" demo_stale = (None, purge "P" demo_stale) ∧
  (movePaddle "P" Up demo_stale).1 = None ∧
  rooms (movePaddle "P" Up demo_stale).2 = rooms demo_stale.
Proof.
  split; [done|]. split; [done|]. split; [done|].
  destruct (C9_stale_mapping "3_c" 0.3 0.7 Up "P" "room_gone" demo_stale
              eq_refl ltac:(done) eq_refl) as (H1&_&H3&H4&H5&H6&_).
  split; [exact H1|]. split; [exact H3|]. split; [|split; [exact H5|exact H6]].
  apply H4. apply not_elem_of_nil.
Defined.

(** ** Joins are idempotent *)

Lemma elem_of_sessions_of P rid st :
  rid ∈ sessions_of P st ↔ ∃ room, rooms st !! rid = Some room ∧ in_room P room.
Proof.
  unfold sessions_of. rewrite elem_of_dom. split.
  - intros [room Hr]. apply map_lookup_filter_Some in Hr as [Hr Hin]. by exists room.
  - intros (room&Hr&Hin). exists room. by apply map_lookup_filter_Some.
Qed.

Lemma assigned_dec P st : assigned P st ∨ ¬ assigned P st.
Proof.
  unfold assigned, in_room.
  destruct (playerToRoom st !! P) as [rid|] eqn:Hmap;
    [|right; by intros (?&?&?&?)].
  destruct (decide (rid = "")) as [->|Hne];
    [right; by intros (?&?&[= <-]&?&?)|].
  destruct (rooms st !! rid) as [room|] eqn:Hr;
    [|right; intros (?&?&[= <-]&?&?&?); congruence].
  destruct (omap_get P (players room)) as [p|] eqn:Hp.
  - left. exists rid, room. rewrite Hp. eauto.
  - right. intros (?&?&[= <-]&?&?&[? ?]). congruence.
Qed.

(** C4. A join from an id that is already in the waiting queue, or already
    assigned to a session, leaves the queue as it is (so adds no duplicate
    entry) and creates no session: the registry keeps the same session ids,
    and the sessions that hold the id are the same as before.  The manager is
    any one that satisfies [inv], as every reachable one does
    ([reachable_inv]). *)
Theorem C4_join_idempotent stamp r1 r2 P st :
  inv st →
  P ∈ waitingPlayers st ∨ assigned P st →
  let res := addPlayer stamp r1 r2 P st in
  waitingPlayers res.2 = waitingPlayers st ∧
  NoDup (waitingPlayers res.2) ∧
  dom (rooms res.2) = dom (rooms st) ∧
  sessions_of P res.2 = sessions_of P st ∧
  (∀ jr, res.1 = Some jr → isNewGame jr = false).
Proof.
  intros Hinv Hcase res.
  assert (Hnd : NoDup (waitingPlayers st)).
  { pose proof (inv_queue st Hinv) as Hlen.
    destruct (waitingPlayers st) as [|w [|w' q]]; simpl in Hlen;
      [constructor | | lia].
    apply NoDup_singleton. }
  assert (Hass : assigned P st → ∃ rid room p,
            truthy (playerToRoom st !! P) = Some rid ∧
            rooms st !! rid = Some room ∧ omap_get P (players room) = Some p).
  { intros (rid&room&Hmap&Hne&Hr&[p Hp]). exists rid, room, p.
    by rewrite truthy_intro with (s := rid). }
  assert (Hqueued : ¬ assigned P st → P ∈ waitingPlayers st →
            res = (None, st) ∧ waitingPlayers st = [P]).
  { intros Hna HP.
    pose proof (inv_queued st Hinv P HP) as Hmap.
    pose proof (inv_queue st Hinv) as Hlen.
    destruct (waitingPlayers st) as [|w [|w' q]] eqn:Hq; simpl in Hlen;
      [by apply elem_of_nil in HP | | lia].
    apply list_elem_of_singleton in HP as ->.
    unfold res. rewrite addPlayer_unmapped by (by rewrite Hmap).
    erewrite matchWaiting_self by done. simpl. split; [|done].
    f_equal. destruct st; simpl in *. by subst. }
  destruct (assigned_dec P st) as [Ha|Hna].
  - destruct (Hass Ha) as (rid&room&p&Ht&Hr&Hp).
    unfold res. rewrite (addPlayer_reconnect _ _ _ _ _ _ _ _ Ht Hr Hp).
    cbn [fst snd store_room set_rooms rooms waitingPlayers].
    split; [done|]. split; [done|]. split; [|split].
    + rewrite dom_insert_L. apply elem_of_dom_2 in Hr.
      apply set_eq. intros x. rewrite elem_of_union, elem_of_singleton.
      split; [intros [->|?]; done | by right].
    + apply set_eq. intros rid'. rewrite !elem_of_sessions_of. simpl.
      destruct (decide (rid = rid')) as [<-|Hne].
      * rewrite lookup_insert_eq. split.
        -- intros _. exists room. split; [done|]. unfold in_room. by rewrite Hp.
        -- intros _. eexists. split; [done|]. unfold in_room.
           rewrite set_slot_players. unfold update_player. simpl.
           rewrite omap_get_alter_eq, Hp. by eexists.
      * by rewrite lookup_insert_ne.
    + by intros jr [= <-].
  - destruct Hcase as [HP|Ha]; [|done].
    destruct (Hqueued Hna HP) as [Hres Hq]. rewrite Hres. simpl.
    repeat split; try done.
Qed.

Lemma demo_queued_inv : inv demo_queued.
Proof. apply inv_addPlayer, inv_initial. Qed.

Lemma C4_join_idempotent_witness :
  inv demo_queued ∧
  ("A" ∈ waitingPlayers demo_queued ∨ assigned "A" demo_queued) ∧
  waitingPlayers (addPlayer "9_z" 0.3 0.7 "A" demo_queued).2 =
    waitingPlayers demo_queued ∧
  NoDup (waitingPlayers (addPlayer "9_z" 0.3 0.7 "A" demo_queued).2) ∧
  dom (rooms (addPlayer "9_z" 0.3 0.7 "A" demo_queued).2) = dom (rooms demo_queued) ∧
  sessions_of "A" (addPlayer "9_z" 0.3 0.7 "A" demo_queued).2 =
    sessions_of "A" demo_queued ∧
  (∀ jr, (addPlayer "9_z" 0.3 0.7 "A" demo_queued).1 = Some jr →
         isNewGame jr = false).
Proof.
  assert (Hq : "A" ∈ waitingPlayers demo_queued ∨ assigned "A" demo_queued).
  { left. apply list_elem_of_here. }
  split; [apply demo_queued_inv|]. split; [exact Hq|].
  exact (C4_join_idempotent "9_z" 0.3 0.7 "A" demo_queued demo_queued_inv Hq).
Defined.

(** ** Disconnection and forfeit *)

Lemma in_session_lookup P p rid room st :
  inv st → rooms st !! rid = Some room →
  omap_get P (players room) = Some p → connected p = true →
  (P ∉ waitingPlayers st) ∧ truthy (playerToRoom st !! P) = Some rid.
Proof.
  intros Hinv Hr Hp Hc.
  pose proof (inv_connected st Hinv _ _ _ _ Hr Hp Hc) as Hmap. split.
  - intros Hq. pose proof (inv_queued st Hinv _ Hq). congruence.
  - by rewrite inv_truthy.
Qed.

Lemma slot_player_Some s room k p :
  slot_player s room = Some (k, p) →
  slot s room = Some k ∧ omap_get k (players room) = Some p.
Proof.
  unfold slot_player. destruct (slot s room) as [k'|]; [|done]. simpl.
  destruct (omap_get k' (players room)) as [p'|] eqn:Hp; [|done]. simpl.
  intros [= <- <-]. done.
Qed.

Lemma disconnect_players P p room :
  players (disconnect P p room) = omap_alter (set_connected false) P (players room).
Proof. unfold disconnect. by rewrite set_slot_players. Qed.

Lemma seated_facts room X pX O pO :
  room_ok room → seated room X pX O pO →
  X ≠ O ∧
  omap_get X (players room) = Some pX ∧ omap_get O (players room) = Some pO ∧
  player_id pX = X ∧ player_id pO = O ∧
  connected pX = true ∧ connected pO = true ∧
  remainingPlayers X (disconnect X pX room) = [pO] ∧
  remainingPlayers O (disconnect O pO (forfeit pO (disconnect X pX room))) = [].
Proof.
  intros (A&B&pA&pB&HAB&Hpl&HiA&HsA&HiB&HsB&Hl&Hr) Hseat.
  assert (HsL : slot_player Left room = if connected pA then Some (A, pA) else None).
  { unfold slot_player. simpl. rewrite Hl, Hpl.
    destruct (connected pA); [|done]. simpl. by rewrite decide_True. }
  assert (HsR : slot_player Right room = if connected pB then Some (B, pB) else None).
  { unfold slot_player. simpl. rewrite Hr, Hpl.
    destruct (connected pB); [|done]. simpl.
    by rewrite decide_False, decide_True by done. }
  assert (Hboth : slot_player Left room = Some (A, pA) ∧
                  slot_player Right room = Some (B, pB) ∧
                  connected pA = true ∧ connected pB = true).
  { destruct Hseat as [[H1 H2]|[H1 H2]]; rewrite HsL in H1; rewrite HsR in H2;
      destruct (connected pA), (connected pB); try done;
      by rewrite HsL, HsR. }
  destruct Hboth as (HL&HR&HcA&HcB).
  assert (Hrem : ∀ room0 P (pa pb : Player),
            players room0 = [(A, pa); (B, pb)] →
            player_id pa = A → player_id pb = B →
            remainingPlayers P room0 =
              (if decide (A ≠ P ∧ connected pa = true) then [pa] else []) ++
              (if decide (B ≠ P ∧ connected pb = true) then [pb] else [])).
  { intros room0 P pa pb Hp0 Ha Hb. unfold remainingPlayers, omap_values.
    rewrite Hp0. simpl. rewrite !filter_cons, filter_nil. rewrite Ha, Hb.
    by repeat case_decide. }
  destruct Hseat as [[H1 H2]|[H1 H2]]; rewrite HL in H1; rewrite HR in H2;
    injection H1 as <- <-; injection H2 as <- <-.
  - repeat split; try done.
    + by rewrite Hpl, omap_get_here.
    + by rewrite Hpl, omap_get_next, omap_get_here.
    + erewrite Hrem;
        [|by rewrite disconnect_players, Hpl, omap_alter_here|done..].
      simpl. rewrite decide_False by (by intros [? _]).
      by rewrite decide_True.
    + erewrite Hrem;
        [|by rewrite disconnect_players; simpl; rewrite disconnect_players, Hpl,
             omap_alter_here, omap_alter_next, omap_alter_here|done..].
      simpl. rewrite decide_False by (by intros [_ ?]).
      by rewrite decide_False by (by intros [? _]).
  - repeat split; try done.
    + by rewrite Hpl, omap_get_next, omap_get_here.
    + by rewrite Hpl, omap_get_here.
    + erewrite Hrem;
        [|by rewrite disconnect_players, Hpl, omap_alter_next, omap_alter_here|done..].
      simpl. rewrite decide_True by done.
      by rewrite decide_False by (by intros [? _]).
    + erewrite Hrem;
        [|by rewrite disconnect_players; simpl; rewrite disconnect_players, Hpl,
             omap_alter_next, omap_alter_here, omap_alter_here|done..].
      simpl. rewrite decide_False by (by intros [? _]).
      by rewrite decide_False by (by intros [_ ?]).
Qed.

(** The first disconnection from a session with both players connected. *)
Lemma removePlayer_both_connected X pX O pO rid room st :
  inv st → rooms st !! rid = Some room → seated room X pX O pO →
  removePlayer X st =
    (Some (mkRemoveResult rid (side pX)),
     purge X (clearRoomInterval (forfeit pO (disconnect X pX room))
                (store_room rid (forfeit pO (disconnect X pX room)) st))).
Proof.
  intros Hinv Hr Hseat.
  destruct (seated_facts _ _ _ _ _ (inv_rooms st Hinv _ _ Hr) Hseat)
    as (HXO&HpX&HpO&HiX&HiO&HcX&HcO&Hrem1&Hrem2).
  destruct (in_session_lookup _ _ _ _ _ Hinv Hr HpX HcX) as [Hq Ht].
  by eapply removePlayer_forfeit.
Qed.

Lemma disconnect_interval P p room :
  gameLoopIntervalId (disconnect P p room) = gameLoopIntervalId room.
Proof. unfold disconnect. by destruct (side p). Qed.

Lemma forfeit_interval other room :
  gameLoopIntervalId (forfeit other room) = gameLoopIntervalId room.
Proof. done. Qed.

(** C2. In a session whose two slots are both connected, when one of the two
    players disconnects the session ends by forfeit: the winner is the player
    of the other slot, the active flag is false and the tick interval of the
    room is no longer running, while the session stays in the registry.
    The manager is any one that satisfies [inv], as every reachable one does
    ([reachable_inv]). *)
Theorem C2_disconnect_forfeits X pX O pO rid room st :
  inv st →
  rooms st !! rid = Some room →
  seated room X pX O pO →
  connected pX = true → connected pO = true →
  let res := removePlayer X st in
  ∃ room',
    res.1 = Some (mkRemoveResult rid (side pX)) ∧
    rooms res.2 !! rid = Some room' ∧
    dom (rooms res.2) = dom (rooms st) ∧
    winner (gameState room') = Some O ∧
    player_id pO = O ∧
    gameActive (gameState room') = false ∧
    (∀ h, gameLoopIntervalId room = Some h → h ∉ timers res.2) ∧
    slot_player (side pO) room' = Some (O, pO) ∧
    slot_player (side pX) room' = None.
Proof.
  intros Hinv Hr Hseat _ _ res.
  pose proof (inv_rooms st Hinv _ _ Hr) as Hok.
  destruct (seated_facts _ _ _ _ _ Hok Hseat)
    as (HXO&HpX&HpO&HiX&HiO&HcX&HcO&Hrem1&Hrem2).
  unfold res. rewrite (removePlayer_both_connected _ _ _ _ _ _ _ Hinv Hr Hseat).
  exists (forfeit pO (disconnect X pX room)).
  cbn [fst snd purge set_playerToRoom rooms timers].
  rewrite clearRoomInterval_rooms. simpl rooms.
  rewrite lookup_insert_eq, HiO.
  assert (Hsides : side pX ≠ side pO).
  { destruct Hok as (A&B&pA&pB&HAB&Hpl&HiA&HsA&HiB&HsB&Hl&Hrr).
    rewrite Hpl in HpX, HpO. simpl in HpX, HpO.
    repeat case_decide; simplify_eq; congruence. }
  assert (HsO : slot (side pO) room = Some O).
  { by apply (room_ok_player _ _ _ Hok HpO). }
  split_and!; try done.
  - rewrite dom_insert_L. apply elem_of_dom_2 in Hr.
    apply set_eq. intros x. rewrite elem_of_union, elem_of_singleton.
    split; [intros [->|?]; done | by right].
  - simpl. by rewrite HiO.
  - intros h Hh. apply clearRoomInterval_stops.
    by rewrite forfeit_interval, disconnect_interval.
  - unfold slot_player.
    replace (slot (side pO) (forfeit pO (disconnect X pX room))) with (Some O).
    + simpl. rewrite disconnect_players, omap_get_alter_ne, HpO by done. done.
    + unfold disconnect. destruct (side pX), (side pO); done.
  - unfold slot_player.
    replace (slot (side pX) (forfeit pO (disconnect X pX room))) with (@None string);
      [done|].
    unfold disconnect. by destruct (side pX).
Qed.

Lemma demo_room_seated : seated demo_room "A" demo_playerA "B" demo_playerB.
Proof. left. by vm_compute. Qed.

Lemma C2_disconnect_forfeits_witness :
  inv demo_running ∧
  rooms demo_running !! "room_2_b" = Some demo_room ∧
  seated demo_room "A" demo_playerA "B" demo_playerB ∧
  connected demo_playerA = true ∧ connected demo_playerB = true ∧
  ∃ room',
    (removePlayer "A" demo_running).1 = Some (mkRemoveResult "room_2_b" Left) ∧
    rooms (removePlayer "A" demo_running).2 !! "room_2_b" = Some room' ∧
    winner (gameState room') = Some "B" ∧
    gameActive (gameState room') = false ∧
    7 ∉ timers (removePlayer "A" demo_running).2.
Proof.
  split; [apply demo_running_inv|]. split; [apply demo_running_room|].
  split; [apply demo_room_seated|]. split; [done|]. split; [done|].
  destruct (C2_disconnect_forfeits "A" demo_playerA "B" demo_playerB "room_2_b"
              demo_room demo_running demo_running_inv demo_running_room
              demo_room_seated eq_refl eq_refl)
    as (room'&H1&H2&H3&H4&H5&H6&H7&_).
  exists room'. split; [exact H1|]. split; [exact H2|]. split; [exact H4|].
  split; [exact H6|]. by apply H7.
Defined.

(** C5, as stated, fails: when the two players of a session disconnect one
    after the other, the first call already records the other player as the
    winner; the session that the second call removes has a winner. *)
Lemma C5_first_disconnect_assigns_winner :
  reachable demo_running ∧
  (winner ∘ gameState) <$> rooms demo_running !! "room_2_b" = Some None ∧
  (winner ∘ gameState) <$> rooms (removePlayer "A" demo_running).2 !! "room_2_b"
    = Some (Some "B") ∧
  rooms (removePlayer "B" (removePlayer "A" demo_running).2).2 !! "room_2_b" = None.
Proof. split; [apply demo_running_reachable | by vm_compute]. Qed.

(** C5, amended.  When both players of a session with two connected slots
    disconnect, in either order, the first call ends the session by forfeit
    in favour of the player who is still there, and the second call removes
    the session from the registry, assigning no further winner; the tick
    interval of the room has been cleared before the room is removed, and
    neither id is mapped any more. *)
Theorem C5_both_disconnect X pX O pO rid room st :
  inv st →
  rooms st !! rid = Some room →
  seated room X pX O pO →
  let st1 := (removePlayer X st).2 in
  let res := removePlayer O st1 in
  (∃ room1, rooms st1 !! rid = Some room1 ∧
            winner (gameState room1) = Some O ∧
            gameActive (gameState room1) = false) ∧
  res.1 = Some (mkRemoveResult rid (side pO)) ∧
  rooms res.2 = delete rid (rooms st) ∧
  rooms res.2 !! rid = None ∧
  playerToRoom res.2 !! X = None ∧ playerToRoom res.2 !! O = None ∧
  (∀ h, gameLoopIntervalId room = Some h → (h ∉ timers st1) ∧ (h ∉ timers res.2)) ∧
  (∃ st_mid room_mid,
     rooms st_mid !! rid = Some room_mid ∧
     gameLoopIntervalId room_mid = gameLoopIntervalId room ∧
     (∀ h, gameLoopIntervalId room_mid = Some h → h ∉ timers st_mid) ∧
     res.2 = purge O (set_rooms (delete rid (rooms st_mid)) st_mid)).
Proof.
  intros Hinv Hr Hseat st1 res.
  pose proof (inv_rooms st Hinv _ _ Hr) as Hok.
  destruct (seated_facts _ _ _ _ _ Hok Hseat)
    as (HXO&HpX&HpO&HiX&HiO&HcX&HcO&Hrem1&Hrem2).
  set (room1 := forfeit pO (disconnect X pX room)).
  assert (Hint1 : gameLoopIntervalId room1 = gameLoopIntervalId room).
  { unfold room1. by rewrite forfeit_interval, disconnect_interval. }
  assert (Hst1 : st1 = purge X (clearRoomInterval room1 (store_room rid room1 st))).
  { unfold st1. by rewrite (removePlayer_both_connected _ _ _ _ _ _ _ Hinv Hr Hseat). }
  assert (Hinv1 : inv st1) by apply inv_removePlayer, Hinv.
  assert (Hr1 : rooms st1 !! rid = Some room1).
  { rewrite Hst1. simpl. rewrite clearRoomInterval_rooms. simpl.
    apply lookup_insert_eq. }
  assert (HpO1 : omap_get O (players room1) = Some pO).
  { unfold room1. simpl. by rewrite disconnect_players, omap_get_alter_ne. }
  destruct (in_session_lookup _ _ _ _ _ Hinv1 Hr1 HpO1 HcO) as [Hq1 Ht1].
  assert (Hres : res = (Some (mkRemoveResult rid (side pO)),
            purge O (set_rooms (delete rid (rooms st1))
                       (clearRoomInterval (disconnect O pO room1) st1)))).
  { unfold res. by eapply removePlayer_last. }
  assert (Hrooms1 : rooms st1 = <[rid := room1]> (rooms st)).
  { rewrite Hst1. simpl. by rewrite clearRoomInterval_rooms. }
  split; [|split; [|split; [|split; [|split; [|split; [|split]]]]]].
  - exists room1. split; [done|]. split; [simpl; by rewrite HiO | done].
  - by rewrite Hres.
  - rewrite Hres. simpl. rewrite Hrooms1. apply delete_insert_eq.
  - rewrite Hres. simpl. apply lookup_delete_eq.
  - rewrite Hres. simpl. rewrite clearRoomInterval_playerToRoom.
    rewrite lookup_delete_ne by done. rewrite Hst1. apply lookup_delete_eq.
  - rewrite Hres. simpl. apply lookup_delete_eq.
  - intros h Hh.
    assert (H1 : h ∉ timers st1).
    { rewrite Hst1. simpl. apply clearRoomInterval_stops. by rewrite Hint1. }
    split; [done|]. rewrite Hres. simpl.
    apply (clearRoomInterval_stops (disconnect O pO room1)).
    by rewrite disconnect_interval, Hint1.
  - exists (clearRoomInterval (disconnect O pO room1) st1), room1.
    rewrite clearRoomInterval_rooms, Hres.
    split_and!; try done.
    intros h Hh. apply (clearRoomInterval_stops (disconnect O pO room1)).
    by rewrite disconnect_interval.
Qed.

Lemma C5_both_disconnect_witness :
  inv demo_running ∧
  rooms demo_running !! "room_2_b" = Some demo_room ∧
  seated demo_room "A" demo_playerA "B" demo_playerB ∧
  (removePlayer "B" (removePlayer "A" demo_running).2).1 =
    Some (mkRemoveResult "room_2_b" Right) ∧
  rooms (removePlayer "B" (removePlayer "A" demo_running).2).2 !! "room_2_b" = None ∧
  (7 ∉ timers (removePlayer "B" (removePlayer "A" demo_running).2).2).
Proof.
  split; [apply demo_running_inv|]. split; [apply demo_running_room|].
  split; [apply demo_room_seated|].
  destruct (C5_both_disconnect "A" demo_playerA "B" demo_playerB "room_2_b"
              demo_room demo_running demo_running_inv demo_running_room
              demo_room_seated)
    as (H1&H2&H3&H4&H5&H6&H7&H8).
  split; [exact H2|]. split; [exact H4|]. by apply (H7 7).
Defined.

(** ** The tick *)

Lemma scorePoint_occupied r1 r2 r3 t kt pt room :
  slot_player t room = Some (kt, pt) →
  scorePoint r1 r2 r3 t room =
    let room2 := set_gameState (resetBall r1 r2 r3 (gameState room))
                   (update_player addPoint kt room) in
    if (WIN_SCORE <=? score pt + 1)%Z then declareWinner (addPoint pt) room2
    else room2.
Proof.
  intros Hslot. unfold scorePoint. rewrite Hslot.
  apply slot_player_Some in Hslot as [_ Hp].
  cbv zeta. cbn [players set_gameState update_player set_players].
  fold addPoint. by rewrite omap_get_alter_eq, Hp.
Qed.

Lemma scorePoint_empty r1 r2 r3 t room :
  slot_player t room = None → scorePoint r1 r2 r3 t room = room.
Proof. intros Hslot. unfold scorePoint. by rewrite Hslot. Qed.

(** Writes to the ball, the flag and the winner do not move the slots. *)
Lemma slot_player_gameState gs s room :
  players_left gs = players_left (gameState room) →
  players_right gs = players_right (gameState room) →
  slot_player s (set_gameState gs room) = slot_player s room.
Proof. intros Hl Hr. unfold slot_player. destruct s; simpl; by rewrite ?Hl, ?Hr. Qed.

Lemma slot_player_update f kt s room :
  slot_player s (update_player f kt room) =
  slot s room ≫= λ k,
    pair k <$> (if decide (kt = k) then f <$> omap_get k (players room)
                else omap_get k (players room)).
Proof.
  unfold slot_player. replace (slot s (update_player f kt room)) with (slot s room)
    by by destruct s.
  destruct (slot s room) as [k|]; [|done]. simpl. by rewrite omap_get_alter.
Qed.

(** What a call of [scorePoint] does to the player in slot [s]. *)
Lemma scorePoint_slot r1 r2 r3 t s k p room :
  room_ok room → gameActive (gameState room) = true →
  slot_player s room = Some (k, p) →
  ∃ p', slot_player s (scorePoint r1 r2 r3 t room) = Some (k, p') ∧
        player_id p' = player_id p ∧
        ((winner (gameState (scorePoint r1 r2 r3 t room)) = Some (player_id p) ∧
          gameActive (gameState (scorePoint r1 r2 r3 t room)) = false)
         ↔ (score p' = score p + 1 ∧ 5 ≤ score p')%Z).
Proof.
  intros Hok Hact Hs.
  destruct (slot_player t room) as [[kt pt]|] eqn:Ht.
  2:{ rewrite scorePoint_empty by done. exists p. split; [done|]. split; [done|].
      rewrite Hact. split; [by intros [_ ?] | intros [? _]; lia]. }
  rewrite (scorePoint_occupied _ _ _ _ _ _ _ Ht). cbv zeta.
  set (room2 := set_gameState _ _).
  pose proof (slot_player_Some _ _ _ _ Hs) as [Hsk Hp].
  pose proof (slot_player_Some _ _ _ _ Ht) as [Htk Hpt].
  pose proof (room_ok_player _ _ _ Hok Hp) as [Hidp _].
  pose proof (room_ok_player _ _ _ Hok Hpt) as [Hidpt _].
  assert (Hact2 : gameActive (gameState room2) = true) by done.
  assert (Hs2 : slot_player s room2 =
            Some (k, if decide (kt = k) then addPoint p else p)).
  { unfold room2. rewrite slot_player_gameState by done.
    rewrite slot_player_update, Hsk. simpl. rewrite Hp. by case_decide. }
  assert (Hcase : ∀ room', slot_player s room' = slot_player s room2 →
            ((WIN_SCORE <=? score pt + 1)%Z = true →
               winner (gameState room') = Some (player_id pt) ∧
               gameActive (gameState room') = false) →
            ((WIN_SCORE <=? score pt + 1)%Z = false →
               gameActive (gameState room') = true) →
            ∃ p', slot_player s room' = Some (k, p') ∧
              player_id p' = player_id p ∧
              ((winner (gameState room') = Some (player_id p) ∧
                gameActive (gameState room') = false)
               ↔ (score p' = score p + 1 ∧ 5 ≤ score p')%Z)).
  { intros room' Hs' Hwin Hnowin. rewrite Hs', Hs2.
    destruct (decide (kt = k)) as [->|Hne].
    - rewrite Hp in Hpt. injection Hpt as <-.
      exists (addPoint p). split; [done|]. split; [done|]. simpl.
      destruct (WIN_SCORE <=? score p + 1)%Z eqn:Hw.
      + apply Z.leb_le in Hw. unfold WIN_SCORE in Hw.
        destruct (Hwin eq_refl) as [-> ->]. split; [by intros; lia | done].
      + apply Z.leb_gt in Hw. unfold WIN_SCORE in Hw.
        rewrite (Hnowin eq_refl). split; [by intros [_ ?] | intros [_ ?]; lia].
    - exists p. split; [done|]. split; [done|].
      split; [|intros [? _]; lia].
      destruct (WIN_SCORE <=? score pt + 1)%Z eqn:Hw.
      + destruct (Hwin eq_refl) as [-> ->]. intros [[= Heq] _]. congruence.
      + rewrite (Hnowin eq_refl). by intros [_ ?]. }
  destruct (WIN_SCORE <=? score pt + 1)%Z eqn:Hw.
  - apply Hcase; [unfold declareWinner; by apply slot_player_gameState|done..].
  - by apply Hcase.
Qed.

(** A tick either scores for one side or only moves the ball. *)
Lemma stepBall_cases r1 r2 r3 room :
  ∃ b, let room_b := set_gameState (set_ball b (gameState room)) room in
    stepBall r1 r2 r3 room = (false, room_b) ∨
    ∃ t, stepBall r1 r2 r3 room = (true, scorePoint r1 r2 r3 t room_b).
Proof.
  unfold stepBall. cbv zeta.
  match goal with
  | |- context [set_gameState (set_ball ?b _) room] => exists b
  end.
  destruct (Qltb _ 0); [right; by exists Right|].
  destruct (Qltb GAME_WIDTH _); [right; by exists Left|]. by left.
Qed.

(** C3, as stated, fails: a session also ends with a winner when the
    opponent disconnects, whatever the scores are.  Here "B" is the winner
    with a score of 0 and without any tick having run. *)
Lemma C3_forfeit_winner_without_score :
  reachable (removePlayer "A" demo_running).2 ∧
  (winner ∘ gameState) <$> rooms (removePlayer "A" demo_running).2 !! "room_2_b"
    = Some (Some "B") ∧
  (gameActive ∘ gameState) <$> rooms (removePlayer "A" demo_running).2 !! "room_2_b"
    = Some false ∧
  score <$> get_player "room_2_b" "B" (removePlayer "A" demo_running).2 = Some 0%Z ∧
  ¬ (5 ≤ 0)%Z.
Proof.
  split_and!; [|by vm_compute..|lia].
  eapply rtc_r; [apply demo_running_reachable | apply step_removePlayer].
Qed.

(** C3, amended.  On a tick of an active session, the session ends with
    winner equal to the id of the player in a slot if and only if the tick is
    a scoring tick on which that player's score is incremented and is then
    greater than or equal to 5; on that tick the winner is the scorer's id and
    the active flag is false.  (A forfeit ends a session with a winner too,
    whatever the scores.) *)
Theorem C3_tick_winner r1 r2 r3 s k p rid room st :
  inv st →
  rooms st !! rid = Some room →
  gameActive (gameState room) = true →
  slot_player s room = Some (k, p) →
  let res := updateBall r1 r2 r3 rid st in
  ∃ room' p',
    rooms res.2 !! rid = Some room' ∧
    slot_player s room' = Some (k, p') ∧
    player_id p' = player_id p ∧ player_id p = k ∧
    ((winner (gameState room') = Some (player_id p) ∧
      gameActive (gameState room') = false)
     ↔ (res.1 = true ∧ score p' = score p + 1 ∧ 5 ≤ score p')%Z).
Proof.
  intros Hinv Hr Hact Hs res.
  pose proof (inv_rooms st Hinv _ _ Hr) as Hok.
  pose proof (slot_player_Some _ _ _ _ Hs) as [_ Hp].
  pose proof (room_ok_player _ _ _ Hok Hp) as [Hid _].
  destruct (stepBall_cases r1 r2 r3 room) as [b Hcases]. cbv zeta in Hcases.
  set (room_b := set_gameState (set_ball b (gameState room)) room) in Hcases.
  assert (Hokb : room_ok room_b) by by apply room_ok_gameState.
  assert (Hsb : slot_player s room_b = Some (k, p)).
  { unfold room_b. by rewrite slot_player_gameState. }
  assert (Hres : res = ((stepBall r1 r2 r3 room).1,
                        store_room rid (stepBall r1 r2 r3 room).2 st)).
  { unfold res, updateBall. rewrite Hr, Hact. simpl.
    by destruct (stepBall r1 r2 r3 room). }
  rewrite Hres. cbn [fst snd store_room set_rooms rooms].
  rewrite lookup_insert_eq.
  destruct Hcases as [-> | [t ->]]; cbn [fst snd].
  - exists room_b, p. split_and!; try done.
    split; [|by intros [? _]].
    intros [_ Hfalse]. simpl in Hfalse. congruence.
  - destruct (scorePoint_slot r1 r2 r3 t s k p room_b Hokb Hact Hsb)
      as (p'&Hs'&Hid'&Hiff).
    exists (scorePoint r1 r2 r3 t room_b), p'. split_and!; try done.
    rewrite Hiff. split; [by intros [? ?] | by intros (_&?&?)].
Qed.

Lemma C3_tick_winner_witness :
  ∃ room, inv demo_match_point ∧
    rooms demo_match_point !! "room_2_b" = Some room ∧
    gameActive (gameState room) = true ∧
    slot_player Right room = Some ("B", set_score 4 demo_playerB) ∧
    ∃ room' p',
      rooms (updateBall 0.3 0.7 0.1 "room_2_b" demo_match_point).2 !! "room_2_b"
        = Some room' ∧
      slot_player Right room' = Some ("B", p') ∧
      score p' = 5%Z ∧
      winner (gameState room') = Some "B" ∧
      gameActive (gameState room') = false.
Proof.
  assert (Hinv : inv demo_match_point).
  { eapply inv_store_room_le;
      [apply demo_running_inv | apply demo_running_room | |].
    - apply room_ok_update; [done|]. apply room_ok_gameState; [done..|].
      apply room_ok_update; [done|].
      apply (inv_rooms _ demo_running_inv _ _ demo_running_room).
    - eapply conn_le_trans; [by apply conn_le_update|].
      eapply conn_le_trans; [by apply conn_le_players|].
      by apply conn_le_update. }
  eexists. split; [exact Hinv|]. split; [by vm_compute|].
  split; [done|]. split; [by vm_compute|].
  destruct (C3_tick_winner 0.3 0.7 0.1 Right "B" (set_score 4 demo_playerB)
              "room_2_b" _ demo_match_point Hinv eq_refl eq_refl eq_refl)
    as (room'&p'&H1&H2&H3&H4&H5).
  exists room', p'. split; [exact H1|]. split; [exact H2|].
  assert (Hp' : p' = set_score 5 demo_playerB).
  { vm_compute in H1. injection H1 as <-. vm_compute in H2. by injection H2 as <-. }
  split; [by rewrite Hp'|]. apply H5. rewrite Hp'. split_and!; [by vm_compute|done|done].
Defined.

(** ** The ball leaving the field on the left *)

Lemma Qnat_S n : (Qnat (S n) == Qnat n + 1)%Q.
Proof.
  unfold Qnat. rewrite Nat2Z.inj_succ, <- Z.add_1_r, inject_Z_plus. reflexivity.
Qed.

Lemma Qnat_le n m : n ≤ m → (Qnat n <= Qnat m)%Q.
Proof. intros H. unfold Qnat. rewrite <- Zle_Qle. lia. Qed.

Lemma bounceWalls_x b : ball_x (bounceWalls b) = ball_x b.
Proof. unfold bounceWalls. by destruct (_ || _). Qed.

Lemma bounceWalls_vx b : ball_vx (bounceWalls b) = ball_vx b.
Proof. unfold bounceWalls. by destruct (_ || _). Qed.

(** A ball that moves to the left meets no right paddle; if it misses the
    left paddle too, the collisions leave it as it is. *)
Lemma no_collision room :
  (ball_vx (ball (gameState room)) < 0)%Q →
  leftPaddleMisses room = true →
  collideRight ((paddle ∘ snd) <$> slot_player Right room)
    (collideLeft ((paddle ∘ snd) <$> slot_player Left room)
       (bounceWalls (moveBall (ball (gameState room))))) =
  bounceWalls (moveBall (ball (gameState room))).
Proof.
  intros Hvx Hmiss. unfold leftPaddleMisses in Hmiss.
  assert (Hl : collideLeft ((paddle ∘ snd) <$> slot_player Left room)
            (bounceWalls (moveBall (ball (gameState room)))) =
          bounceWalls (moveBall (ball (gameState room)))).
  { destruct (slot_player Left room) as [[l pl]|]; [|done]. simpl.
    apply negb_true_iff in Hmiss. by rewrite Hmiss. }
  rewrite Hl. destruct (slot_player Right room) as [[r pr]|]; [|done]. simpl.
  unfold hitsRightPaddle. rewrite bounceWalls_vx. simpl.
  assert (Qltb 0 (ball_vx (ball (gameState room))) = false) as ->; [|done].
  apply Qltb_false. by apply Qlt_le_weak.
Qed.

Lemma stepBall_glide r1 r2 r3 room :
  (ball_vx (ball (gameState room)) < 0)%Q →
  leftPaddleMisses room = true →
  (0 <= ball_x (ball (gameState room)) + ball_vx (ball (gameState room)))%Q →
  (ball_x (ball (gameState room)) <= GAME_WIDTH)%Q →
  stepBall r1 r2 r3 room = (false, glide room).
Proof.
  intros Hvx Hmiss Hx Hw. unfold stepBall. cbv zeta.
  rewrite no_collision by done. rewrite bounceWalls_x. simpl ball_x.
  assert (Qltb (ball_x (ball (gameState room)) + ball_vx (ball (gameState room))) 0
          = false) as ->.
  { by apply Qltb_false. }
  assert (Qltb GAME_WIDTH
            (ball_x (ball (gameState room)) + ball_vx (ball (gameState room)))
          = false) as ->; [|done].
  apply Qltb_false. lra.
Qed.

Lemma stepBall_exit_left r1 r2 r3 room :
  (ball_vx (ball (gameState room)) < 0)%Q →
  leftPaddleMisses room = true →
  (ball_x (ball (gameState room)) + ball_vx (ball (gameState room)) < 0)%Q →
  stepBall r1 r2 r3 room = (true, scorePoint r1 r2 r3 Right (glide room)).
Proof.
  intros Hvx Hmiss Hx. unfold stepBall. cbv zeta.
  rewrite no_collision by done. rewrite bounceWalls_x. simpl ball_x.
  assert (Qltb (ball_x (ball (gameState room)) + ball_vx (ball (gameState room))) 0
          = true) as ->; [|done].
  by apply Qltb_true.
Qed.

(** [resetBall] puts the ball at the centre with a vertical speed of 3. *)
Lemma resetBall_ball r1 r2 r3 gs :
  (ball_x (ball (resetBall r1 r2 r3 gs)) == 400)%Q ∧
  (ball_y (ball (resetBall r1 r2 r3 gs)) == 200)%Q ∧
  (Qabs (ball_vy (ball (resetBall r1 r2 r3 gs))) == 3)%Q ∧
  (Qabs (ball_vx (ball (resetBall r1 r2 r3 gs))) == 3)%Q.
Proof.
  unfold resetBall, random_sign. simpl.
  split; [reflexivity|]. split; [reflexivity|].
  split; [destruct (Qltb 0.5 r2) | destruct (Qltb 0.5 r1)]; reflexivity.
Qed.

Lemma updateBall_active r1 r2 r3 rid room st :
  rooms st !! rid = Some room → gameActive (gameState room) = true →
  updateBall r1 r2 r3 rid st =
    ((stepBall r1 r2 r3 room).1, store_room rid (stepBall r1 r2 r3 room).2 st).
Proof.
  intros Hr Hact. unfold updateBall. rewrite Hr, Hact. simpl.
  by destruct (stepBall r1 r2 r3 room).
Qed.

Lemma slot_player_update_eq f s k p room :
  slot_player s room = Some (k, p) →
  slot_player s (update_player f k room) = Some (k, f p).
Proof.
  intros H. rewrite slot_player_update.
  apply slot_player_Some in H as [-> Hp]. simpl.
  rewrite decide_True by done. by rewrite Hp.
Qed.

Lemma ticks_S rnd n rid st :
  ticks rnd (S n) rid st = (tick (rnd n) rid (ticks rnd n rid st)).2.
Proof. done. Qed.

(** The state of the room while the ball travels to the left edge. *)
Lemma ticks_glide rnd k pr rid room st n :
  rooms st !! rid = Some room →
  gameActive (gameState room) = true →
  (ball_x (ball (gameState room)) == 400)%Q →
  (ball_vx (ball (gameState room)) == -3)%Q →
  slot_player Right room = Some (k, pr) →
  (∀ i room_i, i < 134 → rooms (ticks rnd i rid st) !! rid = Some room_i →
     leftPaddleMisses room_i = true) →
  n < 134 →
  ∃ room_n,
    rooms (ticks rnd n rid st) !! rid = Some room_n ∧
    gameActive (gameState room_n) = true ∧
    (ball_x (ball (gameState room_n)) == 400 - 3 * Qnat n)%Q ∧
    (ball_vx (ball (gameState room_n)) == -3)%Q ∧
    slot_player Right room_n = Some (k, pr).
Proof.
  intros Hr Hact Hx Hvx Hright Hmiss. induction n as [|n IH]; intros Hn.
  - exists room. by split_and!.
  - destruct IH as (room_n&Hrn&Hactn&Hxn&Hvxn&Hrightn); [lia|].
    pose proof (Hmiss n room_n ltac:(lia) Hrn) as Hmissn.
    pose proof (Qnat_le n 132 ltac:(lia)) as Hle.
    assert (H132 : (Qnat 132 == 132)%Q) by reflexivity.
    pose proof (Qnat_le 0 n ltac:(lia)) as Hge.
    assert (H0 : (Qnat 0 == 0)%Q) by reflexivity.
    exists (glide room_n). rewrite ticks_S. unfold tick.
    rewrite (updateBall_active _ _ _ _ _ _ Hrn Hactn).
    rewrite stepBall_glide; [|lra|done|lra|unfold GAME_WIDTH; lra].
    cbn [fst snd store_room set_rooms rooms]. rewrite lookup_insert_eq.
    split_and!; try done.
    + simpl. rewrite bounceWalls_x. simpl. rewrite Hxn, Hvxn, Qnat_S. lra.
    + simpl. by rewrite bounceWalls_vx.
Qed.

(** C6.  In an active session in which no paddle is in the way of the ball
    (the ball never touches the left paddle: the left slot is empty, or its
    paddle is elsewhere) and whose right slot is occupied, as it is in every
    active session of a reachable state, a ball that starts at x = 400 with
    vx = -3 is still inside the field, at x = 400 - 3n, after each of the
    first 133 ticks, none of which scores; the 134th tick takes it to x < 0:
    that tick scores, the score of the right slot goes up by one (to 1 from
    0), and the ball is reset to (400, 200) with |vy| = 3 ≥ 1.5. *)
Theorem C6_ball_exits_left rnd k pr rid room st :
  rooms st !! rid = Some room →
  gameActive (gameState room) = true →
  (ball_x (ball (gameState room)) == 400)%Q →
  (ball_vx (ball (gameState room)) == -3)%Q →
  slot_player Right room = Some (k, pr) →
  (∀ i room_i, i < 134 → rooms (ticks rnd i rid st) !! rid = Some room_i →
     leftPaddleMisses room_i = true) →
  (∀ n, n < 134 →
     ∃ room_n,
       rooms (ticks rnd n rid st) !! rid = Some room_n ∧
       gameActive (gameState room_n) = true ∧
       (ball_x (ball (gameState room_n)) == 400 - 3 * Qnat n)%Q ∧
       (0 < ball_x (ball (gameState room_n)))%Q ∧
       slot_player Right room_n = Some (k, pr) ∧
       (tick (rnd n) rid (ticks rnd n rid st)).1 = bool_decide (n = 133)) ∧
  ∃ room' pr',
    rooms (ticks rnd 134 rid st) !! rid = Some room' ∧
    slot_player Right room' = Some (k, pr') ∧
    score pr' = (score pr + 1)%Z ∧
    (score pr = 0%Z → score pr' = 1%Z) ∧
    (ball_x (ball (gameState room')) == 400)%Q ∧
    (ball_y (ball (gameState room')) == 200)%Q ∧
    (Qabs (ball_vy (ball (gameState room'))) == 3)%Q ∧
    (1.5 <= Qabs (ball_vy (ball (gameState room'))))%Q.
Proof.
  intros Hr Hact Hx Hvx Hright Hmiss.
  pose proof (λ n, ticks_glide rnd k pr rid room st n Hr Hact Hx Hvx Hright Hmiss)
    as Hglide.
  assert (Hlast : ∀ room_n,
            rooms (ticks rnd 133 rid st) !! rid = Some room_n →
            gameActive (gameState room_n) = true →
            (ball_x (ball (gameState room_n)) == 400 - 3 * Qnat 133)%Q →
            (ball_vx (ball (gameState room_n)) == -3)%Q →
            tick (rnd 133) rid (ticks rnd 133 rid st) =
              (true, store_room rid
                       (scorePoint (rnd 133).1.1 (rnd 133).1.2 (rnd 133).2 Right
                          (glide room_n))
                       (ticks rnd 133 rid st))).
  { intros room_n Hrn Hactn Hxn Hvxn.
    pose proof (Hmiss 133 room_n ltac:(lia) Hrn) as Hmissn.
    assert (H133 : (Qnat 133 == 133)%Q) by reflexivity.
    unfold tick. rewrite (updateBall_active _ _ _ _ _ _ Hrn Hactn).
    rewrite stepBall_exit_left; [done|lra|done|lra]. }
  split.
  - intros n Hn. destruct (Hglide n Hn) as (room_n&Hrn&Hactn&Hxn&Hvxn&Hrightn).
    exists room_n. split_and!; try done.
    + pose proof (Qnat_le n 133 ltac:(lia)) as Hle.
      assert (H133 : (Qnat 133 == 133)%Q) by reflexivity. lra.
    + destruct (decide (n = 133)) as [->|Hne].
      * by rewrite (Hlast room_n).
      * rewrite bool_decide_eq_false_2 by done.
        pose proof (Hmiss n room_n Hn Hrn) as Hmissn.
        pose proof (Qnat_le n 132 ltac:(lia)) as Hle.
        assert (H132 : (Qnat 132 == 132)%Q) by reflexivity.
        pose proof (Qnat_le 0 n ltac:(lia)) as Hge.
        assert (H0 : (Qnat 0 == 0)%Q) by reflexivity.
        unfold tick. rewrite (updateBall_active _ _ _ _ _ _ Hrn Hactn).
        by rewrite stepBall_glide; [|lra|done|lra|unfold GAME_WIDTH; lra].
  - destruct (Hglide 133 ltac:(lia)) as (room_n&Hrn&Hactn&Hxn&Hvxn&Hrightn).
    assert (Hrg : slot_player Right (glide room_n) = Some (k, pr)).
    { unfold glide. by rewrite slot_player_gameState. }
    rewrite (ticks_S rnd 133).
    rewrite (Hlast room_n) by done.
    cbn [fst snd store_room set_rooms rooms]. rewrite lookup_insert_eq.
    rewrite (scorePoint_occupied _ _ _ _ _ _ _ Hrg). cbv zeta.
    set (r1 := (rnd 133).1.1). set (r2 := (rnd 133).1.2). set (r3 := (rnd 133).2).
    set (room2 := set_gameState _ _).
    assert (Hs2 : slot_player Right room2 = Some (k, addPoint pr)).
    { unfold room2. rewrite slot_player_gameState by done.
      by apply slot_player_update_eq. }
    destruct (resetBall_ball r1 r2 r3 (gameState (update_player addPoint k (glide room_n))))
      as (Hbx&Hby&Hbvy&_).
    assert (Hfin : ∀ room', slot_player Right room' = slot_player Right room2 →
              ball (gameState room') = ball (gameState room2) →
              ∃ pr', slot_player Right room' = Some (k, pr') ∧
                score pr' = (score pr + 1)%Z ∧
                (score pr = 0%Z → score pr' = 1%Z) ∧
                (ball_x (ball (gameState room')) == 400)%Q ∧
                (ball_y (ball (gameState room')) == 200)%Q ∧
                (Qabs (ball_vy (ball (gameState room'))) == 3)%Q ∧
                (1.5 <= Qabs (ball_vy (ball (gameState room'))))%Q).
    { intros room' Hs' Hb'. exists (addPoint pr). rewrite Hs', Hb'.
      split_and!; try done.
      - simpl. intros ->. done.
      - unfold room2. simpl gameState. rewrite Hbvy. lra. }
    destruct (WIN_SCORE <=? score pr + 1)%Z.
    + destruct (Hfin (declareWinner (addPoint pr) room2)) as (pr'&?); [done..|].
      by exists (declareWinner (addPoint pr) room2), pr'.
    + destruct (Hfin room2) as (pr'&?); [done..|]. by exists room2, pr'.
Qed.

Lemma demo_clear_misses i room_i :
  i < 134 →
  rooms (ticks demo_rnd i "room_2_b" demo_clear) !! "room_2_b" = Some room_i →
  leftPaddleMisses room_i = true.
Proof.
  intros Hi Hr.
  assert (Hall : forallb
            (λ i, match rooms (ticks demo_rnd i "room_2_b" demo_clear) !! "room_2_b" with
                  | Some room => leftPaddleMisses room
                  | None => true
                  end) (seq 0 134) = true) by by vm_compute.
  rewrite forallb_forall in Hall.
  specialize (Hall i). rewrite Hr in Hall. apply Hall, in_seq. lia.
Qed.

Lemma demo_clear_lookup : rooms demo_clear !! "room_2_b" = Some demo_clear_room.
Proof. by vm_compute. Qed.

Lemma C6_ball_exits_left_witness :
  rooms demo_clear !! "room_2_b" = Some demo_clear_room ∧
  gameActive (gameState demo_clear_room) = true ∧
  (ball_x (ball (gameState demo_clear_room)) == 400)%Q ∧
  (ball_vx (ball (gameState demo_clear_room)) == -3)%Q ∧
  slot_player Right demo_clear_room = Some ("B", demo_playerB) ∧
  (∀ i room_i, i < 134 →
     rooms (ticks demo_rnd i "room_2_b" demo_clear) !! "room_2_b" = Some room_i →
     leftPaddleMisses room_i = true) ∧
  ∃ room' pr',
    rooms (ticks demo_rnd 134 "room_2_b" demo_clear) !! "room_2_b" = Some room' ∧
    slot_player Right room' = Some ("B", pr') ∧
    score pr' = 1%Z ∧
    (ball_x (ball (gameState room')) == 400)%Q ∧
    (ball_y (ball (gameState room')) == 200)%Q ∧
    (1.5 <= Qabs (ball_vy (ball (gameState room'))))%Q.
Proof.
  assert (Hx : (ball_x (ball (gameState demo_clear_room)) == 400)%Q) by by vm_compute.
  assert (Hvx : (ball_vx (ball (gameState demo_clear_room)) == -3)%Q) by by vm_compute.
  assert (Hright : slot_player Right demo_clear_room = Some ("B", demo_playerB))
    by by vm_compute.
  split; [exact demo_clear_lookup|]. split; [reflexivity|]. split; [exact Hx|].
  split; [exact Hvx|]. split; [exact Hright|]. split; [exact demo_clear_misses|].
  destruct (C6_ball_exits_left demo_rnd "B" demo_playerB "room_2_b" demo_clear_room
              demo_clear demo_clear_lookup eq_refl Hx Hvx Hright demo_clear_misses)
    as (_&room'&pr'&H1&H2&H3&H4&H5&H6&H7&H8).
  exists room', pr'. split; [exact H1|]. split; [exact H2|].
  split; [by apply H4|]. split; [exact H5|]. split; [exact H6|exact H8].
Defined.

(** * Further properties *)

Lemma conn_eq_refl room : conn_eq room room.
Proof. done. Qed.

Lemma conn_eq_trans r1 r2 r3 : conn_eq r1 r2 → conn_eq r2 r3 → conn_eq r1 r3.
Proof. intros H12 H23 P. by rewrite H23, H12. Qed.

Lemma conn_eq_update f k room : keeps_identity f → conn_eq room (update_player f k room).
Proof.
  intros Hf P. unfold update_player. simpl. rewrite omap_get_alter.
  case_decide; [|done]. destruct (omap_get P (players room)) as [p|]; [|done].
  simpl. by destruct (Hf p) as (_&_&->).
Qed.

Lemma conn_eq_players room room' : players room' = players room → conn_eq room room'.
Proof. intros Hp P. by rewrite Hp. Qed.

Lemma conn_eq_scorePoint r1 r2 r3 s room : conn_eq room (scorePoint r1 r2 r3 s room).
Proof.
  destruct (slot_player s room) as [[k p]|] eqn:Hs.
  - rewrite (scorePoint_occupied _ _ _ _ _ _ _ Hs). cbv zeta.
    apply (conn_eq_trans _ (update_player addPoint k room));
      [by apply conn_eq_update|].
    destruct (WIN_SCORE <=? score p + 1)%Z; by apply conn_eq_players.
  - by rewrite scorePoint_empty.
Qed.

Lemma conn_eq_stepBall r1 r2 r3 room : conn_eq room (stepBall r1 r2 r3 room).2.
Proof.
  destruct (stepBall_cases r1 r2 r3 room) as [b Hc]. cbv zeta in Hc.
  destruct Hc as [-> | [t ->]]; simpl; [done|].
  apply (conn_eq_trans _ (set_gameState (set_ball b (gameState room)) room));
    [done | apply conn_eq_scorePoint].
Qed.

(** ** The invariants of a game *)

Lemma player_ok_inactive a p : player_ok a p → player_ok false p.
Proof. intros (_&Hs&_&Hx&Hy). unfold player_ok. by intuition. Qed.

Lemma omap_alter_id {V} (f : V → V) (k : string) (m : omap V) :
  (∀ v, omap_get k m = Some v → f v = v) → omap_alter f k m = m.
Proof.
  induction m as [|[k' v] m IH]; intros Hf; [done|]. simpl in *.
  destruct (decide (k = k')); [by rewrite Hf | by rewrite IH].
Qed.

Lemma game_ok_update f k room :
  (∀ p, player_ok (gameActive (gameState room)) p →
        player_ok (gameActive (gameState room)) (f p)) →
  game_ok room → game_ok (update_player f k room).
Proof.
  intros Hf [H1 H2 H3]. split; [done..|]. simpl. intros k' p'.
  rewrite omap_get_alter. case_decide; [|by apply H3].
  destruct (omap_get k' (players room)) as [p|] eqn:Hp; [|done].
  intros [= <-]. by eapply Hf, H3.
Qed.

Lemma game_ok_slot s v room : game_ok room → game_ok (set_slot s v room).
Proof. intros [H1 H2 H3]. by destruct s. Qed.

Lemma game_ok_interval v room : game_ok room → game_ok (set_gameLoopIntervalId v room).
Proof. by intros [H1 H2 H3]. Qed.

Lemma createPlayer_ok a P s : player_ok a (createPlayer P s).
Proof.
  unfold player_ok, WIN_SCORE, GAME_WIDTH, GAME_HEIGHT, PADDLE_WIDTH, PADDLE_HEIGHT.
  split_and!; simpl; try done; try lia; try (by destruct s); by vm_compute.
Qed.

Lemma random_sign_abs r : (Qabs (BALL_SPEED * random_sign r) == BALL_SPEED)%Q.
Proof. unfold random_sign. by destruct (Qltb 0.5 r). Qed.

Lemma resetBall_ok r1 r2 r3 gs : ball_ok (ball (resetBall r1 r2 r3 gs)).
Proof.
  destruct (resetBall_ball r1 r2 r3 gs) as (Hx&Hy&Hvy&Hvx).
  unfold ball_ok, BALL_SPEED, GAME_WIDTH, GAME_HEIGHT, BALL_SIZE.
  rewrite Hx, Hy, Hvy, Hvx. split_and!; try reflexivity; by vm_compute.
Qed.

Lemma game_ok_newRoom stamp r1 r2 W P : game_ok (newRoom stamp r1 r2 W P).
Proof.
  split; [done| |].
  - unfold ball_ok. simpl. split_and!; try apply random_sign_abs; by vm_compute.
  - simpl. intros k p. repeat case_decide; intros [= <-]; apply createPlayer_ok.
Qed.

Lemma game_ok_forfeit other room : game_ok room → game_ok (forfeit other room).
Proof.
  intros [H1 H2 H3]. split; [done..|]. simpl. intros k p Hp.
  eapply player_ok_inactive. eapply H3, Hp.
Qed.

Lemma game_ok_forfeit_disconnect other P p room :
  game_ok room → game_ok (forfeit other (disconnect P p room)).
Proof.
  intros [H1 H2 H3]. split; [done | unfold disconnect; destruct (side p); exact H2 |].
  change (gameActive _) with false.
  change (players (forfeit other (disconnect P p room)))
    with (players (disconnect P p room)).
  intros k q. rewrite disconnect_get. intros Hq.
  assert (∃ q0, omap_get k (players room) = Some q0 ∧
                (q = q0 ∨ q = set_connected false q0)) as (q0&Hq0&Hcase).
  { case_decide; [|by eauto].
    destruct (omap_get k (players room)) as [q0|]; [|done].
    injection Hq as <-. eauto. }
  pose proof (player_ok_inactive _ _ (H3 _ _ Hq0)) as Hok.
  destruct Hcase as [-> | ->]; [exact Hok|].
  destruct Hok as (_&Hs&_&Hx&Hy). unfold player_ok. simpl. by intuition.
Qed.

Lemma game_ok_movePaddle d P p room :
  omap_get P (players room) = Some p → game_ok room →
  game_ok (update_player (set_paddle_y (movedY d (paddle_y (paddle p)))) P room).
Proof.
  intros Hp Hok. apply game_ok_update; [|done].
  destruct (game_players _ Hok _ _ Hp) as (_&_&_&_&Hy).
  intros q (Hc&Hs&Ha&Hx&_).
  split; [exact Hc|]. split; [exact Hs|]. split; [exact Ha|]. split; [exact Hx|].
  by apply movedY_in_range.
Qed.

Lemma room_ok_slots room l pl r pr :
  room_ok room →
  slot_player Left room = Some (l, pl) → slot_player Right room = Some (r, pr) →
  l ≠ r ∧ players room = [(l, pl); (r, pr)] ∧
  connected pl = true ∧ connected pr = true.
Proof.
  intros (A&B&pA&pB&Hne&Hpl&_&_&_&_&HL&HR) Hl Hr.
  apply slot_player_Some in Hl as [Hl Hgl]. apply slot_player_Some in Hr as [Hr Hgr].
  simpl in Hl, Hr. rewrite HL in Hl. rewrite HR in Hr.
  destruct (connected pA) eqn:HcA; [|done]. destruct (connected pB) eqn:HcB; [|done].
  injection Hl as <-. injection Hr as <-.
  rewrite Hpl in Hgl, Hgr. rewrite omap_get_here in Hgl.
  rewrite omap_get_next, omap_get_here in Hgr by done.
  injection Hgl as <-. injection Hgr as <-. done.
Qed.

Lemma room_ok_connected_slots room :
  room_ok room →
  (∀ k p, omap_get k (players room) = Some p → connected p = true) →
  ∃ l pl r pr, slot_player Left room = Some (l, pl) ∧
               slot_player Right room = Some (r, pr).
Proof.
  intros (A&B&pA&pB&Hne&Hpl&_&_&_&_&HL&HR) Hc.
  assert (HA : omap_get A (players room) = Some pA)
    by (rewrite Hpl; apply omap_get_here).
  assert (HB : omap_get B (players room) = Some pB)
    by (rewrite Hpl, omap_get_next by done; apply omap_get_here).
  rewrite (Hc _ _ HA) in HL. rewrite (Hc _ _ HB) in HR.
  exists A, pA, B, pB. unfold slot_player. simpl. rewrite HL, HR. simpl.
  by rewrite HA, HB.
Qed.

(** The room that [startGame] stores. *)
Lemma game_ok_startGame r1 r2 r3 l pl r pr room :
  room_ok room → game_ok room →
  slot_player Left room = Some (l, pl) → slot_player Right room = Some (r, pr) →
  game_ok
    (set_gameState
       (resetBall r1 r2 r3 (set_winner None (set_gameActive true (gameState room))))
       (update_player (set_score 0) r
          (update_player (set_score 0) l
             (set_gameState (set_winner None (set_gameActive true (gameState room)))
                room)))).
Proof.
  intros Hrok [H1 H2 H3] Hl Hr.
  destruct (room_ok_slots _ _ _ _ _ Hrok Hl Hr) as (Hne&Hpl&Hcl&Hcr).
  split; [done | apply resetBall_ok |].
  change (gameActive _) with true. simpl. rewrite Hpl.
  rewrite omap_alter_here, omap_alter_next, omap_alter_here by done.
  assert (Hgl : omap_get l (players room) = Some pl)
    by (rewrite Hpl; apply omap_get_here).
  assert (Hgr : omap_get r (players room) = Some pr)
    by (rewrite Hpl, omap_get_next by done; apply omap_get_here).
  destruct (H3 _ _ Hgl) as (_&_&_&Hxl&Hyl). destruct (H3 _ _ Hgr) as (_&_&_&Hxr&Hyr).
  intros k p. simpl. repeat case_decide; intros [= <-];
    (split; [done|]; split; [done|]; split; [done|]; split; [|done]);
    [exact Hxl | exact Hxr].
Qed.

Lemma bounceWalls_ok b :
  (Qabs (ball_vy b) == BALL_SPEED)%Q →
  (Qabs (ball_vy (bounceWalls b)) == BALL_SPEED)%Q ∧
  (0 <= ball_y (bounceWalls b) <= GAME_HEIGHT - BALL_SIZE)%Q.
Proof.
  intros Hvy. unfold bounceWalls.
  assert (Hclamp : (0 <= Qmax 0 (Qmin (GAME_HEIGHT - BALL_SIZE) (ball_y b))
                      <= GAME_HEIGHT - BALL_SIZE)%Q).
  { split; [apply Q.le_max_l|].
    apply Q.max_lub; [by vm_compute | apply Q.le_min_l]. }
  destruct (Qle_bool (ball_y b) 0) eqn:H0; cbn [orb ball_vy ball_y].
  { by rewrite Qabs_opp. }
  destruct (Qle_bool (GAME_HEIGHT - BALL_SIZE) (ball_y b)) eqn:H1; cbn [ball_vy ball_y].
  { by rewrite Qabs_opp. }
  split; [done|].
  assert (¬ (ball_y b <= 0)%Q) by (rewrite <- Qle_bool_iff; congruence).
  assert (¬ (GAME_HEIGHT - BALL_SIZE <= ball_y b)%Q)
    by (rewrite <- Qle_bool_iff; congruence).
  unfold GAME_HEIGHT, BALL_SIZE in *. lra.
Qed.

Lemma collide_ok lp rp b :
  (Qabs (ball_vx b) == BALL_SPEED)%Q → (Qabs (ball_vy b) == BALL_SPEED)%Q →
  (0 <= ball_y b <= GAME_HEIGHT - BALL_SIZE)%Q →
  let b' := collideRight rp (collideLeft lp b) in
  (Qabs (ball_vx b') == BALL_SPEED)%Q ∧ (Qabs (ball_vy b') == BALL_SPEED)%Q ∧
  (0 <= ball_y b' <= GAME_HEIGHT - BALL_SIZE)%Q.
Proof.
  intros Hvx Hvy Hy. unfold collideRight, collideLeft.
  destruct lp as [lp|]; [destruct (hitsLeftPaddle lp b)|];
    (destruct rp as [rp|]; [destruct (hitsRightPaddle rp _)|]);
    cbn [ball_vx ball_vy ball_y]; rewrite ?Qopp_involutive, ?Qabs_opp; done.
Qed.

Lemma game_ok_scorePoint r1 r2 r3 t kt pt b room :
  game_ok room → gameActive (gameState room) = true →
  slot_player t room = Some (kt, pt) →
  game_ok (scorePoint r1 r2 r3 t (set_gameState (set_ball b (gameState room)) room)).
Proof.
  intros [H1 H2 H3] Hact Hs.
  assert (Hs' : slot_player t (set_gameState (set_ball b (gameState room)) room)
                = Some (kt, pt)) by by rewrite slot_player_gameState.
  rewrite (scorePoint_occupied _ _ _ _ _ _ _ Hs'). cbv zeta.
  apply slot_player_Some in Hs as [_ Hpt].
  rewrite Hact in H3.
  assert (Hpl : ∀ a k p,
    omap_get k (omap_alter addPoint kt (players room)) = Some p →
    (a = true → (score pt + 1 < WIN_SCORE)%Z) → player_ok a p).
  { intros a k p. rewrite omap_get_alter. intros Hp Ha.
    case_decide as Hk.
    - subst k. rewrite Hpt in Hp. injection Hp as <-.
      destruct (H3 _ _ Hpt) as (Hc&Hsc&Hlt&Hx&Hy).
      split; [by auto|]. split; [simpl; specialize (Hlt eq_refl); lia|].
      split; [exact Ha|]. by split.
    - destruct a; [by apply (H3 k) | by apply (player_ok_inactive true), (H3 k)]. }
  destruct (WIN_SCORE <=? score pt + 1)%Z eqn:Hwin.
  - split; [done | apply resetBall_ok |]. intros k p Hp. by eapply Hpl.
  - apply Z.leb_gt in Hwin.
    split; [by auto | apply resetBall_ok |]. intros k p Hp.
    change (gameActive _) with (gameActive (gameState room)). rewrite Hact.
    by eapply Hpl.
Qed.

Lemma game_ok_stepBall r1 r2 r3 room :
  room_ok room → game_ok room → gameActive (gameState room) = true →
  game_ok (stepBall r1 r2 r3 room).2.
Proof.
  intros Hrok Hok Hact. pose proof Hok as [H1 H2 H3].
  destruct (room_ok_connected_slots room Hrok) as (l&pl&r&pr&Hl&Hr).
  { intros k p Hp. by apply (H3 _ _ Hp). }
  unfold stepBall. cbv zeta.
  destruct H2 as (Hvx&Hvy&Hx&Hy).
  destruct (bounceWalls_ok (moveBall (ball (gameState room)))) as [Hvy1 Hy1]; [done|].
  assert (Hvx1 : (Qabs (ball_vx (bounceWalls (moveBall (ball (gameState room)))))
                  == BALL_SPEED)%Q) by by rewrite bounceWalls_vx.
  pose proof (collide_ok ((paddle ∘ snd) <$> slot_player Left room)
                ((paddle ∘ snd) <$> slot_player Right room) _ Hvx1 Hvy1 Hy1) as Hb.
  cbv zeta in Hb. revert Hb.
  generalize (collideRight ((paddle ∘ snd) <$> slot_player Right room)
    (collideLeft ((paddle ∘ snd) <$> slot_player Left room)
       (bounceWalls (moveBall (ball (gameState room)))))).
  intros b (Hbx&Hby&Hbr).
  destruct (Qltb (ball_x b) 0) eqn:Hlo; simpl.
  { by eapply game_ok_scorePoint. }
  destruct (Qltb GAME_WIDTH (ball_x b)) eqn:Hhi; simpl.
  { by eapply game_ok_scorePoint. }
  apply Qltb_false in Hlo, Hhi. by split.
Qed.

(** ** The invariant of the manager, continued *)

Lemma inv_game_initial : inv_game initial.
Proof. split; intros ?; intros; by rewrite ?lookup_empty in *. Qed.

Lemma occupied_conn_eq room room' : conn_eq room room' → occupied room → occupied room'.
Proof.
  intros Heq (k&p&Hp&Hc). specialize (Heq k). rewrite Hp in Heq.
  destruct (omap_get k (players room')) as [p'|] eqn:Hp'; [|done].
  injection Heq as Heq. exists k, p'. split; [done | congruence].
Qed.

Lemma inv_game_store rid room room' st :
  inv_game st → rooms st !! rid = Some room → conn_eq room room' → game_ok room' →
  inv_game (store_room rid room' st).
Proof.
  intros [Hm Hg Ho] Hr Heq Hok. split.
  - intros P rid' r' p HP. simpl. rewrite lookup_insert. case_decide as Hrid.
    + intros [= <-] Hp. subst rid'. specialize (Heq P). rewrite Hp in Heq.
      destruct (omap_get P (players room)) as [p0|] eqn:Hp0; [|done].
      injection Heq as ->. by eapply Hm.
    + intros Hr' Hp. by eapply Hm.
  - intros rid' r'. simpl. rewrite lookup_insert. case_decide.
    + by intros [= <-].
    + apply Hg.
  - intros rid' r'. simpl. rewrite lookup_insert. case_decide.
    + intros [= <-]. eapply occupied_conn_eq; [done|]. by eapply Ho.
    + apply Ho.
Qed.

Lemma inv_game_set_timers t st : inv_game st → inv_game (set_timers t st).
Proof. by intros [Hm Hg Ho]. Qed.

Lemma inv_game_clearRoomInterval room st :
  inv_game st → inv_game (clearRoomInterval room st).
Proof.
  intros H. unfold clearRoomInterval. destruct (gameLoopIntervalId room); [|done].
  by apply inv_game_set_timers.
Qed.

Lemma inv_game_purge P st : inv_game st → inv_game (purge P st).
Proof.
  intros [Hm Hg Ho]. split; [|done..]. intros Q rid room p. simpl.
  intros [_ HQ]%lookup_delete_Some. by apply Hm.
Qed.

Lemma inv_game_set_waitingPlayers q st :
  inv_game st → inv_game (set_waitingPlayers q st).
Proof. by intros [Hm Hg Ho]. Qed.

Lemma inv_game_matchWaiting stamp r1 r2 P st :
  inv_game st → inv_game (matchWaiting stamp r1 r2 P st).2.
Proof.
  intros Hig. destruct (waitingPlayers st) as [|W rest] eqn:Hq.
  { rewrite matchWaiting_empty by done. by apply inv_game_set_waitingPlayers. }
  destruct (decide (W = P)) as [->|Hne].
  { erewrite matchWaiting_self by done. by apply inv_game_set_waitingPlayers. }
  erewrite matchWaiting_pair by done. destruct Hig as [Hm Hg Ho]. split; simpl.
  - intros Q rid room q HQ. simpl. rewrite lookup_insert. case_decide as Hrid.
    + intros [= <-]. simpl. repeat case_decide; by intros [= <-].
    + simpl in HQ. rewrite !lookup_insert in HQ.
      repeat case_decide; try congruence. intros Hr. by eapply Hm.
  - intros rid room. rewrite lookup_insert. case_decide.
    + intros [= <-]. apply game_ok_newRoom.
    + apply Hg.
  - intros rid room. rewrite lookup_insert. case_decide.
    + intros [= <-]. exists W, (createPlayer W Left). split; [|done].
      apply omap_get_here.
    + apply Ho.
Qed.

Lemma set_connected_id p : connected p = true → set_connected true p = p.
Proof. destruct p. simpl. by intros ->. Qed.

Lemma store_room_id rid room st : rooms st !! rid = Some room → store_room rid room st = st.
Proof. intros Hr. destruct st. unfold store_room, set_rooms. simpl in *. by rewrite insert_id. Qed.

(** A join from a player that is mapped to a room holding it finds the
    player connected, and writes what is already there. *)
Lemma addPlayer_assigned stamp r1 r2 P rid room p st :
  inv st → inv_game st →
  playerToRoom st !! P = Some rid → rooms st !! rid = Some room →
  omap_get P (players room) = Some p →
  addPlayer stamp r1 r2 P st = (Some (mkJoinResult rid (side p) false None), st).
Proof.
  intros Hinv [Hm _ _] HP Hr Hp.
  assert (Hc : connected p = true) by by eapply Hm.
  rewrite (addPlayer_reconnect _ _ _ _ rid room p); [|by rewrite inv_truthy|done..].
  unfold update_player. rewrite omap_alter_id.
  2:{ intros v. rewrite Hp. intros [= <-]. by apply set_connected_id. }
  replace (set_players (players room) room) with room by by destruct room.
  rewrite set_slot_connected; [|by eapply (inv_rooms st Hinv)|done..].
  by rewrite store_room_id.
Qed.

Lemma inv_game_addPlayer stamp r1 r2 P st :
  inv st → inv_game st → inv_game (addPlayer stamp r1 r2 P st).2.
Proof.
  intros Hinv Hig. unfold addPlayer. rewrite inv_truthy by done.
  destruct (playerToRoom st !! P) as [rid|] eqn:HP;
    [|by apply inv_game_matchWaiting].
  destruct (rooms st !! rid) as [room|] eqn:Hr;
    [|by apply inv_game_matchWaiting, inv_game_purge].
  destruct (omap_get P (players room)) as [p|] eqn:Hp;
    [|by apply inv_game_matchWaiting, inv_game_purge].
  pose proof (addPlayer_assigned stamp r1 r2 P rid room p st Hinv Hig HP Hr Hp) as He.
  unfold addPlayer in He. rewrite inv_truthy, HP, Hr, Hp in He by done.
  by rewrite He.
Qed.

Lemma remaining_occupied P other others winner room :
  room_ok room → remainingPlayers P room = other :: others →
  occupied (forfeit winner room).
Proof.
  intros (A&B&pA&pB&Hne&Hpl&_) Hrem.
  assert (Hin : other ∈ remainingPlayers P room) by (rewrite Hrem; left).
  unfold remainingPlayers, omap_values in Hin. rewrite Hpl in Hin.
  apply list_elem_of_filter in Hin as [[_ Hc] Hin]. simpl in Hin.
  unfold occupied. change (players (forfeit winner room)) with (players room).
  rewrite Hpl.
  apply elem_of_cons in Hin as [->|Hin].
  - exists A, pA. by rewrite omap_get_here.
  - apply list_elem_of_singleton in Hin as ->.
    exists B, pB. by rewrite omap_get_next, omap_get_here.
Qed.

Lemma inv_game_removePlayer P st :
  inv st → inv_game st → inv_game (removePlayer P st).2.
Proof.
  intros Hinv Hig. unfold removePlayer.
  destruct (list_find _ _) as [[i w]|] eqn:Hfind.
  { by apply inv_game_set_waitingPlayers. }
  rewrite inv_truthy by done.
  destruct (playerToRoom st !! P) as [rid|] eqn:Hmap; [|done].
  destruct (rooms st !! rid) as [room|] eqn:Hr; [|by apply inv_game_purge].
  destruct (omap_get P (players room)) as [p|] eqn:Hp; [|by apply inv_game_purge].
  cbv zeta.
  change (set_slot (side p) None (update_player (set_connected false) P room))
    with (disconnect P p room).
  destruct Hig as [Hm Hg Ho].
  destruct (remainingPlayers P (disconnect P p room)) as [|other others] eqn:Hrem;
    simpl.
  - split.
    + intros Q rid' room' q. simpl.
      rewrite clearRoomInterval_rooms, clearRoomInterval_playerToRoom.
      intros [_ HQ]%lookup_delete_Some [_ Hr']%lookup_delete_Some Hq.
      exact (Hm _ _ _ _ HQ Hr' Hq).
    + intros rid' room'. simpl. rewrite clearRoomInterval_rooms.
      intros [_ Hr']%lookup_delete_Some. exact (Hg _ _ Hr').
    + intros rid' room'. simpl. rewrite clearRoomInterval_rooms.
      intros [_ Hr']%lookup_delete_Some. exact (Ho _ _ Hr').
  - split.
    + intros Q rid' room' q. simpl.
      rewrite clearRoomInterval_rooms, clearRoomInterval_playerToRoom. simpl.
      intros [HPQ HQ]%lookup_delete_Some. rewrite lookup_insert.
      case_decide as Hrid.
      * intros [= <-] Hq. subst rid'.
        assert (Hq' : omap_get Q (players (disconnect P p room)) = Some q)
          by exact Hq.
        rewrite disconnect_get, decide_False in Hq' by done.
        exact (Hm _ _ _ _ HQ Hr Hq').
      * intros Hr' Hq. exact (Hm _ _ _ _ HQ Hr' Hq).
    + intros rid' room'. simpl. rewrite clearRoomInterval_rooms. simpl.
      rewrite lookup_insert. case_decide.
      * intros [= <-]. by eapply game_ok_forfeit_disconnect, Hg.
      * apply Hg.
    + intros rid' room'. simpl. rewrite clearRoomInterval_rooms. simpl.
      rewrite lookup_insert. case_decide.
      * intros [= <-]. eapply remaining_occupied; [|done].
        apply room_ok_disconnect; [by eapply (inv_rooms st Hinv) | done].
      * apply Ho.
Qed.

Lemma inv_game_movePaddle P d st :
  inv st → inv_game st → inv_game (movePaddle P d st).2.
Proof.
  intros Hinv Hig.
  destruct (movePaddle_cases P d st) as [->|(rid&room&p&H&Hr&Hp&Hc)]; [done|].
  rewrite (movePaddle_moves _ _ _ _ _ _ H Hr Hp Hc). simpl.
  eapply inv_game_store; [done..| |].
  - apply (conn_eq_trans _ (update_player (set_paddle_y (movedY d (paddle_y (paddle p)))) P room));
      [by apply conn_eq_update | apply conn_eq_players, set_slot_players].
  - apply game_ok_slot, game_ok_movePaddle; [done|]. by eapply (inv_games st Hig).
Qed.

Lemma inv_game_startGame r1 r2 r3 rid st :
  inv st → inv_game st → inv_game (startGame r1 r2 r3 rid st).2.
Proof.
  intros Hinv Hig. unfold startGame.
  destruct (rooms st !! rid) as [room|] eqn:Hr; [|done].
  destruct (slot_player Left room) as [[l pl]|] eqn:Hl; [|done].
  destruct (slot_player Right room) as [[r pr]|] eqn:Hrt; [|done].
  destruct (negb (connected pl) || negb (connected pr)); [done|]. simpl.
  eapply inv_game_store; [done..| |].
  - set (room1 := set_gameState (set_winner None (set_gameActive true (gameState room))) room).
    set (room2 := update_player (set_score 0) l room1).
    set (room3 := update_player (set_score 0) r room2).
    apply (conn_eq_trans _ room3); [|by apply conn_eq_players].
    apply (conn_eq_trans _ room2); [|by apply conn_eq_update].
    apply (conn_eq_trans _ room1); [|by apply conn_eq_update].
    by apply conn_eq_players.
  - eapply game_ok_startGame; [by eapply (inv_rooms st Hinv)
      | by eapply (inv_games st Hig) | done..].
Qed.

Lemma inv_game_updateBall r1 r2 r3 rid st :
  inv st → inv_game st → inv_game (updateBall r1 r2 r3 rid st).2.
Proof.
  intros Hinv Hig. unfold updateBall.
  destruct (rooms st !! rid) as [room|] eqn:Hr; [|done].
  destruct (gameActive (gameState room)) eqn:Hact; simpl; [|done].
  pose proof (conn_eq_stepBall r1 r2 r3 room) as Heq.
  pose proof (game_ok_stepBall r1 r2 r3 room (inv_rooms st Hinv _ _ Hr)
                (inv_games st Hig _ _ Hr) Hact) as Hok.
  destruct (stepBall r1 r2 r3 room) as [scored room']. simpl in *.
  by eapply inv_game_store.
Qed.

Lemma inv_game_clearAllGames st : inv_game (clearAllGames st).
Proof. split; intros ?; intros; by rewrite ?lookup_empty in *. Qed.

Lemma inv_game_startGameLoop h rid st :
  inv_game st → inv_game (startGameLoop h rid st).
Proof.
  intros Hig. unfold startGameLoop, getRoom.
  destruct (rooms st !! rid) as [room|] eqn:Hr; [|done].
  eapply inv_game_store.
  - by apply inv_game_set_timers, inv_game_clearRoomInterval.
  - simpl. by rewrite clearRoomInterval_rooms.
  - by apply conn_eq_players.
  - apply game_ok_interval. by eapply (inv_games st Hig).
Qed.

Lemma inv_game_step st st' : step st st' → inv st → inv_game st → inv_game st'.
Proof.
  destruct 1; intros Hinv Hig;
    eauto using inv_game_addPlayer, inv_game_removePlayer, inv_game_movePaddle,
      inv_game_startGame, inv_game_updateBall, inv_game_clearAllGames,
      inv_game_startGameLoop.
Qed.

(** Every state of a manager that started empty satisfies both invariants. *)
Lemma reachable_inv_game st : reachable st → inv st ∧ inv_game st.
Proof.
  unfold reachable. intros Hr.
  apply (rtc_ind_r (R:=step) (λ st, inv st ∧ inv_game st) initial); [| |done].
  - split; [apply inv_initial | apply inv_game_initial].
  - intros y z _ Hs [Hy Hgy]. split; [by eapply inv_step | by eapply inv_game_step].
Qed.

(** ** What holds in every reachable state *)

Lemma reachable_step st st' : reachable st → step st st' → reachable st'.
Proof. intros Hr Hs. by eapply rtc_r. Qed.

Lemma getPlayerSide_unmapped P st :
  playerToRoom st !! P = None → getRoomByPlayer P st = None ∧ getPlayerSide P st = None.
Proof. intros HP. unfold getRoomByPlayer, getPlayerSide. by rewrite HP. Qed.

Lemma getPlayerSide_mapped P p rid room st :
  inv st → playerToRoom st !! P = Some rid → rooms st !! rid = Some room →
  omap_get P (players room) = Some p →
  getRoomByPlayer P st = Some room ∧ getPlayerSide P st = Some (side p).
Proof.
  intros Hinv HP Hr Hp. unfold getRoomByPlayer, getPlayerSide.
  rewrite inv_truthy by done. by rewrite HP, Hr, Hp.
Qed.

(** X1.  At most one player waits, and a waiting player has no room and no
    side. *)
Theorem waiting_queue_invariant st :
  reachable st →
  length (getWaitingPlayers st) ≤ 1 ∧
  ∀ P, P ∈ getWaitingPlayers st →
    getRoomByPlayer P st = None ∧ getPlayerSide P st = None.
Proof.
  intros Hinv%reachable_inv. split; [apply (inv_queue st Hinv)|].
  intros P HP. apply getPlayerSide_unmapped. by apply (inv_queued st Hinv).
Qed.

Lemma waiting_queue_invariant_witness :
  length (getWaitingPlayers demo_running) ≤ 1 ∧
  ∀ P, P ∈ getWaitingPlayers demo_running →
    getRoomByPlayer P demo_running = None ∧ getPlayerSide P demo_running = None.
Proof. apply (waiting_queue_invariant demo_running), demo_running_reachable. Defined.

(** X2.  Every stored room holds exactly two players with distinct ids, the
    first on the left and the second on the right; a slot holds its player
    exactly while that player is connected, and at least one of the two is
    connected. *)
Theorem room_seating_invariant rid room st :
  reachable st → getRoom rid st = Some room →
  ∃ A B pA pB,
    A ≠ B ∧ players room = [(A, pA); (B, pB)] ∧
    player_id pA = A ∧ side pA = Left ∧ player_id pB = B ∧ side pB = Right ∧
    slot_player Left room = (if connected pA then Some (A, pA) else None) ∧
    slot_player Right room = (if connected pB then Some (B, pB) else None) ∧
    (connected pA = true ∨ connected pB = true).
Proof.
  intros [Hinv Hig]%reachable_inv_game Hr.
  destruct (inv_rooms st Hinv _ _ Hr) as (A&B&pA&pB&Hne&Hpl&HA&HsA&HB&HsB&HL&HR).
  destruct (inv_occupied st Hig _ _ Hr) as (k&p&Hp&Hc).
  exists A, B, pA, pB. split_and!; try done.
  - unfold slot_player. simpl. rewrite HL. destruct (connected pA); [|done].
    simpl. by rewrite Hpl, omap_get_here.
  - unfold slot_player. simpl. rewrite HR. destruct (connected pB); [|done].
    simpl. by rewrite Hpl, omap_get_next, omap_get_here.
  - rewrite Hpl in Hp. simpl in Hp. repeat case_decide; simplify_eq; auto.
Qed.

Lemma room_seating_invariant_witness :
  ∃ A B pA pB,
    A ≠ B ∧ players demo_room = [(A, pA); (B, pB)] ∧
    player_id pA = A ∧ side pA = Left ∧ player_id pB = B ∧ side pB = Right ∧
    slot_player Left demo_room = (if connected pA then Some (A, pA) else None) ∧
    slot_player Right demo_room = (if connected pB then Some (B, pB) else None) ∧
    (connected pA = true ∨ connected pB = true).
Proof.
  apply (room_seating_invariant "room_2_b" demo_room demo_running);
    [apply demo_running_reachable | apply demo_running_room].
Defined.

(** X3.  A player of a stored room is connected exactly when the manager
    maps its id to that room; the lookups by player id then answer with that
    room and the player's side. *)
Theorem connected_iff_mapped P p rid room st :
  reachable st → getRoom rid st = Some room →
  omap_get P (players room) = Some p →
  (connected p = true ↔ playerToRoom st !! P = Some rid) ∧
  (connected p = true →
   getRoomByPlayer P st = Some room ∧ getPlayerSide P st = Some (side p)).
Proof.
  intros [Hinv Hig]%reachable_inv_game Hr Hp.
  assert (Hc : connected p = true → playerToRoom st !! P = Some rid)
    by (intros Hc; by eapply (inv_connected st Hinv)).
  split; [split; [done|]|].
  - intros HP. by eapply (inv_mapped st Hig).
  - intros HP%Hc. by eapply getPlayerSide_mapped.
Qed.

Lemma connected_iff_mapped_witness :
  (connected demo_playerA = true ↔ playerToRoom demo_running !! "A" = Some "room_2_b") ∧
  (connected demo_playerA = true →
   getRoomByPlayer "A" demo_running = Some demo_room ∧
   getPlayerSide "A" demo_running = Some (side demo_playerA)).
Proof.
  apply (connected_iff_mapped "A" demo_playerA "room_2_b" demo_room demo_running);
    [apply demo_running_reachable | apply demo_running_room | done].
Defined.

Lemma bothPlayersConnected_slots rid room st :
  rooms st !! rid = Some room → bothPlayersConnected rid st = slotsConnected room.
Proof. intros Hr. unfold bothPlayersConnected. by rewrite Hr. Qed.

Lemma slotsConnected_all room :
  room_ok room →
  slotsConnected room = true ↔
  ∀ k p, omap_get k (players room) = Some p → connected p = true.
Proof.
  intros Hok. unfold slotsConnected. split.
  - destruct (slot_player Left room) as [[l pl]|] eqn:Hl; [|done].
    destruct (slot_player Right room) as [[r pr]|] eqn:Hr; [|done].
    destruct (room_ok_slots _ _ _ _ _ Hok Hl Hr) as (Hne&Hpl&Hcl&Hcr).
    intros _ k p. rewrite Hpl. simpl. repeat case_decide; by intros [= <-].
  - intros Hall.
    destruct (room_ok_connected_slots room Hok Hall) as (l&pl&r&pr&Hl&Hr).
    rewrite Hl, Hr.
    destruct (room_ok_slots _ _ _ _ _ Hok Hl Hr) as (Hne&Hpl&-> &->). done.
Qed.

(** X4.  A game that runs has no winner, both of its players are connected
    and have fewer than five points. *)
Theorem running_game_invariant rid room st :
  reachable st → getRoom rid st = Some room →
  gameActive (gameState room) = true →
  winner (gameState room) = None ∧ bothPlayersConnected rid st = true ∧
  ∀ k p, omap_get k (players room) = Some p →
    connected p = true ∧ (0 ≤ score p < 5)%Z.
Proof.
  intros [Hinv Hig]%reachable_inv_game Hr Hact.
  destruct (inv_games st Hig _ _ Hr) as [H1 _ H3]. rewrite Hact in H3.
  split; [by apply H1|]. split.
  - rewrite (bothPlayersConnected_slots _ _ _ Hr).
    apply slotsConnected_all; [by eapply (inv_rooms st Hinv)|].
    intros k p Hp. by apply (H3 _ _ Hp).
  - intros k p Hp. destruct (H3 _ _ Hp) as (Hc&Hs&Hlt&_).
    split; [by apply Hc|]. specialize (Hlt eq_refl). unfold WIN_SCORE in *. lia.
Qed.

Lemma running_game_invariant_witness :
  winner (gameState demo_room) = None ∧
  bothPlayersConnected "room_2_b" demo_running = true ∧
  ∀ k p, omap_get k (players demo_room) = Some p →
    connected p = true ∧ (0 ≤ score p < 5)%Z.
Proof.
  apply (running_game_invariant "room_2_b" demo_room demo_running);
    [apply demo_running_reachable | apply demo_running_room | done].
Defined.

(** X5.  A score is never negative and never above five, and a player with
    five points is in a game that has ended. *)
Theorem score_bounds P p rid room st :
  reachable st → getRoom rid st = Some room →
  omap_get P (players room) = Some p →
  (0 ≤ score p ≤ 5)%Z ∧ (score p = 5%Z → gameActive (gameState room) = false).
Proof.
  intros [Hinv Hig]%reachable_inv_game Hr Hp.
  destruct (inv_games st Hig _ _ Hr) as [_ _ H3].
  destruct (H3 _ _ Hp) as (_&Hs&Hlt&_). split; [exact Hs|].
  intros H5. destruct (gameActive (gameState room)); [|done].
  specialize (Hlt eq_refl). unfold WIN_SCORE in *. lia.
Qed.

Lemma score_bounds_witness :
  (0 ≤ score demo_playerA ≤ 5)%Z ∧
  (score demo_playerA = 5%Z → gameActive (gameState demo_room) = false).
Proof.
  apply (score_bounds "A" demo_playerA "room_2_b" demo_room demo_running);
    [apply demo_running_reachable | apply demo_running_room | done].
Defined.

(** X6.  The ball of a stored room moves at speed 3 along each axis and lies
    inside the field: its left edge between 0 and 800, its top edge between
    0 and 380. *)
Theorem ball_in_field rid room st :
  reachable st → getRoom rid st = Some room →
  let b := ball (gameState room) in
  (Qabs (ball_vx b) == 3)%Q ∧ (Qabs (ball_vy b) == 3)%Q ∧
  (0 <= ball_x b <= 800)%Q ∧ (0 <= ball_y b <= 380)%Q.
Proof.
  intros [Hinv Hig]%reachable_inv_game Hr b.
  destruct (inv_games st Hig _ _ Hr) as [_ (Hvx&Hvy&Hx&Hy) _].
  unfold BALL_SPEED, GAME_WIDTH, GAME_HEIGHT, BALL_SIZE in *.
  split; [exact Hvx|]. split; [exact Hvy|]. split; [exact Hx|].
  fold b in Hy. lra.
Qed.

Lemma ball_in_field_witness :
  let b := ball (gameState demo_room) in
  (Qabs (ball_vx b) == 3)%Q ∧ (Qabs (ball_vy b) == 3)%Q ∧
  (0 <= ball_x b <= 800)%Q ∧ (0 <= ball_y b <= 380)%Q.
Proof.
  apply (ball_in_field "room_2_b" demo_room demo_running);
    [apply demo_running_reachable | apply demo_running_room].
Defined.

(** X7.  A paddle never leaves its column (x = 20 on the left, x = 760 on the
    right) and stays inside the field (y between 0 and 320). *)
Theorem paddle_in_column P p rid room st :
  reachable st → getRoom rid st = Some room →
  omap_get P (players room) = Some p →
  (paddle_x (paddle p) == match side p with Left => 20 | Right => 760 end)%Q ∧
  (0 <= paddle_y (paddle p) <= 320)%Q.
Proof.
  intros [Hinv Hig]%reachable_inv_game Hr Hp.
  destruct (inv_games st Hig _ _ Hr) as [_ _ H3].
  destruct (H3 _ _ Hp) as (_&_&_&Hx&Hy).
  unfold GAME_WIDTH, GAME_HEIGHT, PADDLE_WIDTH, PADDLE_HEIGHT in *.
  split; [destruct (side p); lra | lra].
Qed.

Lemma paddle_in_column_witness :
  (paddle_x (paddle demo_playerB) ==
     match side demo_playerB with Left => 20 | Right => 760 end)%Q ∧
  (0 <= paddle_y (paddle demo_playerB) <= 320)%Q.
Proof.
  apply (paddle_in_column "B" demo_playerB "room_2_b" demo_room demo_running);
    [apply demo_running_reachable | apply demo_running_room | done].
Defined.

(** ** Joining and leaving *)

Lemma assigned_inv P st :
  inv st → assigned P st →
  ∃ rid room p, playerToRoom st !! P = Some rid ∧ rooms st !! rid = Some room ∧
                omap_get P (players room) = Some p.
Proof. intros Hinv (rid&room&HP&_&Hr&[p Hp]). by exists rid, room, p. Qed.

(** X8.  A join from a player that is assigned to a session changes nothing
    at all: the answer names the player's room and side, and the manager is
    left exactly as it was. *)
Theorem join_assigned_changes_nothing stamp r1 r2 P st :
  reachable st → assigned P st →
  ∃ rid s,
    addPlayer stamp r1 r2 P st = (Some (mkJoinResult rid s false None), st) ∧
    playerToRoom st !! P = Some rid ∧ getPlayerSide P st = Some s.
Proof.
  intros [Hinv Hig]%reachable_inv_game Has.
  destruct (assigned_inv P st Hinv Has) as (rid&room&p&HP&Hr&Hp).
  exists rid, (side p). split; [by eapply addPlayer_assigned|]. split; [done|].
  by eapply getPlayerSide_mapped.
Qed.

Lemma demo_running_assigned : assigned "A" demo_running.
Proof.
  exists "room_2_b", demo_room. split_and!; [by vm_compute | done | by vm_compute |].
  by exists demo_playerA.
Qed.

Lemma join_assigned_changes_nothing_witness :
  ∃ rid s,
    addPlayer "9_z" 0.1 0.9 "A" demo_running =
      (Some (mkJoinResult rid s false None), demo_running) ∧
    playerToRoom demo_running !! "A" = Some rid ∧
    getPlayerSide "A" demo_running = Some s.
Proof.
  apply (join_assigned_changes_nothing "9_z" 0.1 0.9 "A" demo_running);
    [apply demo_running_reachable | apply demo_running_assigned].
Defined.

(** The two ways in which [addPlayer] ends for a player that is not assigned:
    it waits, or it is paired with the head of the queue. *)
Lemma matchWaiting_cases stamp r1 r2 P st :
  (∃ q, matchWaiting stamp r1 r2 P st = (None, set_waitingPlayers q st) ∧ P ∈ q) ∨
  (∃ W rest, waitingPlayers st = W :: rest ∧ W ≠ P ∧
     matchWaiting stamp r1 r2 P st =
       (Some (mkJoinResult ("room_" +:+ stamp) Right true (Some W)),
        {| rooms := <["room_" +:+ stamp := newRoom stamp r1 r2 W P]> (rooms st);
           waitingPlayers := rest;
           playerToRoom := <[P := "room_" +:+ stamp]>
                             (<[W := "room_" +:+ stamp]> (playerToRoom st));
           timers := timers st |})).
Proof.
  destruct (waitingPlayers st) as [|W rest] eqn:Hq.
  { left. exists [P]. split; [by apply matchWaiting_empty | set_solver]. }
  destruct (decide (W = P)) as [->|Hne].
  { left. exists (rest ++ [P]). split; [by apply matchWaiting_self | set_solver]. }
  right. exists W, rest. split_and!; [done..|]. by apply matchWaiting_pair.
Qed.

Lemma addPlayer_cases stamp r1 r2 P st :
  inv st → inv_game st →
  (∃ rid room p, playerToRoom st !! P = Some rid ∧ rooms st !! rid = Some room ∧
     omap_get P (players room) = Some p ∧
     addPlayer stamp r1 r2 P st = (Some (mkJoinResult rid (side p) false None), st)) ∨
  (∃ st0, addPlayer stamp r1 r2 P st = matchWaiting stamp r1 r2 P st0 ∧
     (st0 = st ∨ st0 = purge P st) ∧ playerToRoom st0 !! P = None).
Proof.
  intros Hinv Hig.
  destruct (playerToRoom st !! P) as [rid|] eqn:HP.
  2:{ right. exists st. split_and!; [|by left|done].
      apply addPlayer_unmapped. by rewrite HP. }
  assert (Hstale : (∀ room, rooms st !! rid = Some room →
             omap_get P (players room) = None) →
           ∃ st0, addPlayer stamp r1 r2 P st = matchWaiting stamp r1 r2 P st0 ∧
             (st0 = st ∨ st0 = purge P st) ∧ playerToRoom st0 !! P = None).
  { intros Hno. exists (purge P st). split_and!; [|by right|].
    - eapply addPlayer_stale; [|done]. by rewrite inv_truthy.
    - simpl. apply lookup_delete_eq. }
  destruct (rooms st !! rid) as [room|] eqn:Hr; [|right; by apply Hstale].
  destruct (omap_get P (players room)) as [p|] eqn:Hp.
  - left. exists rid, room, p. split_and!; [done..|]. by eapply addPlayer_assigned.
  - right. apply Hstale. by intros ? [= <-].
Qed.

(** X9.  The lookups by player id agree with the answer of a join: when
    [addPlayer] answers with a room and a side, the player is then found in
    that room, in the slot of that side, and so is the partner it names, on
    the left; when it answers [null], the player waits and has no side. *)
Theorem join_then_lookup stamp r1 r2 P st :
  reachable st →
  let res := addPlayer stamp r1 r2 P st in
  match res.1 with
  | Some jr =>
      getPlayerSide P res.2 = Some (join_side jr) ∧
      ∃ room, getRoom (roomId jr) res.2 = Some room ∧
              getRoomByPlayer P res.2 = Some room ∧
              slot (join_side jr) room = Some P ∧
              ∀ W, waitingPlayerId jr = Some W →
                   W ≠ P ∧ getPlayerSide W res.2 = Some Left ∧
                   getRoomByPlayer W res.2 = Some room ∧ slot Left room = Some W
  | None =>
      P ∈ getWaitingPlayers res.2 ∧ getPlayerSide P res.2 = None ∧
      getRoomByPlayer P res.2 = None
  end.
Proof.
  intros Hreach res. pose proof Hreach as [Hinv Hig]%reachable_inv_game.
  assert (Hreach' : reachable res.2) by (eapply reachable_step; [done|constructor]).
  pose proof Hreach' as [Hinv' Hig']%reachable_inv_game.
  subst res.
  destruct (addPlayer_cases stamp r1 r2 P st Hinv Hig)
    as [(rid&room&p&HP&Hr&Hp&He)|(st0&He&Hst0&HP0)].
  - rewrite He in *. simpl.
    destruct (getPlayerSide_mapped _ _ _ _ _ Hinv HP Hr Hp) as [HgR HgS].
    split; [done|]. exists room. split_and!; [done..| |done].
    destruct (room_ok_player _ _ _ (inv_rooms st Hinv _ _ Hr) Hp) as (_&Hs&_).
    apply Hs. by eapply (inv_mapped st Hig).
  - rewrite He in *.
    destruct (matchWaiting_cases stamp r1 r2 P st0)
      as [(q&Hm&Hq)|(W&rest&Hw&Hne&Hm)]; rewrite Hm in *; simpl.
    + split; [done|].
      by destruct (getPlayerSide_unmapped P (set_waitingPlayers q st0) HP0).
    + set (rid := "room_" +:+ stamp) in *.
      set (st' := mkState _ _ _ _) in *.
      assert (Hr : rooms st' !! rid = Some (newRoom stamp r1 r2 W P))
        by apply lookup_insert_eq.
      assert (HP : playerToRoom st' !! P = Some rid) by apply lookup_insert_eq.
      assert (HW : playerToRoom st' !! W = Some rid).
      { simpl. rewrite lookup_insert_ne by done. apply lookup_insert_eq. }
      assert (HgP : omap_get P (players (newRoom stamp r1 r2 W P))
                    = Some (createPlayer P Right)).
      { simpl. by rewrite decide_False, decide_True. }
      assert (HgW : omap_get W (players (newRoom stamp r1 r2 W P))
                    = Some (createPlayer W Left)).
      { simpl. by rewrite decide_True. }
      destruct (getPlayerSide_mapped _ _ _ _ _ Hinv' HP Hr HgP) as [? ?].
      destruct (getPlayerSide_mapped _ _ _ _ _ Hinv' HW Hr HgW) as [? ?].
      split; [done|]. exists (newRoom stamp r1 r2 W P).
      split_and!; [done..|]. by intros ? [= <-].
Qed.

Lemma join_then_lookup_witness :
  let res := addPlayer "3_c" 0.3 0.7 "C" demo_running in
  match res.1 with
  | Some jr =>
      getPlayerSide "C" res.2 = Some (join_side jr) ∧
      ∃ room, getRoom (roomId jr) res.2 = Some room ∧
              getRoomByPlayer "C" res.2 = Some room ∧
              slot (join_side jr) room = Some "C" ∧
              ∀ W, waitingPlayerId jr = Some W →
                   W ≠ "C" ∧ getPlayerSide W res.2 = Some Left ∧
                   getRoomByPlayer W res.2 = Some room ∧ slot Left room = Some W
  | None =>
      "C" ∈ getWaitingPlayers res.2 ∧ getPlayerSide "C" res.2 = None ∧
      getRoomByPlayer "C" res.2 = None
  end.
Proof.
  apply (join_then_lookup "3_c" 0.3 0.7 "C" demo_running), demo_running_reachable.
Defined.

Lemma removePlayer_forgets P st :
  inv st →
  (P ∉ waitingPlayers (removePlayer P st).2) ∧
  playerToRoom (removePlayer P st).2 !! P = None.
Proof.
  intros Hinv. unfold removePlayer.
  destruct (list_find _ _) as [[i w]|] eqn:Hfind.
  { apply list_find_Some in Hfind as (Hi&->&_). simpl.
    pose proof (inv_queue st Hinv) as Hlen.
    pose proof (inv_queued st Hinv P) as Hq.
    destruct (waitingPlayers st) as [|w [|w' q]]; simpl in *; [done| |lia].
    destruct i; simplify_eq/=. split; [set_solver|]. apply Hq. set_solver. }
  assert (Hnq : P ∉ waitingPlayers st).
  { intros Hin. apply (list_find_elem_of (λ w, w = P)) in Hin as [? ?]; [|done].
    congruence. }
  rewrite inv_truthy by done.
  destruct (playerToRoom st !! P) as [rid|] eqn:Hmap; [|done].
  assert (Hpurge : (P ∉ waitingPlayers (purge P st)) ∧
                   playerToRoom (purge P st) !! P = None).
  { split; [done|]. simpl. apply lookup_delete_eq. }
  destruct (rooms st !! rid) as [room|] eqn:Hr; [|done].
  destruct (omap_get P (players room)) as [p|] eqn:Hp; [|done].
  cbv zeta.
  destruct (remainingPlayers P _) as [|other others]; simpl.
  - rewrite clearRoomInterval_waitingPlayers.
    split; [done | apply lookup_delete_eq].
  - rewrite clearRoomInterval_waitingPlayers. simpl.
    split; [done | apply lookup_delete_eq].
Qed.

(** X10.  After [removePlayer] the manager has forgotten the player: it is
    not in the queue, has no room and no side, a second [removePlayer] and a
    paddle move answer [null] and change nothing. *)
Theorem leave_forgets_player P d st :
  reachable st →
  let st' := (removePlayer P st).2 in
  (P ∉ getWaitingPlayers st') ∧
  getRoomByPlayer P st' = None ∧ getPlayerSide P st' = None ∧
  removePlayer P st' = (None, st') ∧ movePaddle P d st' = (None, st').
Proof.
  intros Hinv%reachable_inv st'.
  destruct (removePlayer_forgets P st Hinv) as [Hq HP]. fold st' in Hq, HP.
  destruct (getPlayerSide_unmapped P st' HP) as [? ?].
  split_and!; [done..| |].
  - apply removePlayer_unmapped; [done | by rewrite HP].
  - unfold movePaddle. by rewrite HP.
Qed.

Lemma leave_forgets_player_witness :
  let st' := (removePlayer "A" demo_running).2 in
  ("A" ∉ getWaitingPlayers st') ∧
  getRoomByPlayer "A" st' = None ∧ getPlayerSide "A" st' = None ∧
  removePlayer "A" st' = (None, st') ∧ movePaddle "A" Up st' = (None, st').
Proof.
  apply (leave_forgets_player "A" Up demo_running), demo_running_reachable.
Defined.

(** X11.  A player that left never gets its seat back: a join after
    [removePlayer] puts the player in the queue or pairs it, as the right
    player of a room made for this pairing, with the player that waited. *)
Theorem rejoin_is_a_new_match stamp r1 r2 P st :
  reachable st →
  let st' := (removePlayer P st).2 in
  let res := addPlayer stamp r1 r2 P st' in
  match res.1 with
  | None => getWaitingPlayers res.2 = [P]
  | Some jr =>
      roomId jr = "room_" +:+ stamp ∧ join_side jr = Right ∧ isNewGame jr = true ∧
      ∃ W, waitingPlayerId jr = Some W ∧ W ≠ P ∧ getWaitingPlayers st' = [W] ∧
           getRoom (roomId jr) res.2 = Some (newRoom stamp r1 r2 W P)
  end.
Proof.
  intros Hreach st' res. pose proof Hreach as Hinv%reachable_inv.
  destruct (removePlayer_forgets P st Hinv) as [Hq HP]. fold st' in Hq, HP.
  assert (Hinv' : inv st') by by apply inv_removePlayer.
  subst res. rewrite addPlayer_unmapped by by rewrite HP.
  pose proof (inv_queue st' Hinv') as Hlen.
  destruct (waitingPlayers st') as [|W [|W' q]] eqn:Hw; simpl in Hlen; [| |lia].
  - rewrite matchWaiting_empty by done. done.
  - assert (W ≠ P) by (intros ->; apply Hq; set_solver).
    erewrite matchWaiting_pair by done. simpl. split_and!; [done..|].
    exists W. split_and!; [done..|]. unfold getRoom. simpl. apply lookup_insert_eq.
Qed.

Lemma rejoin_is_a_new_match_witness :
  let st' := (removePlayer "A" demo_running).2 in
  let res := addPlayer "4_d" 0.3 0.7 "A" st' in
  match res.1 with
  | None => getWaitingPlayers res.2 = ["A"]
  | Some jr =>
      roomId jr = "room_" +:+ "4_d" ∧ join_side jr = Right ∧ isNewGame jr = true ∧
      ∃ W, waitingPlayerId jr = Some W ∧ W ≠ "A" ∧ getWaitingPlayers st' = [W] ∧
           getRoom (roomId jr) res.2 = Some (newRoom "4_d" 0.3 0.7 W "A")
  end.
Proof.
  apply (rejoin_is_a_new_match "4_d" 0.3 0.7 "A" demo_running), demo_running_reachable.
Defined.

(** ** Teardown, start and ticks *)

Lemma clearIntervals_fold (m : gmap string GameRoom) st :
  let st' := map_fold (λ _ room st, clearRoomInterval room st) st m in
  timers st' ⊆ timers st ∧
  ∀ rid room h, m !! rid = Some room → gameLoopIntervalId room = Some h →
    h ∉ timers st'.
Proof.
  cbv zeta.
  apply (map_fold_weak_ind (λ st' m,
    timers st' ⊆ timers st ∧
    ∀ rid room h, m !! rid = Some room → gameLoopIntervalId room = Some h →
      h ∉ timers st')).
  { split; [done|]. intros rid room h. by rewrite lookup_empty. }
  intros i room m' st' Hi [Hsub Hall].
  assert (Hsub' : timers (clearRoomInterval room st') ⊆ timers st').
  { unfold clearRoomInterval.
    destruct (gameLoopIntervalId room); simpl; [|done].
    by apply subseteq_difference_l. }
  split; [set_solver|].
  intros rid room' h. rewrite lookup_insert. case_decide.
  - intros [= <-] Hh. by apply clearRoomInterval_stops.
  - intros Hr Hh Hin. apply (Hall rid room' h Hr Hh). set_solver.
Qed.

(** X12.  [clearAllGames] empties the manager and stops the tick timer of
    every room that it held; it starts no timer. *)
Theorem clearAllGames_stops_everything st :
  let st' := clearAllGames st in
  rooms st' = ∅ ∧ getWaitingPlayers st' = [] ∧ playerToRoom st' = ∅ ∧
  timers st' ⊆ timers st ∧
  ∀ rid room h, getRoom rid st = Some room → gameLoopIntervalId room = Some h →
    h ∉ timers st'.
Proof.
  destruct (clearIntervals_fold (rooms st) st) as [Hsub Hall].
  cbv zeta. split_and!; [done..| |]; [exact Hsub | exact Hall].
Qed.

Lemma startGame_answer r1 r2 r3 rid st :
  (startGame r1 r2 r3 rid st).1 = bothPlayersConnected rid st ∧
  (bothPlayersConnected rid st = false → (startGame r1 r2 r3 rid st).2 = st).
Proof.
  unfold startGame, bothPlayersConnected.
  destruct (rooms st !! rid) as [room|]; [|done].
  destruct (slot_player Left room) as [[l pl]|]; [|done].
  destruct (slot_player Right room) as [[r pr]|]; [|done].
  by destruct (connected pl), (connected pr).
Qed.

(** X13.  [startGame] succeeds exactly when [bothPlayersConnected] holds of
    the room, and a failed start changes nothing. *)
Theorem startGame_iff_both_connected r1 r2 r3 rid st :
  (startGame r1 r2 r3 rid st).1 = bothPlayersConnected rid st ∧
  (bothPlayersConnected rid st = false → (startGame r1 r2 r3 rid st).2 = st).
Proof. apply startGame_answer. Qed.

(** X14.  In a reachable state [bothPlayersConnected] holds of a room
    exactly when every player of the room is connected; a start then makes
    the game active with no winner, puts the ball in the centre and sets the
    score of every player of the room to zero, and touches nothing else. *)
Theorem startGame_resets r1 r2 r3 rid room st :
  reachable st → getRoom rid st = Some room →
  (bothPlayersConnected rid st = true ↔
   ∀ k p, omap_get k (players room) = Some p → connected p = true) ∧
  (bothPlayersConnected rid st = true →
   ∃ room',
     startGame r1 r2 r3 rid st = (true, store_room rid room' st) ∧
     gameActive (gameState room') = true ∧ winner (gameState room') = None ∧
     (ball_x (ball (gameState room')) == 400)%Q ∧
     (ball_y (ball (gameState room')) == 200)%Q ∧
     slot Left room' = slot Left room ∧ slot Right room' = slot Right room ∧
     gameLoopIntervalId room' = gameLoopIntervalId room ∧
     ∀ k, omap_get k (players room') = set_score 0 <$> omap_get k (players room)).
Proof.
  intros Hinv%reachable_inv Hr. unfold getRoom in Hr.
  pose proof (inv_rooms st Hinv _ _ Hr) as Hok.
  rewrite (bothPlayersConnected_slots _ _ _ Hr).
  split; [by apply slotsConnected_all|].
  unfold startGame, slotsConnected. rewrite Hr.
  destruct (slot_player Left room) as [[l pl]|] eqn:Hl; [|done].
  destruct (slot_player Right room) as [[r pr]|] eqn:Hrt; [|done].
  destruct (room_ok_slots _ _ _ _ _ Hok Hl Hrt) as (Hne&Hpl&Hcl&Hcr).
  rewrite Hcl, Hcr. intros _. simpl. eexists. split; [done|].
  destruct (resetBall_ball r1 r2 r3
    (set_winner None (set_gameActive true (gameState room)))) as (Hx&Hy&_).
  split_and!; [done|done|exact Hx|exact Hy|done..|].
  intros k. simpl. rewrite !omap_get_alter. rewrite Hpl. simpl.
  repeat case_decide; simplify_eq; done.
Qed.

Lemma startGame_resets_witness :
  (bothPlayersConnected "room_2_b" demo_running = true ↔
   ∀ k p, omap_get k (players demo_room) = Some p → connected p = true) ∧
  (bothPlayersConnected "room_2_b" demo_running = true →
   ∃ room',
     startGame 0.3 0.7 0.1 "room_2_b" demo_running =
       (true, store_room "room_2_b" room' demo_running) ∧
     gameActive (gameState room') = true ∧ winner (gameState room') = None ∧
     (ball_x (ball (gameState room')) == 400)%Q ∧
     (ball_y (ball (gameState room')) == 200)%Q ∧
     slot Left room' = slot Left demo_room ∧ slot Right room' = slot Right demo_room ∧
     gameLoopIntervalId room' = gameLoopIntervalId demo_room ∧
     ∀ k, omap_get k (players room') = set_score 0 <$> omap_get k (players demo_room)).
Proof.
  apply (startGame_resets 0.3 0.7 0.1 "room_2_b" demo_room demo_running);
    [apply demo_running_reachable | apply demo_running_room].
Defined.

Lemma ticks_inactive rnd n rid st :
  (∀ room, rooms st !! rid = Some room → gameActive (gameState room) = false) →
  ticks rnd n rid st = st.
Proof.
  intros Hin. induction n as [|n IH]; [done|].
  rewrite ticks_S, IH. unfold tick, updateBall.
  destruct (rooms st !! rid) as [room|] eqn:Hr; [|done].
  by rewrite (Hin room).
Qed.

(** X15.  A room that a player has left is frozen: the room is gone or its
    game is inactive, the game cannot be started, and ticks of the room, in
    any number, change nothing. *)
Theorem leave_freezes_room r1 r2 r3 rnd n P rr st :
  (removePlayer P st).1 = Some rr →
  let st' := (removePlayer P st).2 in
  let rid := removed_roomId rr in
  (∀ room, getRoom rid st' = Some room → gameActive (gameState room) = false) ∧
  bothPlayersConnected rid st' = false ∧
  startGame r1 r2 r3 rid st' = (false, st') ∧
  (tick (rnd n) rid st').1 = false ∧
  ticks rnd n rid st' = st'.
Proof.
  intros Hres st' rid.
  assert (Hroom : rooms st' !! rid = None ∨
    ∃ room', rooms st' !! rid = Some room' ∧ gameActive (gameState room') = false ∧
             ∃ s, slot s room' = None).
  { subst st' rid. revert Hres. unfold removePlayer.
    destruct (list_find _ _) as [[i w]|]; [done|].
    destruct (truthy _) as [rid|]; [|done].
    destruct (rooms st !! rid) as [room|] eqn:Hr; [|done].
    destruct (omap_get P (players room)) as [p|]; [|done]. cbv zeta.
    destruct (remainingPlayers P _) as [|other others]; simpl; intros [= <-]; simpl.
    - left. rewrite clearRoomInterval_rooms. simpl. apply lookup_delete_eq.
    - right. rewrite clearRoomInterval_rooms. simpl. rewrite lookup_insert_eq.
      eexists. split; [done|]. split; [done|]. exists (side p). by destruct (side p). }
  assert (Hin : ∀ room, rooms st' !! rid = Some room →
                        gameActive (gameState room) = false).
  { intros room Hr. destruct Hroom as [?|(room'&?&?&_)]; congruence. }
  assert (Hboth : bothPlayersConnected rid st' = false).
  { unfold bothPlayersConnected.
    destruct Hroom as [->|(room'&->&_&s&Hs)]; [done|].
    destruct s.
    - unfold slot_player at 1. by rewrite Hs.
    - destruct (slot_player Left room') as [[? ?]|]; [|done].
      unfold slot_player. by rewrite Hs. }
  destruct (startGame_answer r1 r2 r3 rid st') as [H1 H2].
  split; [exact Hin|]. split; [exact Hboth|]. split.
  { rewrite (surjective_pairing (startGame r1 r2 r3 rid st')).
    by rewrite H1, H2, Hboth. }
  split; [|by apply ticks_inactive].
  unfold tick, updateBall. destruct (rooms st' !! rid) as [room|] eqn:Hr; [|done].
  by rewrite (Hin room).
Qed.

Lemma leave_freezes_room_witness :
  let st' := (removePlayer "A" demo_running).2 in
  (∀ room, getRoom "room_2_b" st' = Some room → gameActive (gameState room) = false) ∧
  bothPlayersConnected "room_2_b" st' = false ∧
  startGame 0.3 0.7 0.1 "room_2_b" st' = (false, st') ∧
  (tick (demo_rnd 100) "room_2_b" st').1 = false ∧
  ticks demo_rnd 100 "room_2_b" st' = st'.
Proof.
  apply (leave_freezes_room 0.3 0.7 0.1 demo_rnd 100 "A"
           (mkRemoveResult "room_2_b" Left) demo_running).
  by vm_compute.
Defined.

(** X16.  Of the three random values that [resetBall] is given, the third
    is never used: the vertical speed drawn first is never below the
    threshold that would replace it. *)
Theorem resetBall_third_draw_unused r1 r2 r3 r3' gs :
  resetBall r1 r2 r3 gs = resetBall r1 r2 r3' gs.
Proof. unfold resetBall, random_sign. by destruct (Qltb 0.5 r2). Qed.

(** ** The tick, continued *)

Lemma reachable_ticks rnd n rid st : reachable st → reachable (ticks rnd n rid st).
Proof.
  intros Hr. induction n as [|n IH]; [done|].
  rewrite ticks_S. eapply reachable_step; [done|]. unfold tick. constructor.
Qed.

Lemma reachable_movePaddles intents st :
  reachable st → reachable (movePaddles intents st).
Proof.
  revert st. induction intents as [|[P d] intents IH]; intros st Hr; [done|].
  apply IH. eapply reachable_step; [done|]. constructor.
Qed.

Lemma demo_before_score_reachable : reachable demo_before_score.
Proof. apply reachable_ticks, reachable_movePaddles, demo_running_reachable. Qed.

Lemma demo_before_score_lookup :
  rooms demo_before_score !! "room_2_b" = Some demo_before_score_room.
Proof. by vm_compute. Qed.

(** X17.  The answer of [updateBall] on a running game tells whether a point
    was scored: when it is [true], exactly one player of the room has one
    point more, the stored player being otherwise the same and the other
    player untouched, and the ball is back in the centre; when it is
    [false], no score has changed, and the game still runs without a
    winner. *)
Theorem tick_scores_one_point r1 r2 r3 rid room st :
  reachable st → getRoom rid st = Some room →
  gameActive (gameState room) = true →
  let res := updateBall r1 r2 r3 rid st in
  ∃ room',
    res.2 = store_room rid room' st ∧
    (res.1 = true →
     ∃ k p p',
       omap_get k (players room) = Some p ∧
       omap_get k (players room') = Some p' ∧
       score p' = (score p + 1)%Z ∧
       player_id p' = player_id p ∧ side p' = side p ∧
       connected p' = connected p ∧ paddle p' = paddle p ∧
       (∀ k', k' ≠ k → omap_get k' (players room') = omap_get k' (players room)) ∧
       players room' = omap_alter addPoint k (players room) ∧
       (ball_x (ball (gameState room')) == 400)%Q ∧
       (ball_y (ball (gameState room')) == 200)%Q) ∧
    (res.1 = false →
     players room' = players room ∧
     gameActive (gameState room') = true ∧ winner (gameState room') = None).
Proof.
  intros [Hinv Hig]%reachable_inv_game Hr Hact res. unfold getRoom in Hr.
  subst res. rewrite (updateBall_active _ _ _ _ _ _ Hr Hact). simpl.
  exists (stepBall r1 r2 r3 room).2. split; [done|].
  pose proof (inv_rooms st Hinv _ _ Hr) as Hok.
  destruct (inv_games st Hig _ _ Hr) as [H1 _ H3]. rewrite Hact in H3.
  destruct (room_ok_connected_slots room Hok) as (l&pl&r&pr&Hl&Hrt).
  { intros k p Hp. by apply (H3 _ _ Hp). }
  destruct (stepBall_cases r1 r2 r3 room) as [b Hc]. cbv zeta in Hc.
  destruct Hc as [-> | [t ->]]; simpl.
  { split; [done|]. intros _. split; [done|]. split; [done | by apply H1]. }
  split; [|done]. intros _.
  assert (∃ k p, slot_player t (set_gameState (set_ball b (gameState room)) room)
                 = Some (k, p)) as (k&p&Hs).
  { rewrite slot_player_gameState by done. destruct t; eauto. }
  rewrite (scorePoint_occupied _ _ _ _ _ _ _ Hs). cbv zeta.
  apply slot_player_Some in Hs as [_ Hp]. exists k, p, (addPoint p).
  destruct (resetBall_ball r1 r2 r3 (set_ball b (gameState room))) as (Hx&Hy&_).
  assert (Hg : omap_get k (omap_alter addPoint k (players room)) = Some (addPoint p))
    by (simpl in Hp; by rewrite omap_get_alter_eq, Hp).
  assert (Hother : ∀ k', k' ≠ k →
            omap_get k' (omap_alter addPoint k (players room))
            = omap_get k' (players room))
    by (intros k' Hk'; by apply omap_get_alter_ne).
  destruct (WIN_SCORE <=? score p + 1)%Z;
    (split; [exact Hp|]); (split; [exact Hg|]);
    (split; [done|]); (split; [done|]); (split; [done|]); (split; [done|]);
    (split; [done|]); (split; [exact Hother|]); (split; [done|]);
    split; assumption.
Qed.

Lemma tick_scores_one_point_witness :
  let res := updateBall 0.3 0.7 0.1 "room_2_b" demo_before_score in
  res.1 = true ∧
  ∃ room' k p p',
    res.2 = store_room "room_2_b" room' demo_before_score ∧
    omap_get k (players demo_before_score_room) = Some p ∧
    omap_get k (players room') = Some p' ∧
    score p' = (score p + 1)%Z ∧
    player_id p' = player_id p ∧ side p' = side p ∧
    connected p' = connected p ∧ paddle p' = paddle p ∧
    (∀ k', k' ≠ k →
       omap_get k' (players room') = omap_get k' (players demo_before_score_room)) ∧
    (ball_x (ball (gameState room')) == 400)%Q ∧
    (ball_y (ball (gameState room')) == 200)%Q.
Proof.
  assert (Hscored : (updateBall 0.3 0.7 0.1 "room_2_b" demo_before_score).1 = true)
    by by vm_compute.
  assert (Hact : gameActive (gameState demo_before_score_room) = true)
    by by vm_compute.
  split; [exact Hscored|].
  destruct (tick_scores_one_point 0.3 0.7 0.1 "room_2_b" demo_before_score_room
              demo_before_score demo_before_score_reachable
              demo_before_score_lookup Hact) as (room'&Hst&Htrue&_).
  destruct (Htrue Hscored) as (k&p&p'&G1&G2&G3&G4&G5&G6&G7&G8&_&G10&G11).
  exists room', k, p, p'.
  split; [exact Hst|]. split; [exact G1|]. split; [exact G2|]. split; [exact G3|].
  split; [exact G4|]. split; [exact G5|]. split; [exact G6|]. split; [exact G7|].
  split; [exact G8|]. split; [exact G10 | exact G11].
Defined.

(** X18.  When the ball, after its move and its bounce off a wall, touches
    the left paddle while it moves to the left, the tick sends it back: it
    then sits against the paddle (x = 40) and moves to the right at speed 3,
    its height and vertical speed are those after the bounce, and no point
    is scored. *)
Theorem left_paddle_returns_ball r1 r2 r3 rid room l pl st :
  reachable st → getRoom rid st = Some room →
  gameActive (gameState room) = true →
  slot_player Left room = Some (l, pl) →
  let b := bounceWalls (moveBall (ball (gameState room))) in
  hitsLeftPaddle (paddle pl) b = true →
  ∃ b',
    updateBall r1 r2 r3 rid st =
      (false, store_room rid (set_gameState (set_ball b' (gameState room)) room) st) ∧
    (ball_x b' == 40)%Q ∧ (ball_vx b' == 3)%Q ∧
    ball_y b' = ball_y b ∧ ball_vy b' = ball_vy b.
Proof.
  intros [Hinv Hig]%reachable_inv_game Hr Hact Hl b Hhit. unfold getRoom in Hr.
  rewrite (updateBall_active _ _ _ _ _ _ Hr Hact).
  pose proof (inv_rooms st Hinv _ _ Hr) as Hok.
  destruct (inv_games st Hig _ _ Hr) as [H1 (Hvx&_) H3]. rewrite Hact in H3.
  destruct (room_ok_connected_slots room Hok) as (l'&pl'&r&pr&Hl'&Hrt).
  { intros k p Hp. by apply (H3 _ _ Hp). }
  destruct (room_ok_slots _ _ _ _ _ Hok Hl Hrt) as (Hne&Hpl&_).
  assert (Hxl : (paddle_x (paddle pl) == 20)%Q).
  { destruct (H3 l pl) as (_&_&_&Hx&_); [by rewrite Hpl, omap_get_here|].
    destruct Hok as (?&?&?&?&_&Hpl'&_&HsA&_). rewrite Hpl in Hpl'.
    injection Hpl' as -> -> -> ->. by rewrite HsA in Hx. }
  assert (Hxr : (paddle_x (paddle pr) == 760)%Q).
  { destruct (H3 r pr) as (_&_&_&Hx&_);
      [by rewrite Hpl, omap_get_next, omap_get_here|].
    destruct Hok as (?&?&?&?&_&Hpl'&_&_&_&HsB&_). rewrite Hpl in Hpl'.
    injection Hpl' as -> -> -> ->. rewrite HsB in Hx.
    unfold GAME_WIDTH, PADDLE_WIDTH in Hx. lra. }
  assert (Hneg : (ball_vx b < 0)%Q).
  { unfold hitsLeftPaddle in Hhit. apply andb_prop in Hhit as [Hhit _].
    apply andb_prop in Hhit as [Hhit _]. apply andb_prop in Hhit as [Hhit _].
    apply andb_prop in Hhit as [Hhit _]. by apply Qltb_true in Hhit. }
  assert (Hvb : (ball_vx b == -3)%Q).
  { unfold b in *. rewrite bounceWalls_vx in *. simpl in *.
    unfold BALL_SPEED in Hvx. revert Hvx. apply Qabs_case; intros; lra. }
  set (b1 := {| ball_x := paddle_x (paddle pl) + PADDLE_WIDTH; ball_y := ball_y b;
                ball_vx := - ball_vx b; ball_vy := ball_vy b |}).
  assert (Hmiss : hitsRightPaddle (paddle pr) b1 = false).
  { unfold hitsRightPaddle. apply andb_false_intro1, andb_false_intro1,
      andb_false_intro1, andb_false_intro2.
    apply not_true_is_false. rewrite Qle_bool_iff. simpl.
    unfold PADDLE_WIDTH, BALL_SIZE. lra. }
  exists b1.
  assert (Hstep : stepBall r1 r2 r3 room =
                  (false, set_gameState (set_ball b1 (gameState room)) room)).
  { unfold stepBall. cbv zeta. rewrite Hl, Hrt. simpl fmap.
    cbn [collideLeft compose snd]. fold b. rewrite Hhit. fold b1.
    cbn [collideRight]. rewrite Hmiss.
    replace (Qltb (ball_x b1) 0) with false.
    2:{ symmetry. apply Qltb_false. simpl. unfold PADDLE_WIDTH. lra. }
    replace (Qltb GAME_WIDTH (ball_x b1)) with false; [done|].
    symmetry. apply Qltb_false. simpl. unfold PADDLE_WIDTH, GAME_WIDTH. lra. }
  rewrite Hstep. simpl. split; [done|]. unfold PADDLE_WIDTH.
  split; [lra|]. split; [lra|]. done.
Qed.

(** ** Rate limiting *)

Lemma connections_within_window ip t0 times c t :
  t !! ip = Some (mkAttemptRecord c t0) → (1 ≤ c ≤ 15)%Z →
  Forall (λ now, (now - t0 ≤ 60000)%Z) times →
  let n := length times in
  let free := Z.to_nat (15 - c) in
  (connections ip times t).1 = replicate (n `min` free) true ++ replicate (n - free) false ∧
  (connections ip times t).2 !! ip =
    Some (mkAttemptRecord (c + Z.of_nat (n `min` free)) t0).
Proof.
  intros Ht Hc Hall. revert c t Ht Hc.
  induction Hall as [|now times Hnow Hall IH]; intros c t Ht Hc; cbv zeta.
  { simpl. rewrite Ht. split; [done|]. do 2 f_equal. lia. }
  cbn [connections]. unfold checkConnectionRate. rewrite Ht.
  cbn [firstAttempt count]. unfold CONNECTION_ATTEMPT_WINDOW, CONNECTION_ATTEMPT_LIMIT.
  destruct (Z.ltb_spec 60000 (now - t0)) as [?|_]; [lia|].
  destruct (Z.leb_spec 15 c) as [Hfull|Hfree].
  - assert (c = 15%Z) as -> by lia.
    destruct (IH 15%Z t Ht) as [IH1 IH2]; [lia|]. cbv zeta in IH1, IH2.
    destruct (connections ip times t) as [oks t']. simpl in *.
    rewrite IH1, IH2. replace (Z.to_nat (15 - 15)) with 0 by lia.
    rewrite !Nat.min_0_r, !Nat.sub_0_r. done.
  - destruct (IH (c + 1)%Z
               (<[ip := mkAttemptRecord (c + 1) t0]> t)) as [IH1 IH2];
      [apply lookup_insert_eq | lia |]. cbv zeta in IH1, IH2.
    destruct (connections ip times _) as [oks t']. simpl in *.
    rewrite IH1, IH2.
    assert (∃ k, Z.to_nat (15 - c) = S k ∧ Z.to_nat (15 - (c + 1)) = k)
      as (k&->&->) by (exists (Z.to_nat (15 - (c + 1))); lia).
    simpl. split; [done|]. do 2 f_equal. lia.
Qed.

Lemma connections_first_window ip t0 times t :
  t !! ip = None →
  Forall (λ now, (now - t0 ≤ 60000)%Z) times →
  let n := S (length times) in
  (connections ip (t0 :: times) t).1 =
    replicate (n `min` 15) true ++ replicate (n - 15) false ∧
  (connections ip (t0 :: times) t).2 !! ip =
    Some (mkAttemptRecord (Z.of_nat (n `min` 15)) t0).
Proof.
  intros Ht Hall n. cbn [connections]. unfold checkConnectionRate. rewrite Ht.
  destruct (connections_within_window ip t0 times 1
              (<[ip := mkAttemptRecord 1 t0]> t)) as [H1 H2];
    [apply lookup_insert_eq | lia | done |]. cbv zeta in H1, H2.
  destruct (connections ip times _) as [oks t']. simpl in *.
  rewrite H1, H2. change (Z.to_nat (15 - 1)) with 14. subst n.
  split.
  - destruct (length times) as [|m]; [done|]. simpl. done.
  - do 2 f_equal. lia.
Qed.

(** X19.  A burst of connections from one address: of the connections made
    within 60 seconds of the first one, the first fifteen are admitted and
    all later ones are refused, and the count recorded for the address never
    exceeds fifteen. *)
Theorem rate_limit_burst ip t0 times t :
  t !! ip = None →
  Forall (λ now, (now - t0 ≤ 60000)%Z) times →
  let n := S (length times) in
  (connections ip (t0 :: times) t).1 =
    replicate (n `min` 15) true ++ replicate (n - 15) false ∧
  (connections ip (t0 :: times) t).2 !! ip =
    Some (mkAttemptRecord (Z.of_nat (n `min` 15)) t0).
Proof. apply connections_first_window. Qed.

Lemma rate_limit_burst_witness :
  let times := replicate 19 1000%Z in
  let n := S (length times) in
  (connections "10.0.0.1" (0%Z :: times) ∅).1 =
    replicate (n `min` 15) true ++ replicate (n - 15) false ∧
  (connections "10.0.0.1" (0%Z :: times) ∅).2 !! "10.0.0.1" =
    Some (mkAttemptRecord (Z.of_nat (n `min` 15)) 0).
Proof.
  apply (rate_limit_burst "10.0.0.1" 0 (replicate 19 1000%Z) ∅); [done|].
  apply Forall_replicate. lia.
Defined.

(** X20.  A refused connection changes nothing in the table, so that
    refusals do not prolong the ban; a connection never touches the record of
    another address; and a connection is refused only to an address that has
    already made fifteen connections in the current window. *)
Theorem refusal_changes_nothing now ip t :
  let res := checkConnectionRate now ip t in
  (res.1 = false → res.2 = t) ∧
  (∀ ip', ip' ≠ ip → res.2 !! ip' = t !! ip') ∧
  (res.1 = false ↔
   ∃ record, t !! ip = Some record ∧ (15 ≤ count record)%Z ∧
             (now - firstAttempt record ≤ 60000)%Z).
Proof.
  cbv zeta. unfold checkConnectionRate, CONNECTION_ATTEMPT_WINDOW,
    CONNECTION_ATTEMPT_LIMIT.
  destruct (t !! ip) as [record|] eqn:Ht; simpl.
  2:{ split; [done|]. split; [by intros; rewrite lookup_insert_ne|].
      split; [done | by intros (?&?&_)]. }
  destruct (Z.ltb_spec 60000 (now - firstAttempt record)); simpl.
  { split; [done|]. split; [by intros; rewrite lookup_insert_ne|].
    split; [done|]. intros (?&[= <-]&?&?). lia. }
  destruct (Z.leb_spec 15 (count record)); simpl.
  - split; [done|]. split; [done|]. split; [|done]. intros _. by exists record.
  - split; [done|]. split; [by intros; rewrite lookup_insert_ne|].
    split; [done|]. intros (?&[= <-]&?&?). lia.
Qed.

(** X21.  An address that has used up its fifteen connections is admitted
    again by the first connection made more than 60 seconds after the first
    connection of the burst, whatever was refused in between; that
    connection opens a new window. *)
Theorem ban_ends_with_window ip t0 times later t :
  t !! ip = None →
  Forall (λ now, (now - t0 ≤ 60000)%Z) times →
  (60000 < later - t0)%Z →
  let t' := (connections ip (t0 :: times) t).2 in
  checkConnectionRate later ip t' = (true, <[ip := mkAttemptRecord 1 later]> t').
Proof.
  intros Ht Hall Hlater t'.
  destruct (connections_first_window ip t0 times t Ht Hall) as [_ H2]. cbv zeta in H2.
  fold t' in H2. unfold checkConnectionRate. rewrite H2. cbn [firstAttempt].
  unfold CONNECTION_ATTEMPT_WINDOW.
  by destruct (Z.ltb_spec 60000 (later - t0)); [|lia].
Qed.

Lemma ban_ends_with_window_witness :
  let t' := (connections "10.0.0.1" (0%Z :: replicate 19 1000%Z) ∅).2 in
  checkConnectionRate 60001 "10.0.0.1" t' =
    (true, <["10.0.0.1" := mkAttemptRecord 1 60001]> t').
Proof.
  apply (ban_ends_with_window "10.0.0.1" 0 (replicate 19 1000%Z) 60001 ∅);
    [done | apply Forall_replicate; lia | lia].
Defined.

(** X22.  The periodic clean-up of the table never changes an answer: a
    connection made at or after the time of a clean-up gets the answer, and
    the record, that it would have got without the clean-up. *)
Theorem cleanup_keeps_answers now' now ip t :
  (now' ≤ now)%Z →
  (checkConnectionRate now ip (cleanupAttempts now' t)).1 =
    (checkConnectionRate now ip t).1 ∧
  (checkConnectionRate now ip (cleanupAttempts now' t)).2 !! ip =
    (checkConnectionRate now ip t).2 !! ip.
Proof.
  intros Hle. unfold checkConnectionRate, cleanupAttempts.
  unfold CONNECTION_ATTEMPT_WINDOW, RESET_WINDOW, CONNECTION_ATTEMPT_LIMIT.
  rewrite map_lookup_filter. destruct (t !! ip) as [record|] eqn:Ht; simpl.
  2:{ by rewrite !lookup_insert_eq. }
  case_guard as Hkeep; simpl in *.
  - destruct (Z.ltb_spec 60000 (now - firstAttempt record)); simpl.
    { by rewrite !lookup_insert_eq. }
    destruct (Z.leb_spec 15 (count record)); simpl.
    + split; [done|]. rewrite Ht. by apply map_lookup_filter_Some_2.
    + by rewrite !lookup_insert_eq.
  - destruct (Z.ltb_spec 60000 (now - firstAttempt record)); simpl; [|lia].
    by rewrite !lookup_insert_eq.
Qed.

Lemma cleanup_keeps_answers_witness :
  let t := (connections "10.0.0.1" (0%Z :: replicate 19 1000%Z) ∅).2 in
  (checkConnectionRate 80000 "10.0.0.1" (cleanupAttempts 75000 t)).1 =
    (checkConnectionRate 80000 "10.0.0.1" t).1 ∧
  (checkConnectionRate 80000 "10.0.0.1" (cleanupAttempts 75000 t)).2 !! "10.0.0.1" =
    (checkConnectionRate 80000 "10.0.0.1" t).2 !! "10.0.0.1".
Proof.
  apply (cleanup_keeps_answers 75000 80000 "10.0.0.1"). lia.
Defined.

(** ** The handlers of the server *)

(** X23.  The callback of the start timer takes one of two branches: it
    starts the game and its tick timer together, exactly when both players
    are connected, or it changes nothing; the branches that report a failed
    start or a vanished room are never taken. *)
Theorem delayedStart_outcomes h r1 r2 r3 rid st :
  let res := delayedStart h r1 r2 r3 rid st in
  (res.1 = GameStarted ∨ res.1 = PlayersDisconnected) ∧
  (res.1 = GameStarted ↔ bothPlayersConnected rid st = true) ∧
  (res.1 = PlayersDisconnected → res.2 = st) ∧
  (res.1 = GameStarted →
   h ∈ timers res.2 ∧
   ∃ room, getRoom rid res.2 = Some room ∧ gameLoopIntervalId room = Some h ∧
           gameActive (gameState room) = true ∧ winner (gameState room) = None).
Proof.
  cbv zeta. unfold delayedStart.
  destruct (startGame_answer r1 r2 r3 rid st) as [H1 H2].
  destruct (getRoom rid st) as [room|] eqn:Hr.
  2:{ unfold bothPlayersConnected. unfold getRoom in Hr. rewrite Hr. simpl.
      split; [by right|]. split; [split; intros [=]|]. split; [done|]. intros [=]. }
  destruct (bothPlayersConnected rid st) eqn:Hboth.
  2:{ simpl. split; [by right|]. split; [split; intros [=]|]. split; [done|].
      intros [=]. }
  assert (Hst : ∃ room', (startGame r1 r2 r3 rid st).2 = store_room rid room' st ∧
            gameActive (gameState room') = true ∧ winner (gameState room') = None).
  { revert H1. unfold startGame. unfold getRoom in Hr. rewrite Hr.
    destruct (slot_player Left room) as [[l pl]|]; [|done].
    destruct (slot_player Right room) as [[r pr]|]; [|done].
    destruct (negb (connected pl) || negb (connected pr)); [done|].
    intros _. simpl. eexists. by split_and!. }
  destruct Hst as (room'&Hst&Hact&Hwin).
  destruct (startGame r1 r2 r3 rid st) as [started st1]. simpl in *. subst started st1.
  assert (Hg : getRoom rid (store_room rid room' st) = Some room')
    by apply lookup_insert_eq.
  rewrite Hg. simpl.
  split; [by left|]. split; [by split|]. split; [done|]. intros _.
  unfold startGameLoop. rewrite Hg. unfold getRoom. simpl.
  split; [set_solver|]. eexists. rewrite lookup_insert_eq. by split_and!.
Qed.

Lemma addPlayer_room_exists stamp r1 r2 P jr st :
  (addPlayer stamp r1 r2 P st).1 = Some jr →
  ∃ room, rooms (addPlayer stamp r1 r2 P st).2 !! roomId jr = Some room ∧
          (isNewGame jr = true → slotsConnected room = true).
Proof.
  assert (Hm : ∀ st0, (matchWaiting stamp r1 r2 P st0).1 = Some jr →
    ∃ room, rooms (matchWaiting stamp r1 r2 P st0).2 !! roomId jr = Some room ∧
            (isNewGame jr = true → slotsConnected room = true)).
  { intros st0.
    destruct (matchWaiting_cases stamp r1 r2 P st0)
      as [(q&->&_)|(W&rest&_&Hne&->)]; [done|].
    simpl. intros [= <-]. simpl. rewrite lookup_insert_eq. eexists. split; [done|].
    intros _. unfold slotsConnected.
    by destruct (newRoom_slots stamp r1 r2 W P Hne) as [-> ->]. }
  unfold addPlayer.
  destruct (truthy _) as [rid|]; [|apply Hm].
  destruct (rooms st !! rid) as [room|]; [|apply Hm].
  destruct (omap_get P (players room)) as [p|]; [|apply Hm].
  simpl. intros [= <-]. simpl. rewrite lookup_insert_eq. eexists. by split.
Qed.

Lemma addPlayer_None_waits stamp r1 r2 P st :
  inv st → inv_game st → (addPlayer stamp r1 r2 P st).1 = None →
  P ∈ waitingPlayers (addPlayer stamp r1 r2 P st).2.
Proof.
  intros Hinv Hig.
  destruct (addPlayer_cases stamp r1 r2 P st Hinv Hig)
    as [(rid&room&p&_&_&_&->)|(st0&->&_&_)]; [done|].
  by destruct (matchWaiting_cases stamp r1 r2 P st0)
    as [(q&->&Hq)|(W&rest&_&Hne&->)].
Qed.

(** X24.  The handler of [joinGame] never finds the room of a successful
    join missing.  A join that makes a new pairing finds both players
    connected, so that the start timer is set; the branch for a single
    player is taken only by a player that is already in a room, and that
    join changes nothing. *)
Theorem joinGame_outcomes stamp r1 r2 P st :
  reachable st →
  let res := joinGame stamp r1 r2 P st in
  res.1 ≠ RoomNotFound ∧
  res.2 = (addPlayer stamp r1 r2 P st).2 ∧
  (res.1 = AddedToWaitingList → P ∈ getWaitingPlayers res.2) ∧
  (res.1 = OnlyOnePlayer → assigned P st ∧ res.2 = st) ∧
  (res.1 = BothConnected →
   ∃ jr, (addPlayer stamp r1 r2 P st).1 = Some jr ∧
         bothPlayersConnected (roomId jr) res.2 = true).
Proof.
  intros Hreach res. pose proof Hreach as [Hinv Hig]%reachable_inv_game.
  pose proof (addPlayer_None_waits stamp r1 r2 P st Hinv Hig) as Hwait.
  pose proof (addPlayer_cases stamp r1 r2 P st Hinv Hig) as Hcases.
  subst res. unfold joinGame.
  destruct (addPlayer stamp r1 r2 P st) as [[jr|] st'] eqn:He; simpl in *.
  2:{ split_and!; try done. intros _. by apply Hwait. }
  destruct (addPlayer_room_exists stamp r1 r2 P jr st) as (room&Hr&Hnew);
    [by rewrite He|].
  rewrite He in Hr. simpl in Hr. unfold getRoom. rewrite Hr.
  destruct (slotsConnected room) eqn:Hsc; simpl.
  - split_and!; try done. intros _. exists jr. split; [done|].
    by rewrite (bothPlayersConnected_slots _ _ _ Hr).
  - split_and!; try done. intros _.
    destruct Hcases as [(rid&room0&p&HP&Hr0&Hp&[= -> ->])|(st0&Hm&_&_)].
    + split; [|done]. exists rid, room0. split_and!; [done| |done|by exists p].
      by eapply (inv_ids st Hinv).
    + destruct (matchWaiting_cases stamp r1 r2 P st0)
        as [(q&Hq&_)|(W&rest&_&Hne&Hq)]; rewrite Hq in Hm; [done|].
      injection Hm as -> ->. specialize (Hnew eq_refl). congruence.
Qed.

Lemma demo_left_reachable : reachable demo_left.
Proof. eapply reachable_step; [apply demo_running_reachable | constructor]. Qed.

Lemma demo_left_lookup : rooms demo_left !! "room_2_b" = Some demo_left_room.
Proof. by vm_compute. Qed.

Lemma demo_before_hit_reachable : reachable demo_before_hit.
Proof. apply reachable_ticks, demo_running_reachable. Qed.

Lemma demo_before_hit_lookup :
  rooms demo_before_hit !! "room_2_b" = Some demo_before_hit_room.
Proof. by vm_compute. Qed.

Lemma joinGame_outcomes_witness :
  let res := joinGame "5_e" 0.3 0.7 "B" demo_left in
  res.1 ≠ RoomNotFound ∧
  res.2 = (addPlayer "5_e" 0.3 0.7 "B" demo_left).2 ∧
  (res.1 = AddedToWaitingList → "B" ∈ getWaitingPlayers res.2) ∧
  (res.1 = OnlyOnePlayer → assigned "B" demo_left ∧ res.2 = demo_left) ∧
  (res.1 = BothConnected →
   ∃ jr, (addPlayer "5_e" 0.3 0.7 "B" demo_left).1 = Some jr ∧
         bothPlayersConnected (roomId jr) res.2 = true).
Proof.
  apply (joinGame_outcomes "5_e" 0.3 0.7 "B" demo_left), demo_left_reachable.
Defined.

Lemma left_paddle_returns_ball_witness :
  let b := bounceWalls (moveBall (ball (gameState demo_before_hit_room))) in
  ∃ b',
    updateBall 0.3 0.7 0.1 "room_2_b" demo_before_hit =
      (false,
       store_room "room_2_b"
         (set_gameState (set_ball b' (gameState demo_before_hit_room))
            demo_before_hit_room) demo_before_hit) ∧
    (ball_x b' == 40)%Q ∧ (ball_vx b' == 3)%Q ∧
    ball_y b' = ball_y b ∧ ball_vy b' = ball_vy b.
Proof.
  assert (H1 : gameActive (gameState demo_before_hit_room) = true) by by vm_compute.
  assert (H2 : slot_player Left demo_before_hit_room = Some ("A", demo_playerA))
    by by vm_compute.
  assert (H3 : hitsLeftPaddle (paddle demo_playerA)
                 (bounceWalls (moveBall (ball (gameState demo_before_hit_room))))
               = true) by by vm_compute.
  exact (left_paddle_returns_ball 0.3 0.7 0.1 "room_2_b" demo_before_hit_room
           "A" demo_playerA demo_before_hit demo_before_hit_reachable
           demo_before_hit_lookup H1 H2 H3).
Defined.

(** ** The client *)

Lemma emitGameState_room_ok room :
  room_ok room →
  ∃ A B pA pB,
    A ≠ B ∧ players room = [(A, pA); (B, pB)] ∧
    player_id pA = A ∧ side pA = Left ∧ player_id pB = B ∧ side pB = Right ∧
    snap_left (emitGameState room) = (if connected pA then Some pA else None) ∧
    snap_right (emitGameState room) = (if connected pB then Some pB else None).
Proof.
  intros (A&B&pA&pB&Hne&Hpl&HA&HsA&HB&HsB&HL&HR).
  exists A, B, pA, pB. split_and!; try done.
  - unfold emitGameState, slot_player. simpl. rewrite HL.
    destruct (connected pA); [|done]. simpl. by rewrite Hpl, omap_get_here.
  - unfold emitGameState, slot_player. simpl. rewrite HR.
    destruct (connected pB); [|done]. simpl.
    by rewrite Hpl, omap_get_next, omap_get_here.
Qed.

Lemma confirmedSide_mapped P s rid room st :
  inv st → rooms st !! rid = Some room →
  confirmedSide (emitGameState room) P = Some s →
  playerToRoom st !! P = Some rid ∧ getPlayerSide P st = Some s.
Proof.
  intros Hinv Hr Hs.
  destruct (emitGameState_room_ok room (inv_rooms st Hinv _ _ Hr))
    as (A&B&pA&pB&Hne&Hpl&HA&HsA&HB&HsB&HL&HR).
  assert (HgA : omap_get A (players room) = Some pA)
    by (rewrite Hpl; apply omap_get_here).
  assert (HgB : omap_get B (players room) = Some pB)
    by (rewrite Hpl, omap_get_next by done; apply omap_get_here).
  revert Hs. unfold confirmedSide, isMe. rewrite HL, HR.
  assert (HcaseA : connected pA = true → P = A →
            playerToRoom st !! P = Some rid ∧ getPlayerSide P st = Some Left).
  { intros Hc ->. pose proof (inv_connected st Hinv _ _ _ _ Hr HgA Hc) as HP.
    split; [done|]. rewrite <- HsA. by eapply getPlayerSide_mapped. }
  assert (HcaseB : connected pB = true → P = B →
            playerToRoom st !! P = Some rid ∧ getPlayerSide P st = Some Right).
  { intros Hc ->. pose proof (inv_connected st Hinv _ _ _ _ Hr HgB Hc) as HP.
    split; [done|]. rewrite <- HsB. by eapply getPlayerSide_mapped. }
  destruct (connected pA), (connected pB); repeat case_bool_decide;
    intros [= <-]; first [apply HcaseA; congruence | apply HcaseB; congruence].
Qed.

(** X25.  The side that a client reads off a game state it receives is the
    side that the server has assigned: the client finds its id in a slot of
    the state of a room exactly when the manager maps the id to that room,
    and the slot is then the one that [getPlayerSide] answers. *)
Theorem client_side_agrees_with_server P s rid room st :
  reachable st → getRoom rid st = Some room →
  confirmedSide (emitGameState room) P = Some s ↔
  playerToRoom st !! P = Some rid ∧ getPlayerSide P st = Some s.
Proof.
  intros [Hinv Hig]%reachable_inv_game Hr. unfold getRoom in Hr.
  destruct (emitGameState_room_ok room (inv_rooms st Hinv _ _ Hr))
    as (A&B&pA&pB&Hne&Hpl&HA&HsA&HB&HsB&HL&HR).
  assert (HgA : omap_get A (players room) = Some pA)
    by (rewrite Hpl; apply omap_get_here).
  assert (HgB : omap_get B (players room) = Some pB)
    by (rewrite Hpl, omap_get_next by done; apply omap_get_here).
  split; [by apply confirmedSide_mapped|].
  unfold confirmedSide, isMe. rewrite HL, HR.
  intros [HP Hside]. unfold getPlayerSide in Hside.
  rewrite inv_truthy, HP, Hr in Hside by done.
  destruct (omap_get P (players room)) as [p|] eqn:Hp; [|done].
  injection Hside as <-.
  pose proof (inv_mapped st Hig _ _ _ _ HP Hr Hp) as Hc.
  rewrite Hpl in Hp. simpl in Hp. destruct (decide (P = A)) as [->|HPA].
  - injection Hp as <-. rewrite Hc, HA, bool_decide_eq_true_2 by done.
    by rewrite HsA.
  - destruct (decide (P = B)) as [->|HPB]; [|done]. injection Hp as <-.
    rewrite Hc, HB. rewrite (bool_decide_eq_true_2 (B = B)) by done.
    destruct (connected pA); [|by rewrite HsB].
    rewrite HA, bool_decide_eq_false_2 by done. by rewrite HsB.
Qed.

Lemma client_side_agrees_with_server_witness :
  confirmedSide (emitGameState demo_room) "B" = Some Right ↔
  playerToRoom demo_running !! "B" = Some "room_2_b" ∧
  getPlayerSide "B" demo_running = Some Right.
Proof.
  apply (client_side_agrees_with_server "B" Right "room_2_b" demo_room demo_running);
    [apply demo_running_reachable | apply demo_running_room].
Defined.

(** X26.  The status that a client derives from the state of a stored room
    is never [waiting]: the branch for a state without players is not
    taken.  While the game runs the status is [playing], and a status
    [ended] means that the game is inactive and has a winner. *)
Theorem client_status_of_room rid room st :
  reachable st → getRoom rid st = Some room →
  let status := gameStatusOf (emitGameState room) in
  status ≠ StatusWaiting ∧
  (gameActive (gameState room) = true → status = StatusPlaying) ∧
  (status = StatusEnded →
   gameActive (gameState room) = false ∧ is_Some (winner (gameState room))).
Proof.
  intros [Hinv Hig]%reachable_inv_game Hr status. unfold getRoom in Hr.
  destruct (emitGameState_room_ok room (inv_rooms st Hinv _ _ Hr))
    as (A&B&pA&pB&Hne&Hpl&HA&HsA&HB&HsB&HL&HR).
  destruct (inv_games st Hig _ _ Hr) as [H1 _ _].
  destruct (inv_occupied st Hig _ _ Hr) as (k&p&Hp&Hc).
  subst status. unfold gameStatusOf. rewrite HL, HR.
  change (snap_winner (emitGameState room)) with (winner (gameState room)).
  change (snap_gameActive (emitGameState room)) with (gameActive (gameState room)).
  destruct (winner (gameState room)) as [w|] eqn:Hw.
  - destruct (gameActive (gameState room)) eqn:Hact; [by specialize (H1 eq_refl)|].
    simpl. destruct (decide (w = "")); [|by split_and!].
    assert (connected pA = true ∨ connected pB = true) as [-> | ->].
    { rewrite Hpl in Hp. simpl in Hp. repeat case_decide; simplify_eq; auto. }
    + destruct (connected pB); by split_and!.
    + destruct (connected pA); by split_and!.
  - simpl. destruct (gameActive (gameState room)) eqn:Hact; [by split_and!|].
    assert (connected pA = true ∨ connected pB = true) as [-> | ->].
    { rewrite Hpl in Hp. simpl in Hp. repeat case_decide; simplify_eq; auto. }
    + destruct (connected pB); by split_and!.
    + destruct (connected pA); by split_and!.
Qed.

Lemma client_status_of_room_witness :
  let status := gameStatusOf (emitGameState demo_room) in
  status ≠ StatusWaiting ∧
  (gameActive (gameState demo_room) = true → status = StatusPlaying) ∧
  (status = StatusEnded →
   gameActive (gameState demo_room) = false ∧ is_Some (winner (gameState demo_room))).
Proof.
  apply (client_status_of_room "room_2_b" demo_room demo_running);
    [apply demo_running_reachable | apply demo_running_room].
Defined.

(** X27.  A key press that the client turns into a [paddleMove], on the
    state of its room as the server holds it, is accepted by the server: the
    key is an arrow key, the client is a player of the room, [movePaddle]
    answers with the room, and the paddle of the stored player has moved as
    asked: up by 8 for the up arrow (to 0 from at most 8), down by 8 for the
    down arrow (to 320 from at least 312), the player being otherwise the
    same. *)
Theorem key_press_moves_paddle P key d rid room st :
  reachable st → getRoom rid st = Some room →
  handleKeyPress (Some (emitGameState room)) P key = Some d →
  (key = ArrowUp ∧ d = Up ∨ key = ArrowDown ∧ d = Down) ∧
  ∃ p p',
    omap_get P (players room) = Some p ∧
    (movePaddle P d st).1 = Some rid ∧
    get_player rid P (movePaddle P d st).2 = Some p' ∧
    p' = set_paddle_y (movedY d (paddle_y (paddle p))) p ∧
    player_id p' = P ∧ side p' = side p ∧ score p' = score p ∧
    connected p' = true ∧ paddle_x (paddle p') = paddle_x (paddle p) ∧
    (0 <= paddle_y (paddle p) <= 320)%Q ∧
    match key with
    | ArrowUp =>
        (8 <= paddle_y (paddle p) → paddle_y (paddle p') == paddle_y (paddle p) - 8)%Q ∧
        (paddle_y (paddle p) <= 8 → paddle_y (paddle p') == 0)%Q
    | ArrowDown =>
        (paddle_y (paddle p) <= 312 → paddle_y (paddle p') == paddle_y (paddle p) + 8)%Q ∧
        (312 <= paddle_y (paddle p) → paddle_y (paddle p') == 320)%Q
    | OtherKey => False
    end.
Proof.
  intros Hreach Hr Hkey. pose proof Hreach as [Hinv Hig]%reachable_inv_game.
  unfold getRoom in Hr.
  assert (Hside : is_Some (confirmedSide (emitGameState room) P) ∧
            (key = ArrowUp ∧ d = Up ∨ key = ArrowDown ∧ d = Down)).
  { revert Hkey. unfold handleKeyPress, confirmedSide.
    destruct (isMe (snap_left (emitGameState room)) P); cbn [orb].
    - destruct key; intros [= <-]; split; eauto.
    - destruct (isMe (snap_right (emitGameState room)) P); [|done].
      destruct key; intros [= <-]; split; eauto. }
  destruct Hside as [[s Hs] Hd]. split; [exact Hd|].
  assert (HP : playerToRoom st !! P = Some rid ∧ getPlayerSide P st = Some s)
    by by apply (confirmedSide_mapped P s rid room st).
  destruct HP as [HP Hget]. unfold getPlayerSide in Hget.
  rewrite inv_truthy, HP, Hr in Hget by done.
  destruct (omap_get P (players room)) as [p|] eqn:Hp; [|done].
  exists p, (set_paddle_y (movedY d (paddle_y (paddle p))) p). split; [done|].
  pose proof (inv_mapped st Hig _ _ _ _ HP Hr Hp) as Hc.
  destruct (room_ok_player _ _ _ (inv_rooms st Hinv _ _ Hr) Hp) as (Hid&_).
  destruct (game_players _ (inv_games st Hig _ _ Hr) _ _ Hp) as (_&_&_&_&Hy).
  unfold GAME_HEIGHT, PADDLE_HEIGHT in Hy.
  rewrite (movePaddle_moves P d rid room p st); [|by rewrite inv_truthy|done..].
  simpl. split; [done|]. split.
  { unfold get_player. simpl. rewrite lookup_insert_eq. simpl.
    rewrite set_slot_players. unfold update_player. simpl.
    by rewrite omap_get_alter_eq, Hp. }
  split; [done|]. split; [exact Hid|]. split; [done|]. split; [done|].
  split; [exact Hc|]. split; [done|]. split; [lra|].
  pose proof (movedY_step d (paddle_y (paddle p))) as Hstep.
  by destruct Hd as [[-> ->]|[-> ->]].
Qed.

Lemma key_press_moves_paddle_witness :
  (ArrowDown = ArrowUp ∧ Down = Up ∨ ArrowDown = ArrowDown ∧ Down = Down) ∧
  ∃ p p',
    omap_get "B" (players demo_room) = Some p ∧
    (movePaddle "B" Down demo_running).1 = Some "room_2_b" ∧
    get_player "room_2_b" "B" (movePaddle "B" Down demo_running).2 = Some p' ∧
    player_id p' = "B" ∧ side p' = side p ∧ score p' = score p ∧
    connected p' = true ∧ paddle_x (paddle p') = paddle_x (paddle p) ∧
    (paddle_y (paddle p) == 160)%Q ∧ (paddle_y (paddle p') == 168)%Q.
Proof.
  destruct (key_press_moves_paddle "B" ArrowDown Down "room_2_b" demo_room
              demo_running demo_running_reachable demo_running_room eq_refl)
    as (Hd&p&p'&G1&G2&G3&G4&G5&G6&G7&G8&G9&G10&G11&G12).
  split; [exact Hd|]. exists p, p'.
  assert (Hp : p = demo_playerB).
  { assert (HB : omap_get "B" (players demo_room) = Some demo_playerB)
      by by vm_compute.
    congruence. }
  assert (Hy : (paddle_y (paddle p) == 160)%Q) by (rewrite Hp; by vm_compute).
  split; [exact G1|]. split; [exact G2|]. split; [exact G3|]. split; [exact G5|].
  split; [exact G6|]. split; [exact G7|]. split; [exact G8|]. split; [exact G9|].
  split; [exact Hy|]. rewrite G11; [lra | lra].
Defined.

Lemma slot_player_side s k p room :
  room_ok room → slot_player s room = Some (k, p) →
  side p = s ∧ player_id p = k ∧ connected p = true.
Proof.
  intros (A&B&pA&pB&Hne&Hpl&HA&HsA&HB&HsB&HL&HR).
  unfold slot_player. destruct s; simpl; [rewrite HL|rewrite HR].
  - destruct (connected pA) eqn:Hc; [|done]. simpl.
    rewrite Hpl, omap_get_here. by intros [= <- <-].
  - destruct (connected pB) eqn:Hc; [|done]. simpl.
    rewrite Hpl, omap_get_next, omap_get_here by done. by intros [= <- <-].
Qed.

Lemma emitGameState_forfeit X pX O pO room :
  room_ok room → seated room X pX O pO →
  let room' := forfeit pO (disconnect X pX room) in
  snap_ball (emitGameState room') = ball (gameState room) ∧
  snap_gameActive (emitGameState room') = false ∧
  snap_winner (emitGameState room') = Some O ∧
  match side pX with
  | Left => snap_left (emitGameState room) = Some pX ∧
            snap_right (emitGameState room) = Some pO ∧
            snap_left (emitGameState room') = None ∧
            snap_right (emitGameState room') = Some pO ∧ side pO = Right
  | Right => snap_left (emitGameState room) = Some pO ∧
             snap_right (emitGameState room) = Some pX ∧
             snap_left (emitGameState room') = Some pO ∧
             snap_right (emitGameState room') = None ∧ side pO = Left
  end.
Proof.
  intros Hok Hseat room'.
  destruct (seated_facts _ _ _ _ _ Hok Hseat) as (Hne&HgX&HgO&HX&HO&_).
  assert (HgO' : omap_get O (players room') = Some pO).
  { change (players room') with (players (disconnect X pX room)).
    by rewrite disconnect_get, decide_False. }
  assert (Hball : snap_ball (emitGameState room') = ball (gameState room)).
  { subst room'. unfold disconnect. by destruct (side pX). }
  split; [exact Hball|]. split; [done|]. split; [by rewrite <- HO|].
  destruct Hseat as [[Hl Hr]|[Hl Hr]].
  - destruct (slot_player_side _ _ _ _ Hok Hl) as (HsX&_).
    destruct (slot_player_side _ _ _ _ Hok Hr) as (HsO&_).
    rewrite HsX. unfold emitGameState. cbn [snap_left snap_right].
    rewrite Hl, Hr. split; [done|]. split; [done|].
    apply slot_player_Some in Hr as [Hr _].
    subst room'. unfold slot_player, forfeit, disconnect. rewrite HsX.
    simpl in Hr |- *. rewrite Hr. simpl.
    rewrite omap_get_alter_ne, HgO by done. done.
  - destruct (slot_player_side _ _ _ _ Hok Hl) as (HsO&_).
    destruct (slot_player_side _ _ _ _ Hok Hr) as (HsX&_).
    rewrite HsX. unfold emitGameState. cbn [snap_left snap_right].
    rewrite Hl, Hr. split; [done|]. split; [done|].
    apply slot_player_Some in Hl as [Hl _].
    subst room'. unfold slot_player, forfeit, disconnect. rewrite HsX.
    simpl in Hl |- *. rewrite Hl. simpl.
    rewrite omap_get_alter_ne, HgO by done. done.
Qed.

(** X28.  What the remaining client sees when its opponent leaves a room in
    which both were connected.  The state that the client works out from the
    [playerDisconnected] event is the one that the server then sends, up to
    the winner, which only the server's state names; from the server's state
    the client reads that the game has ended, that it has won, and that it
    still holds its side, while the opponent's id is in no slot. *)
Theorem client_view_of_forfeit X pX O pO rid room st :
  reachable st → getRoom rid st = Some room →
  seated room X pX O pO → O ≠ "" →
  let st' := (removePlayer X st).2 in
  ∃ room' predicted,
    getRoom rid st' = Some room' ∧
    onPlayerDisconnected (side pX) (Some (emitGameState room)) = Some predicted ∧
    snap_ball (emitGameState room') = snap_ball predicted ∧
    snap_left (emitGameState room') = snap_left predicted ∧
    snap_right (emitGameState room') = snap_right predicted ∧
    snap_gameActive (emitGameState room') = snap_gameActive predicted ∧
    snap_winner (emitGameState room') = Some O ∧
    gameStatusOf (emitGameState room') = StatusEnded ∧
    verdictOf (emitGameState room') O = Some YouWin ∧
    confirmedSide (emitGameState room') O = Some (side pO) ∧
    confirmedSide (emitGameState room') X = None.
Proof.
  intros Hinv%reachable_inv Hr Hseat HO st'. unfold getRoom in Hr.
  pose proof (inv_rooms st Hinv _ _ Hr) as Hok.
  subst st'. rewrite (removePlayer_both_connected _ _ _ _ _ _ _ Hinv Hr Hseat).
  destruct (seated_facts _ _ _ _ _ Hok Hseat) as (Hne&HgX&HgO&HidX&HidO&_).
  destruct (emitGameState_forfeit X pX O pO room Hok Hseat) as (Hb&Ha&Hw&Hside).
  cbv zeta in Hb, Ha, Hw, Hside.
  set (room' := forfeit pO (disconnect X pX room)) in *.
  exists room'. eexists. split.
  { unfold getRoom. simpl. rewrite clearRoomInterval_rooms. simpl.
    apply lookup_insert_eq. }
  split; [done|]. cbn [snap_ball snap_left snap_right snap_gameActive].
  split; [exact Hb|].
  assert (Hstatus : gameStatusOf (emitGameState room') = StatusEnded).
  { unfold gameStatusOf. rewrite Hw. simpl. by rewrite decide_False. }
  assert (Hverdict : verdictOf (emitGameState room') O = Some YouWin).
  { unfold verdictOf. rewrite Hw. simpl. by rewrite decide_False, decide_True. }
  unfold confirmedSide, isMe.
  destruct (side pX); destruct Hside as (HL&HR&HL'&HR'&HsO);
    rewrite HL', HR', HsO, HidO;
    rewrite (bool_decide_eq_true_2 (O = O)) by done;
    rewrite ?bool_decide_eq_false_2 by done; by split_and!.
Qed.

Lemma client_view_of_forfeit_witness :
  let st' := (removePlayer "A" demo_running).2 in
  ∃ room' predicted,
    getRoom "room_2_b" st' = Some room' ∧
    onPlayerDisconnected (side demo_playerA) (Some (emitGameState demo_room))
      = Some predicted ∧
    snap_ball (emitGameState room') = snap_ball predicted ∧
    snap_left (emitGameState room') = snap_left predicted ∧
    snap_right (emitGameState room') = snap_right predicted ∧
    snap_gameActive (emitGameState room') = snap_gameActive predicted ∧
    snap_winner (emitGameState room') = Some "B" ∧
    gameStatusOf (emitGameState room') = StatusEnded ∧
    verdictOf (emitGameState room') "B" = Some YouWin ∧
    confirmedSide (emitGameState room') "B" = Some (side demo_playerB) ∧
    confirmedSide (emitGameState room') "A" = None.
Proof.
  apply (client_view_of_forfeit "A" demo_playerA "B" demo_playerB "room_2_b"
           demo_room demo_running);
    [apply demo_running_reachable | apply demo_running_room
    | apply demo_room_seated | done].
Defined.

(** X29.  The same on the right: a ball that moves to the right and touches
    the right paddle is sent back, sits against the paddle (x = 740) and
    moves to the left at speed 3; no point is scored. *)
Theorem right_paddle_returns_ball r1 r2 r3 rid room r pr st :
  reachable st → getRoom rid st = Some room →
  gameActive (gameState room) = true →
  slot_player Right room = Some (r, pr) →
  let b := bounceWalls (moveBall (ball (gameState room))) in
  hitsRightPaddle (paddle pr) b = true →
  ∃ b',
    updateBall r1 r2 r3 rid st =
      (false, store_room rid (set_gameState (set_ball b' (gameState room)) room) st) ∧
    (ball_x b' == 740)%Q ∧ (ball_vx b' == -3)%Q ∧
    ball_y b' = ball_y b ∧ ball_vy b' = ball_vy b.
Proof.
  intros [Hinv Hig]%reachable_inv_game Hr Hact Hrt b Hhit. unfold getRoom in Hr.
  rewrite (updateBall_active _ _ _ _ _ _ Hr Hact).
  pose proof (inv_rooms st Hinv _ _ Hr) as Hok.
  destruct (inv_games st Hig _ _ Hr) as [H1 (Hvx&_) H3]. rewrite Hact in H3.
  destruct (room_ok_connected_slots room Hok) as (l&pl&r'&pr'&Hl&Hrt').
  { intros k p Hp. by apply (H3 _ _ Hp). }
  destruct (room_ok_slots _ _ _ _ _ Hok Hl Hrt) as (Hne&Hpl&_).
  assert (Hxr : (paddle_x (paddle pr) == 760)%Q).
  { destruct (H3 r pr) as (_&_&_&Hx&_);
      [by rewrite Hpl, omap_get_next, omap_get_here|].
    destruct (slot_player_side _ _ _ _ Hok Hrt) as (HsB&_). rewrite HsB in Hx.
    unfold GAME_WIDTH, PADDLE_WIDTH in Hx. lra. }
  assert (Hpos : (0 < ball_vx b)%Q).
  { unfold hitsRightPaddle in Hhit. apply andb_prop in Hhit as [Hhit _].
    apply andb_prop in Hhit as [Hhit _]. apply andb_prop in Hhit as [Hhit _].
    apply andb_prop in Hhit as [Hhit _]. by apply Qltb_true in Hhit. }
  assert (Hvb : (ball_vx b == 3)%Q).
  { unfold b in *. rewrite bounceWalls_vx in *. simpl in *.
    unfold BALL_SPEED in Hvx. revert Hvx. apply Qabs_case; intros; lra. }
  assert (Hmiss : hitsLeftPaddle (paddle pl) b = false).
  { unfold hitsLeftPaddle. apply andb_false_intro1, andb_false_intro1,
      andb_false_intro1, andb_false_intro1. apply Qltb_false. lra. }
  set (b1 := {| ball_x := paddle_x (paddle pr) - BALL_SIZE; ball_y := ball_y b;
                ball_vx := - ball_vx b; ball_vy := ball_vy b |}).
  exists b1.
  assert (Hstep : stepBall r1 r2 r3 room =
                  (false, set_gameState (set_ball b1 (gameState room)) room)).
  { unfold stepBall. cbv zeta. rewrite Hl, Hrt. simpl fmap.
    cbn [collideLeft compose snd]. fold b. rewrite Hmiss.
    cbn [collideRight]. rewrite Hhit. fold b1.
    replace (Qltb (ball_x b1) 0) with false.
    2:{ symmetry. apply Qltb_false. simpl. unfold BALL_SIZE. lra. }
    replace (Qltb GAME_WIDTH (ball_x b1)) with false; [done|].
    symmetry. apply Qltb_false. simpl. unfold BALL_SIZE, GAME_WIDTH. lra. }
  rewrite Hstep. simpl. split; [done|]. unfold BALL_SIZE.
  split; [lra|]. split; [lra|]. done.
Qed.

Lemma demo_before_right_hit_reachable : reachable demo_before_right_hit.
Proof.
  apply reachable_ticks. eapply reachable_step; [apply demo_running_reachable|].
  constructor.
Qed.

Lemma demo_before_right_hit_lookup :
  rooms demo_before_right_hit !! "room_2_b" = Some demo_before_right_hit_room.
Proof. by vm_compute. Qed.

Lemma right_paddle_returns_ball_witness :
  let b := bounceWalls (moveBall (ball (gameState demo_before_right_hit_room))) in
  ∃ b',
    updateBall 0.3 0.7 0.1 "room_2_b" demo_before_right_hit =
      (false,
       store_room "room_2_b"
         (set_gameState (set_ball b' (gameState demo_before_right_hit_room))
            demo_before_right_hit_room) demo_before_right_hit) ∧
    (ball_x b' == 740)%Q ∧ (ball_vx b' == -3)%Q ∧
    ball_y b' = ball_y b ∧ ball_vy b' = ball_vy b.
Proof.
  assert (H1 : gameActive (gameState demo_before_right_hit_room) = true)
    by by vm_compute.
  assert (H2 : slot_player Right demo_before_right_hit_room = Some ("B", demo_playerB))
    by by vm_compute.
  assert (H3 : hitsRightPaddle (paddle demo_playerB)
                 (bounceWalls (moveBall (ball (gameState demo_before_right_hit_room))))
               = true) by by vm_compute.
  exact (right_paddle_returns_ball 0.3 0.7 0.1 "room_2_b" demo_before_right_hit_room
           "B" demo_playerB demo_before_right_hit demo_before_right_hit_reachable
           demo_before_right_hit_lookup H1 H2 H3).
Defined.
